(** * libhybris property client: hybris/properties/properties.c

    A shallow embedding of the property client (the static resolvers
    [find_key] and [find_key_kernel_cmdline], the socket exchange
    [send_prop_msg] and the public [property_get], [property_set] and
    [property_list]) together with the properties established about it. *)

From Equations Require Import Equations.
From Stdlib Require Import ZArith List Bool Ascii String Lia Arith.
Import ListNotations.

Local Open Scope string_scope.
Local Open Scope list_scope.

(** ** C strings *)

(** Bytes with a role in the parsers. *)
Definition NUL : ascii := "000"%char.
Definition LF : ascii := "010"%char.
Definition CR : ascii := "013"%char.
Definition SP : ascii := " "%char.
Definition EQUALS : ascii := "="%char.

Definition strlen (s : string) : nat := String.length s.

(** [before c s] is the text of [s] in front of the first [c] (all of [s]
    when [c] does not occur): what remains of a buffer once a 0 has been
    stored at [strchr(s, c)]. *)
Fixpoint before (c : ascii) (s : string) : string :=
  match s with
  | EmptyString => EmptyString
  | String a r => if Ascii.eqb a c then EmptyString else String a (before c r)
  end.

(** [strchr s c]: the text that follows the first [c] in [s], [None] for
    the null pointer.  The pointer C returns addresses the [c] itself; every
    use in this file steps over it at once. *)
Fixpoint strchr (s : string) (c : ascii) : option string :=
  match s with
  | EmptyString => None
  | String a r => if Ascii.eqb a c then Some r else strchr r c
  end.

(** The C string held by a byte buffer ends at its first 0. *)
Definition cstr (bytes : string) : string := before NUL bytes.

(** [skip c s] steps over the leading [c]s of [s] ([strspn]). *)
Fixpoint skip (c : ascii) (s : string) : string :=
  match s with
  | EmptyString => EmptyString
  | String a r => if Ascii.eqb a c then skip c r else s
  end.

(** [strtok] with the one-character delimiter set [c], the saved position
    made explicit: [strtok c p] scans from [p] (the buffer on the first
    call, the saved position on the next ones), steps over leading
    delimiters, and returns the token with the position to resume from;
    [None] is the null pointer returned when only delimiters are left. *)
Definition strtok (c : ascii) (p : string) : option (string * string) :=
  match skip c p with
  | EmptyString => None
  | String a r =>
      Some (before c (String a r),
            match strchr (String a r) c with Some rest => rest | None => EmptyString end)
  end.

(** [strncmp(s, lit, strlen(lit)) == 0]: [s] starts with [lit]. *)
Definition starts_with (lit s : string) : bool := String.prefix lit s.

(** [s + n] for a string known to have at least [n] characters. *)
Fixpoint advance (n : nat) (s : string) : string :=
  match n, s with
  | S m, String _ r => advance m r
  | _, _ => s
  end.

(** The first [n] characters of [s]. *)
Fixpoint take (n : nat) (s : string) : string :=
  match n, s with
  | S m, String a r => String a (take m r)
  | _, _ => EmptyString
  end.

(** [snprintf(dst, size, "<a>%s", b)]: at most [size - 1] characters are
    stored in front of the terminator. *)
Definition snprintf2 (size : nat) (a b : string) : string :=
  take (size - 1) (a ++ b)%string.

(** [strncpy(dst, src, size)] for a destination of [size] bytes, read back
    as a C string. *)
Definition strncpy (size : nat) (src : string) : string := take size src.

(** A call that dereferences a null pointer does not return. *)
Inductive run (A : Type) : Type :=
| Ok (a : A)
| Segfault.
Arguments Ok {A} a.
Arguments Segfault {A}.

(** ** Files *)

(** What the file system holds under a fixed path. *)
Inductive file_state : Type :=
| Absent                      (* open fails *)
| Unreadable                  (* open succeeds, reading fails *)
| Contents (bytes : string).

(** [fgets(buf, size, f)] on the unread part [f] of a stream: at most
    [size - 1] bytes, stopping after a line feed.  Returns the bytes stored
    and the part still unread. *)
Fixpoint fgets_from (room : nat) (f : string) : string * string :=
  match room, f with
  | S n, String a r =>
      if Ascii.eqb a LF then (String a EmptyString, r)
      else let (buf, rest) := fgets_from n r in (String a buf, rest)
  | _, _ => (EmptyString, f)
  end.

Definition fgets (size : nat) (f : string) : option (string * string) :=
  match f with
  | EmptyString => None             (* end of file: NULL *)
  | _ => Some (fgets_from (size - 1) f)
  end.

(** ** The operating system *)

Local Open Scope Z_scope.

(** Modelled from the spec: [prop_msg_t] and the [PROP_MSG_] constants are
    declared in hybris/properties/properties.h, which is not among the
    sources.  The command of an envelope is one of GET, SET and LIST. *)
Inductive prop_cmd : Type :=
| PROP_MSG_SETPROP
| PROP_MSG_GETPROP
| PROP_MSG_LISTPROP.

Definition prop_cmd_eqb (a b : prop_cmd) : bool :=
  match a, b with
  | PROP_MSG_SETPROP, PROP_MSG_SETPROP => true
  | PROP_MSG_GETPROP, PROP_MSG_GETPROP => true
  | PROP_MSG_LISTPROP, PROP_MSG_LISTPROP => true
  | _, _ => false
  end.

(** [prop_msg_t] with its fields [cmd], [name] and [value]; the two buffers
    are represented by the C strings they hold, so a reception whose buffers
    lack a terminator is outside the model. *)
Record prop_msg_t : Type := mk_msg {
  msg_cmd : prop_cmd;
  msg_name : string;
  msg_value : string
}.

(** [memset(&msg, 0, sizeof(msg)); msg.cmd = c]. *)
Definition zeroed (c : prop_cmd) : prop_msg_t := mk_msg c "" "".

(** A system call returns a value and, when it fails, leaves an errno. *)
Record outcome : Type := mk_outcome {
  ret_val : Z;
  err : Z
}.

(** One [recv]: the value returned and what the buffer holds then.  The
    buffer is left as it was when the value is not positive. *)
Record reception : Type := mk_reception {
  received : Z;
  envelope : prop_msg_t
}.

Definition EINTR : Z := 4.
Definition EPIPE : Z := 32.
Definition ECONNREFUSED : Z := 111.

(** What a call of the client can be observed to do. *)
Inductive event : Type :=
| EvSocket (r : Z)
| EvConnect (fd r : Z)
| EvSend (fd : Z) (m : prop_msg_t) (r : Z)
| EvRecv (fd r : Z)
| EvClose (fd : Z)
| EvCallback (fn : nat) (key val : string) (cookie : Z)
| EvFopen (path : string)
| EvFclose (path : string)
| EvOpen (path : string)
| EvRead (path : string)
| EvCloseFile (path : string).

(** The environment of a call: the results the kernel and the property
    service are going to give, in order, and the two static sources.
    A script that has run out stands for a peer that is gone: [connect] is
    refused, [send] fails with EPIPE, [recv] returns 0. *)
Record world : Type := mk_world {
  os_socket : Z;
  os_connect : list outcome;
  os_send : list outcome;
  os_recv : list reception;
  build_prop : file_state;
  proc_cmdline : file_state;
  errno : Z
}.

(** Computations of the client: they read and advance the environment and
    emit events. *)
Definition M (A : Type) : Type := world -> A * world * list event.

Definition ret {A : Type} (a : A) : M A := fun w => (a, w, []).

Definition bind {A B : Type} (m : M A) (f : A -> M B) : M B :=
  fun w =>
    let '(a, w1, e1) := m w in
    let '(b, w2, e2) := f a w1 in
    (b, w2, e1 ++ e2).

Notation "x <- m ;; k" := (bind m (fun x => k))
  (at level 61, m at next level, right associativity).
Notation "' pat <- m ;; k" := (bind m (fun x => match x with pat => k end))
  (at level 61, pat pattern, m at next level, right associativity).
Notation "m ;;; k" := (bind m (fun _ => k))
  (at level 61, right associativity).

Definition emit (e : event) : M unit := fun w => (tt, w, [e]).

Definition get_errno : M Z := fun w => (errno w, w, []).

(** The next entry of a script, [dflt] once it has run out. *)
Definition next_outcome (dflt : outcome) (script : list outcome) : outcome * list outcome :=
  match script with
  | [] => (dflt, [])
  | o :: rest => (o, rest)
  end.

Definition errno_after (o : outcome) (w : world) : Z :=
  if ret_val o <? 0 then err o else errno w.

Definition socket : M Z :=
  fun w => (os_socket w, w, [EvSocket (os_socket w)]).

Definition connect (s : Z) : M Z :=
  fun w =>
    let (o, rest) := next_outcome (mk_outcome (-1) ECONNREFUSED) (os_connect w) in
    (ret_val o,
     mk_world (os_socket w) rest (os_send w) (os_recv w)
              (build_prop w) (proc_cmdline w) (errno_after o w),
     [EvConnect s (ret_val o)]).

Definition send (s : Z) (msg : prop_msg_t) : M Z :=
  fun w =>
    let (o, rest) := next_outcome (mk_outcome (-1) EPIPE) (os_send w) in
    (ret_val o,
     mk_world (os_socket w) (os_connect w) rest (os_recv w)
              (build_prop w) (proc_cmdline w) (errno_after o w),
     [EvSend s msg (ret_val o)]).

Definition close (s : Z) : M unit := emit (EvClose s).

(** [TEMP_FAILURE_RETRY(expression)] of the C library:
    [do result = (long) (expression); while (result == -1 && errno == EINTR);]
    and the value is [result].  [fuel] bounds the number of repetitions;
    [send_retry_completes] below shows that the bound is not what ends the
    loop. *)
Fixpoint retry (fuel : nat) (expression : M Z) : M Z :=
  result <- expression ;;
  e <- get_errno ;;
  if (result =? -1) && (e =? EINTR) then
    match fuel with
    | S n => retry n expression
    | O => ret result
    end
  else ret result.

(** An interrupted [connect] or [send] uses up an entry of its script and a
    script that has run out fails with another errno, so the scripts still
    pending bound the repetitions. *)
Definition TEMP_FAILURE_RETRY (expression : M Z) : M Z :=
  fun w => retry (List.length (os_connect w) + List.length (os_send w)) expression w.

(** Case analysis on a computed value that keeps the equation, for the
    termination arguments of the loops below. *)
Definition inspect {A : Type} (x : A) : {y : A | x = y} := exist _ x eq_refl.

(** ** Concrete runs

    The sizes are those of Android's property service: names of 32 bytes and
    values of 92, so an envelope has 128 bytes. *)

Definition LINE_END : string := String LF "".

Definition full_reply (key val : string) : reception :=
  mk_reception 128 (mk_msg PROP_MSG_GETPROP key val).

(** No socket can be created and no static source has the key. *)
Definition w_unreachable : world :=
  mk_world (-1) [] [] [] Absent (Contents ("console=ttyS0" ++ LINE_END)) 0.

(** The service takes the request and closes without a reply. *)
Definition w_empty_stream : world :=
  mk_world 3 [mk_outcome 0 0] [mk_outcome 128 0] [] Absent Absent 0.

(** The service answers one envelope with an empty value. *)
Definition w_empty_value : world :=
  mk_world 3 [mk_outcome 0 0] [mk_outcome 128 0] [full_reply "ro.x" ""]
           Absent Absent 0.

(** The second reception is 12 bytes long. *)
Definition w_malformed : world :=
  mk_world 3 [mk_outcome 0 0] [mk_outcome 128 0]
           [full_reply "a" "1"; mk_reception 12 (mk_msg PROP_MSG_GETPROP "b" "");
            full_reply "c" "3"]
           Absent Absent 0.

(** A signal interrupts the first [connect]; the next one would succeed. *)
Definition w_connect_interrupted : world :=
  mk_world 3 [mk_outcome (-1) EINTR; mk_outcome 0 0] [mk_outcome 128 0]
           [full_reply "ro.x" "live"]
           (Contents ("ro.x=static" ++ LINE_END)) Absent 0.

(** A signal interrupts the first [send]. *)
Definition w_send_interrupted : world :=
  mk_world 3 [mk_outcome 0 0] [mk_outcome (-1) EINTR; mk_outcome 128 0]
           [full_reply "ro.x" "live"]
           (Contents ("ro.x=static" ++ LINE_END)) Absent 0.

Definition w_build_prop (bytes : string) : world :=
  mk_world (-1) [] [] [] (Contents bytes) Absent 0.

Definition w_cmdline (bytes : string) : world :=
  mk_world (-1) [] [] [] Absent (Contents bytes) 0.

Definition list_msg : prop_msg_t := zeroed PROP_MSG_LISTPROP.
Definition set_msg : prop_msg_t := mk_msg PROP_MSG_SETPROP "ro.x" "1".
Definition get_msg : prop_msg_t := mk_msg PROP_MSG_GETPROP "ro.x" "".

(** A key of 31 characters, and a boot parameter whose name goes on after
    them. *)
Definition key31 : string := "ro.aaaaaaaaaaaaaaaaaaaaaaaaaaaa".
Definition long_token : string := "androidboot.aaaaaaaaaaaaaaaaaaaaaaaaaaaaXYZ=v".

(** A key of 32 characters. *)
Definition key32 : string := "ro.aaaaaaaaaaaaaaaaaaaaaaaaaaaaa".

(** The service streams two properties and closes. *)
Definition w_two_replies : world :=
  mk_world 3 [mk_outcome 0 0] [mk_outcome 128 0]
           [full_reply "ro.a" "1"; full_reply "ro.b" "2"] Absent Absent 0.

(** The service answers the value live; the build-properties file has
    another value for the key. *)
Definition w_live : world :=
  mk_world 3 [mk_outcome 0 0] [mk_outcome 128 0] [full_reply "ro.x" "live"]
           (Contents ("ro.x=static" ++ LINE_END)) Absent 0.

(** [send] takes 64 of the 128 bytes. *)
Definition w_short_write : world :=
  mk_world 3 [mk_outcome 0 0] [mk_outcome 64 0] [full_reply "ro.x" "live"]
           Absent Absent 0.

(** No service; both static sources hold entries. *)
Definition w_static : world :=
  mk_world (-1) [] [] []
           (Contents ("ro.a=1" ++ LINE_END ++ "ro.x=static" ++ LINE_END))
           (Contents ("androidboot.serialno=ABC123 console=ttyS0" ++ LINE_END)) 0.

(** [n] characters of a comment. *)
Definition filler (n : nat) : string := Nat.iter n (String "#"%char) "".

(** A default of 92 characters. *)
Definition long_default : string := filler 92.

Section Properties.

(** Modelled from the spec: the header hybris/properties/properties.h is not
    among the sources.  It fixes the sizes N1 and N2 of the name and value
    buffers of an envelope; they are kept as parameters here. *)
Variable PROP_NAME_MAX : nat.
Variable PROP_VALUE_MAX : nat.

(** [sizeof(prop_msg_t)], the wire size of an envelope: the command tag, an
    [unsigned], and the two buffers. *)
Definition sizeof_prop_msg_t : Z :=
  4 + Z.of_nat PROP_NAME_MAX + Z.of_nat PROP_VALUE_MAX.

(** ** Static resolvers *)

(** The [while (fgets(buf, 1024, f) != NULL)] loop of [find_key] over the
    unread part [f] of /system/build.prop.  The line is cut at its first CR,
    then at its first LF; the two [strtok] calls give [mkey] and [value].
    [Ok None] is the NULL returned after the loop, [Ok (Some v)] is
    [strdup(value)]. *)
Equations? find_key_loop (key : option string) (f : string) : run (option string)
  by wf (String.length f) lt :=
find_key_loop key f with inspect (fgets 1024 f) := {
  | exist _ None _ => Ok None
  | exist _ (Some (buf, f')) _ =>
      let buf := cstr buf in
      let buf := match strchr buf CR with Some _ => before CR buf | None => buf end in
      let buf := match strchr buf LF with Some _ => before LF buf | None => buf end in
      match strtok EQUALS buf with
      | None => find_key_loop key f'
      | Some (mkey, saved) =>
          match strtok EQUALS saved with
          | None => find_key_loop key f'
          | Some (value, _) =>
              match key with
              | None => Segfault                      (* strcmp(NULL, mkey) *)
              | Some key' =>
                  if String.eqb key' mkey then Ok (Some value)
                  else find_key_loop key f'
              end
          end
      end }.
Proof.
  all: assert (G : forall m t, (String.length (snd (fgets_from m t)) <= String.length t)%nat)
      by (intros m; induction m as [|m IH]; intros [|c0 t]; cbn; auto;
          destruct (Ascii.eqb c0 LF); cbn; auto;
          specialize (IH t); destruct (fgets_from m t); cbn in *; lia);
    assert (D : forall m t b0 t', fgets (S (S m)) t = Some (b0, t') ->
                                  (String.length t' < String.length t)%nat)
      by (intros m [|c0 t] b0 t' E; [discriminate E|];
          cbn [fgets Nat.sub] in E; cbn [fgets_from] in E;
          pose proof (G m t) as G'; destruct (Ascii.eqb c0 LF), (fgets_from m t);
          cbn in E; injection E as _ <-; cbn in *; lia);
    match goal with
    | E : fgets _ _ = Some _ |- _ => exact (D 1022%nat _ _ _ E)
    end.
Qed.

(** [ptr && *ptr]: the characters left to scan, counting the pointer itself. *)
Definition ptr_size (ptr : option string) : nat :=
  match ptr with
  | None => O
  | Some s => S (String.length s)
  end.

(** The token loop of [find_key_kernel_cmdline] from position [ptr] of the
    command line.  [x] is the position after the next space (null when there
    is none) and [name] the token in front of it; [name_len] is taken before
    the token is cut at its ['=']. *)
Equations? cmdline_loop (key : option string) (ptr : option string) : run (option string)
  by wf (ptr_size ptr) lt :=
cmdline_loop key None := Ok None;
cmdline_loop key (Some EmptyString) := Ok None;
cmdline_loop key (Some (String a r)) :=
  let x := strchr (String a r) SP in
  let name := before SP (String a r) in
  let ptr := x in
  let value := strchr name EQUALS in
  let name_len := strlen name in
  match value with
  | None => cmdline_loop key ptr
  | Some value =>
      let name := before EQUALS name in
      if Nat.eqb name_len 0 then cmdline_loop key ptr
      else if starts_with "androidboot." name && Nat.ltb 12 name_len then
        let boot_prop_name := advance 12 name in
        let prop := snprintf2 PROP_NAME_MAX "ro." boot_prop_name in
        match key with
        | None => Segfault                            (* strcmp(prop, NULL) *)
        | Some key' =>
            if String.eqb prop key' then Ok (Some value)
            else cmdline_loop key ptr
        end
      else cmdline_loop key ptr
  end.
Proof.
  all: assert (G : forall t c0, (ptr_size (strchr t c0) <= String.length t)%nat)
      by (intros t; induction t as [|b0 t IH]; intros c0; cbn; auto;
          destruct (Ascii.eqb b0 c0); cbn; [lia | specialize (IH c0); lia]);
    pose proof (G r SP); subst ptr x; cbn [strchr];
    destruct (Ascii.eqb a SP); cbn in *; lia.
Qed.

Definition build_prop_path : string := "/system/build.prop".
Definition cmdline_path : string := "/proc/cmdline".

(** [find_key]: NULL when the file cannot be opened, else the outcome of the
    line loop, the stream closed on both ways out. *)
Definition find_key (key : option string) : M (run (option string)) :=
  fun w =>
    match build_prop w with
    | Absent => (Ok None, w, [EvFopen build_prop_path])
    | Unreadable =>
        (find_key_loop key "", w, [EvFopen build_prop_path; EvFclose build_prop_path])
    | Contents bytes =>
        match find_key_loop key bytes with
        | Ok r => (Ok r, w, [EvFopen build_prop_path; EvFclose build_prop_path])
        | Segfault => (Segfault, w, [EvFopen build_prop_path])
        end
    end.

(** The buffer [cmdline] of [find_key_kernel_cmdline] once it is
    terminated: 1023 bytes are asked for and [read] delivers them when the
    file has that many; [n] is the count [read] returns, 0 in place of a
    negative one, less one when the last byte read is a line feed;
    [cmdline[n] = 0]. *)
Definition read_cmdline (st : file_state) : string :=
  match st with
  | Absent => ""
  | Unreadable => ""
  | Contents bytes =>
      let buf := take 1023 bytes in
      let n := String.length buf in
      let n :=
        if Nat.ltb 0 n &&
           match String.get (n - 1) buf with
           | Some c => Ascii.eqb c LF
           | None => false
           end
        then (n - 1)%nat else n in
      cstr (take n buf)
  end.

Definition find_key_kernel_cmdline (key : option string) : M (run (option string)) :=
  fun w =>
    (cmdline_loop key (Some (read_cmdline (proc_cmdline w))), w,
     match proc_cmdline w with
     | Absent => [EvOpen cmdline_path]
     | _ => [EvOpen cmdline_path; EvRead cmdline_path; EvCloseFile cmdline_path]
     end).

(** ** The socket exchange *)

(** How the receive loop of [send_prop_msg] is left: by the [return] inside
    it, or at its end with the last [r], the buffer and [patched_init]. *)
Inductive loop_exit : Type :=
| Returned (result : Z) (msg : prop_msg_t)
| Fallthrough (r : Z) (msg : prop_msg_t) (patched_init : bool).

(** [while ((r = recv(s, msg, sizeof(prop_msg_t), 0)) > 0) { ... }] over the
    receptions still to come.  Returns the way out, the receptions left and
    the events. *)
Fixpoint recv_loop (pending : list reception) (s : Z) (propfn : option nat)
    (cookie : Z) (msg : prop_msg_t) (patched_init : bool)
    : loop_exit * list reception * list event :=
  match pending with
  | [] => (Fallthrough 0 msg patched_init, [], [EvRecv s 0])
  | o :: rest =>
      let r := received o in
      if 0 <? r then
        let msg := envelope o in
        if negb (r =? sizeof_prop_msg_t) then
          (Returned (-1) msg, rest, [EvRecv s r; EvClose s])
        else
          let patched_init := true in
          let called :=
            match propfn with
            | Some fn => [EvCallback fn (msg_name msg) (msg_value msg) cookie]
            | None => []
            end in
          let '(x, rest', evs) := recv_loop rest s propfn cookie msg patched_init in
          (x, rest', EvRecv s r :: called ++ evs)
      else (Fallthrough r msg patched_init, rest, [EvRecv s r])
  end.

Definition receive (s : Z) (propfn : option nat) (cookie : Z) (msg : prop_msg_t)
    : M loop_exit :=
  fun w =>
    let '(x, rest, evs) := recv_loop (os_recv w) s propfn cookie msg false in
    (x,
     mk_world (os_socket w) (os_connect w) (os_send w) rest
              (build_prop w) (proc_cmdline w) (errno w),
     evs).

(** [send_prop_msg]: the result and the envelope [msg] points to at the
    end. *)
Definition send_prop_msg (msg : prop_msg_t) (propfn : option nat) (cookie : Z)
    : M (Z * prop_msg_t) :=
  let result := -1 in
  s <- socket ;;
  if s <? 0 then ret (result, msg)
  else
    c <- TEMP_FAILURE_RETRY (r <- connect s ;; ret (if r <? 0 then 1 else 0)) ;;
    if negb (c =? 0) then close s ;;; ret (result, msg)
    else
      r <- TEMP_FAILURE_RETRY (send s msg) ;;
      if r =? sizeof_prop_msg_t then
        x <- receive s propfn cookie msg ;;
        match x with
        | Returned result msg => ret (result, msg)
        | Fallthrough r msg patched_init =>
            let result :=
              if (0 <=? r) && (patched_init || prop_cmd_eqb (msg_cmd msg) PROP_MSG_SETPROP)
              then 0 else result in
            close s ;;; ret (result, msg)
        end
      else close s ;;; ret (result, msg).

(** ** The public operations *)

Definition property_list (propfn : option nat) (cookie : Z) : M Z :=
  let msg := zeroed PROP_MSG_LISTPROP in
  '(err, _) <- send_prop_msg msg propfn cookie ;;
  if err <? 0 then ret err else ret 0.

(** [property_get_socket]: the result and the contents of the caller's
    buffer [value], which is written by the final [strncpy] only.  The
    buffer is taken to exist: the [strncpy] has no null check. *)
Definition property_get_socket (key : option string) (value : string)
    (default_value : option string) : M (Z * string) :=
  let msg := zeroed PROP_MSG_GETPROP in
  let finish (msg : prop_msg_t) : M (Z * string) :=
    match default_value with
    | Some d =>
        if Nat.eqb (strlen (msg_value msg)) 0 then
          if Nat.leb PROP_VALUE_MAX (strlen d) then ret (-1, value)
          else ret (0, strncpy PROP_VALUE_MAX d)
        else ret (0, strncpy PROP_VALUE_MAX (msg_value msg))
    | None => ret (0, strncpy PROP_VALUE_MAX (msg_value msg))
    end in
  match key with
  | Some k =>
      let msg := mk_msg (msg_cmd msg) (strncpy PROP_NAME_MAX k) (msg_value msg) in
      '(err, msg) <- send_prop_msg msg None 0 ;;
      if err <? 0 then ret (err, value) else finish msg
  | None => finish msg
  end.

(** [property_get]: the result and the contents of the caller's buffer
    [value] at the end.  The last branch assigns the local pointer
    ([value = '\0']), which leaves the buffer as it is. *)
Definition property_get (key : option string) (value : string)
    (default_value : option string) : M (run (Z * string)) :=
  if match key with
     | Some k => Nat.leb PROP_NAME_MAX (strlen k)
     | None => false
     end
  then ret (Ok (-1, value))
  else
    '(e, value) <- property_get_socket key value default_value ;;
    if e =? 0 then ret (Ok (Z.of_nat (strlen value), value))
    else
      found <- find_key key ;;
      found <-
        match found with
        | Ok None => find_key_kernel_cmdline key
        | _ => ret found
        end ;;
      match found with
      | Segfault => ret Segfault
      | Ok (Some r) => ret (Ok (Z.of_nat (strlen r), r))
      | Ok None =>
          match default_value with
          | Some d => ret (Ok (Z.of_nat (strlen d), d))
          | None => ret (Ok (0, value))
          end
      end.

Definition property_set (key value : option string) : M Z :=
  match key with
  | None => ret (-1)
  | Some key =>
      let value := match value with Some v => v | None => "" end in
      if Nat.leb PROP_NAME_MAX (strlen key) then ret (-1)
      else if Nat.leb PROP_VALUE_MAX (strlen value) then ret (-1)
      else
        let msg :=
          mk_msg PROP_MSG_SETPROP (strncpy PROP_NAME_MAX key)
                 (strncpy PROP_VALUE_MAX value) in
        '(err, _) <- send_prop_msg msg None 0 ;;
        if err <? 0 then ret err else ret 0
  end.

(** ** Observations on the events of a call *)

(** The values returned by the [recv] calls, in order. *)
Definition recv_results (evs : list event) : list Z :=
  flat_map (fun e => match e with EvRecv _ r => [r] | _ => [] end) evs.

(** The descriptors passed to [close], in order. *)
Definition closed_fds (evs : list event) : list Z :=
  flat_map (fun e => match e with EvClose fd => [fd] | _ => [] end) evs.

(** The (name, value) pairs handed to the callback, in order. *)
Definition callbacks (evs : list event) : list (string * string) :=
  flat_map (fun e => match e with EvCallback _ k v _ => [(k, v)] | _ => [] end) evs.

(** Accesses to the build-properties file or the kernel command line. *)
Definition static_io (e : event) : bool :=
  match e with
  | EvFopen _ | EvFclose _ | EvOpen _ | EvRead _ | EvCloseFile _ => true
  | _ => false
  end.

(** Some [send] returned the size of an envelope. *)
Definition full_request_sent (evs : list event) : Prop :=
  exists s m, In (EvSend s m sizeof_prop_msg_t) evs.

(** The status the receive loop ended with: the last value [recv] returned,
    when that value ended the loop (it is not positive). *)
Definition receive_loop_end (evs : list event) : option Z :=
  let r := last (recv_results evs) 1 in
  if 0 <? r then None else Some r.

Definition closed_cleanly (evs : list event) : Prop :=
  exists r, receive_loop_end evs = Some r /\ 0 <= r.

(** The number of complete reply envelopes received. *)
Definition replies_observed (evs : list event) : nat :=
  List.length (filter (Z.eqb sizeof_prop_msg_t) (recv_results evs)).

(** ** The static resolvers as the specification describes them *)

(** The pieces of [s] between the occurrences of [c]. *)
Fixpoint split_on (c : ascii) (s : string) : list string :=
  match s with
  | EmptyString => [EmptyString]
  | String a r =>
      if Ascii.eqb a c then EmptyString :: split_on c r
      else match split_on c r with
           | t :: ts => String a t :: ts
           | [] => [String a EmptyString]
           end
  end.

(** The first element of [l] on which [f] gives a result. *)
Fixpoint first_match {A B : Type} (f : A -> option B) (l : list A) : option B :=
  match l with
  | [] => None
  | a :: r => match f a with Some b => Some b | None => first_match f r end
  end.

(** [s] without its trailing carriage returns and line feeds. *)
Fixpoint strip_crlf (s : string) : string :=
  match s with
  | EmptyString => EmptyString
  | String a r =>
      match strip_crlf r with
      | EmptyString => if Ascii.eqb a CR || Ascii.eqb a LF then EmptyString
                       else String a EmptyString
      | r' => String a r'
      end
  end.

(** [s] without one trailing line feed. *)
Fixpoint chomp (s : string) : string :=
  match s with
  | EmptyString => EmptyString
  | String a EmptyString => if Ascii.eqb a LF then EmptyString else s
  | String a r => String a (chomp r)
  end.

(** A token split on its first ['='] into name and value; [None] when there
    is no ['='] or the name is empty. *)
Definition name_value (tok : string) : option (string * string) :=
  match strchr tok EQUALS with
  | Some v =>
      match before EQUALS tok with
      | EmptyString => None
      | n => Some (n, v)
      end
  | None => None
  end.

(** The value [entry] gives when its key is the requested one. *)
Definition value_for (key : string) (entry : option (string * string)) : option string :=
  match entry with
  | Some (k, v) => if String.eqb k key then Some v else None
  | None => None
  end.

(** [read_build_properties] in the words of the specification: lines,
    trailing CR/LF stripped, split on the first ['=']; the value of the first
    line whose key is [key]. *)
Definition read_build_properties_spec (key : string) (st : file_state) : option string :=
  match st with
  | Contents bytes =>
      first_match (fun line => value_for key (name_value (strip_crlf line)))
                  (split_on LF bytes)
  | _ => None
  end.

(** [read_kernel_cmdline] in the words of the specification: 1023 bytes at
    most, one trailing line feed stripped, tokens between spaces; a token
    whose name starts with androidboot. stands for the key made of ro. and
    the rest of the name. *)
Definition boot_property (tok : string) : option (string * string) :=
  match name_value tok with
  | Some (n, v) =>
      if starts_with "androidboot." n then Some ("ro." ++ advance 12 n, v)%string
      else None
  | None => None
  end.

Definition read_kernel_cmdline_spec (key : string) (st : file_state) : option string :=
  match st with
  | Contents bytes =>
      first_match (fun tok => value_for key (boot_property tok))
                  (split_on SP (chomp (take 1023 bytes)))
  | _ => None
  end.

(** ** The static resolvers as the code has them *)

(** The buffers the successive [fgets(buf, 1024, f)] deliver. *)
Equations? fgets_lines (f : string) : list string by wf (String.length f) lt :=
fgets_lines f with inspect (fgets 1024 f) := {
  | exist _ None _ => []
  | exist _ (Some (buf, f')) _ => buf :: fgets_lines f' }.
Proof.
  assert (G : forall m t, (String.length (snd (fgets_from m t)) <= String.length t)%nat)
    by (intros m; induction m as [|m IH]; intros [|c0 t]; cbn; auto;
        destruct (Ascii.eqb c0 LF); cbn; auto;
        specialize (IH t); destruct (fgets_from m t); cbn in *; lia).
  destruct f as [|c0 t]; [discriminate e|].
  unfold fgets in e. change (1024 - 1)%nat with (S 1022) in e.
  revert e. generalize 1022%nat. intros m E. cbn [fgets_from] in E.
  pose proof (G m t) as G'. destruct (Ascii.eqb c0 LF), (fgets_from m t).
  all: cbn in E; injection E as _ <-; cbn in *; lia.
Qed.

(** The non-empty pieces of a line between its ['=']: the tokens [strtok]
    goes through. *)
Definition fields (line : string) : list string :=
  filter (fun t => negb (String.eqb t "")) (split_on EQUALS line).

(** A buffer cut at its first NUL, CR or LF gives an entry when it has two
    fields at least: the first is the key and the second the value. *)
Definition line_entry (buf : string) : option (string * string) :=
  match fields (before LF (before CR (cstr buf))) with
  | k :: v :: _ => Some (k, v)
  | _ => None
  end.

Definition build_prop_lookup (key : string) (st : file_state) : option string :=
  match st with
  | Contents bytes =>
      first_match (fun buf => value_for key (line_entry buf)) (fgets_lines bytes)
  | _ => None
  end.

(** A token of the command line whose name starts with androidboot. stands
    for the key made of ro. and the rest of the name, cut to the
    [PROP_NAME_MAX - 1] characters that fit the buffer [prop]. *)
Definition boot_entry (tok : string) : option (string * string) :=
  match boot_property tok with
  | Some (k, v) => Some (take (PROP_NAME_MAX - 1) k, v)
  | None => None
  end.

Definition CRLF : string := String CR (String LF "").

(** The tokens the loop of [find_key_kernel_cmdline] has in front of it at
    position [ptr]. *)
Definition tokens_from (ptr : option string) : list string :=
  match ptr with
  | Some s => split_on SP s
  | None => []
  end.

Definition cmdline_lookup (key : string) (st : file_state) : option string :=
  match st with
  | Contents bytes =>
      first_match (fun tok => value_for key (boot_entry tok))
                  (split_on SP (cstr (chomp (take 1023 bytes))))
  | _ => None
  end.

(** ** Further observations *)

(** The answer of [property_get] once the exchange has failed: the
    build-properties file, else the kernel command line, else the default,
    else 0 with the buffer [value] as it is. *)
Definition resolve_static (key value : string) (default_value : option string)
    (w : world) : Z * string :=
  match build_prop_lookup key (build_prop w) with
  | Some v => (Z.of_nat (strlen v), v)
  | None =>
      match cmdline_lookup key (proc_cmdline w) with
      | Some v => (Z.of_nat (strlen v), v)
      | None =>
          match default_value with
          | Some d => (Z.of_nat (strlen d), d)
          | None => (0, value)
          end
      end
  end.

(** The complete replies at the head of the receptions to come: the ones the
    receive loop goes through before the reception that ends it. *)
Fixpoint leading_replies (pending : list reception) : list reception :=
  match pending with
  | [] => []
  | o :: rest =>
      if received o =? sizeof_prop_msg_t then o :: leading_replies rest else []
  end.

(** The name and value a reply carries. *)
Definition reply_pair (o : reception) : string * string :=
  (msg_name (envelope o), msg_value (envelope o)).

(** An event between the creation of socket [s] and its closing that is in
    order: a call on [s] itself, or the callback. *)
Definition on_socket (s : Z) (e : event) : bool :=
  match e with
  | EvConnect fd _ | EvSend fd _ _ | EvRecv fd _ => fd =? s
  | EvCallback _ _ _ _ => true
  | _ => false
  end.


(** Whether the build-properties file holds an entry at all, and whether the
    kernel command line holds a boot parameter at all, whatever the key. *)
Definition has_entry (st : file_state) : bool :=
  match st with
  | Contents bytes =>
      existsb (fun buf => match line_entry buf with Some _ => true | None => false end)
              (fgets_lines bytes)
  | _ => false
  end.

Definition has_boot_entry (st : file_state) : bool :=
  match st with
  | Contents bytes =>
      existsb (fun tok => match boot_entry tok with Some _ => true | None => false end)
              (split_on SP (cstr (chomp (take 1023 bytes))))
  | _ => false
  end.

(** The environment [w] with another script for [send]. *)
Definition with_send (script : list outcome) (w : world) : world :=
  mk_world (os_socket w) (os_connect w) script (os_recv w)
           (build_prop w) (proc_cmdline w) (errno w).

(** A [send] that a signal interrupts. *)
Definition interrupted : outcome := mk_outcome (-1) EINTR.

(** The value of the [recv] that ends the receive loop, read off what the
    service delivers: that of the first reception that is not a complete
    reply, and 0 (the peer has closed) when there is none. *)
Fixpoint last_reception (pending : list reception) : Z :=
  match pending with
  | [] => 0
  | o :: rest =>
      if received o =? sizeof_prop_msg_t then last_reception rest else received o
  end.

(** A token split on its first ['='] into a name and a value, neither of
    them empty. *)
Definition name_value_nonempty (tok : string) : option (string * string) :=
  match name_value tok with
  | Some (_, EmptyString) => None
  | entry => entry
  end.

(** [read_build_properties] in the words of the specification, a line with
    an empty value being skipped like the other malformed lines. *)
Definition read_build_properties_amended (key : string) (st : file_state)
    : option string :=
  match st with
  | Contents bytes =>
      first_match (fun line => value_for key (name_value_nonempty (strip_crlf line)))
                  (split_on LF bytes)
  | _ => None
  end.

Definition absent (c : ascii) (s : string) : bool :=
  match strchr s c with
  | None => true
  | Some _ => false
  end.

(** A line the specification's reading applies to: with its line feed it
    fits the line buffer, it holds no NUL, its carriage returns are at its
    end, and it has one ['='] at most. *)
Definition plain_line (line : string) : bool :=
  Nat.ltb (String.length line) 1023 && absent NUL line &&
  absent CR (strip_crlf line) &&
  match strchr line EQUALS with
  | Some rest => absent EQUALS rest
  | None => true
  end.

Definition plain_file (st : file_state) : bool :=
  match st with
  | Contents bytes => forallb plain_line (split_on LF bytes)
  | _ => true
  end.

(** ** Facts about the string primitives *)

Lemma split_on_unfold (c : ascii) (s : string) :
  split_on c s =
  before c s :: match strchr s c with Some r => split_on c r | None => [] end.
Proof.
  induction s as [|a r IH]; cbn; [reflexivity|].
  destruct (Ascii.eqb a c); [reflexivity|].
  rewrite IH. reflexivity.
Qed.

Lemma take_all (n : nat) (s : string) :
  (String.length s <= n)%nat -> take n s = s.
Proof.
  revert n. induction s as [|a r IH]; intros [|n] H; cbn in *; try reflexivity; try lia.
  rewrite IH by lia. reflexivity.
Qed.

(** Dropping the last byte when it is a line feed is [chomp]. *)
Lemma chomp_by_index (s : string) :
  take (if Nat.ltb 0 (String.length s) &&
           match String.get (String.length s - 1) s with
           | Some c => Ascii.eqb c LF
           | None => false
           end
        then (String.length s - 1)%nat else String.length s) s = chomp s.
Proof.
  induction s as [|a r IH]; [reflexivity|].
  destruct r as [|b r'].
  - cbn. destruct (Ascii.eqb a LF); reflexivity.
  - change (chomp (String a (String b r'))) with (String a (chomp (String b r'))).
    rewrite <- IH.
    change (String.length (String a (String b r'))) with (S (String.length (String b r'))).
    change (String.length (String b r')) with (S (String.length r')).
    cbn [Nat.ltb Nat.leb andb Nat.sub]. rewrite Nat.sub_0_r.
    change (String.get (S (String.length r')) (String a (String b r')))
      with (String.get (String.length r') (String b r')).
    destruct (String.get (String.length r') (String b r')) as [c|]; [|reflexivity].
    destruct (Ascii.eqb c LF); reflexivity.
Qed.

Lemma read_cmdline_text (bytes : string) :
  read_cmdline (Contents bytes) = cstr (chomp (take 1023 bytes)).
Proof. unfold read_cmdline. cbv zeta. rewrite chomp_by_index. reflexivity. Qed.

Lemma before_head_differs (c a : ascii) (r : string) :
  Ascii.eqb a c = false -> String.eqb (before c (String a r)) "" = false.
Proof. intros H. cbn. rewrite H. reflexivity. Qed.

(** [strtok] walks through the non-empty pieces between the delimiters. *)
Lemma strtok_fields (c : ascii) (p : string) :
  match strtok c p with
  | None => filter (fun t => negb (String.eqb t "")) (split_on c p) = []
  | Some (t, saved) =>
      filter (fun t => negb (String.eqb t "")) (split_on c p) =
      t :: filter (fun t => negb (String.eqb t "")) (split_on c saved)
  end.
Proof.
  induction p as [|a r IH]; [reflexivity|].
  unfold strtok in *. cbn [skip].
  destruct (Ascii.eqb a c) eqn:E.
  - cbn [split_on]. rewrite E. cbn [filter String.eqb negb]. exact IH.
  - rewrite (split_on_unfold c (String a r)). cbn [filter].
    rewrite (before_head_differs _ _ _ E). cbn [negb].
    destruct (strchr (String a r) c); reflexivity.
Qed.

Lemma line_entry_strtok (buf : string) :
  line_entry buf =
  match strtok EQUALS (before LF (before CR (cstr buf))) with
  | None => None
  | Some (mkey, saved) =>
      match strtok EQUALS saved with
      | None => None
      | Some (value, _) => Some (mkey, value)
      end
  end.
Proof.
  unfold line_entry, fields.
  pose proof (strtok_fields EQUALS (before LF (before CR (cstr buf)))) as H.
  destruct (strtok EQUALS (before LF (before CR (cstr buf)))) as [[mkey saved]|].
  - rewrite H. pose proof (strtok_fields EQUALS saved) as H'.
    destruct (strtok EQUALS saved) as [[v rest]|]; rewrite H'; reflexivity.
  - rewrite H. reflexivity.
Qed.

Lemma cut_at (c : ascii) (s : string) :
  match strchr s c with Some _ => before c s | None => s end = before c s.
Proof.
  destruct (strchr s c) eqn:E; [reflexivity|].
  induction s as [|a r IH]; [reflexivity|]. cbn in *.
  destruct (Ascii.eqb a c); [discriminate|]. rewrite <- IH at 1 by assumption. reflexivity.
Qed.

Lemma inspect_eq {A : Type} (x y : A) (e : x = y) : inspect x = exist _ y e.
Proof. subst y. reflexivity. Qed.

Lemma find_key_loop_lookup (key : string) (f : string) :
  find_key_loop (Some key) f =
  Ok (first_match (fun buf => value_for key (line_entry buf)) (fgets_lines f)).
Proof.
  funelim (fgets_lines f); rewrite find_key_loop_equation_1, (inspect_eq _ _ e).
  - rewrite find_key_loop_clause_1_equation_1. cbv zeta.
    rewrite !cut_at. cbn [first_match]. rewrite line_entry_strtok.
    destruct (strtok EQUALS (before LF (before CR (cstr buf)))) as [[mkey saved]|];
      [|apply H].
    destruct (strtok EQUALS saved) as [[v rest]|]; [|apply H].
    cbn [value_for]. rewrite (String.eqb_sym key mkey).
    destruct (String.eqb mkey key); [reflexivity|apply H].
  - rewrite find_key_loop_clause_1_equation_2. reflexivity.
Qed.

Lemma prefix_length (p s : string) :
  String.prefix p s = true -> (String.length p <= String.length s)%nat.
Proof.
  revert s. induction p as [|a p IH]; intros [|b s] H; cbn in *; try lia; try discriminate.
  destruct (Ascii.ascii_dec a b); [|discriminate]. specialize (IH s H). lia.
Qed.

Lemma strchr_length (s : string) (c : ascii) (v : string) :
  strchr s c = Some v ->
  String.length s = (String.length (before c s) + 1 + String.length v)%nat.
Proof.
  induction s as [|a r IH]; cbn; [discriminate|].
  destruct (Ascii.eqb a c); cbn.
  - intros [= ->]. lia.
  - intros H. rewrite (IH H). lia.
Qed.

Lemma cmdline_loop_lookup (key : string) (ptr : option string) :
  cmdline_loop (Some key) ptr =
  Ok (first_match (fun tok => value_for key (boot_entry tok)) (tokens_from ptr)).
Proof.
  remember (Some key) as k eqn:K. revert key K.
  funelim (cmdline_loop k ptr); intros key' ->; try reflexivity.
  clear Heqcall.
  assert (IH : cmdline_loop (Some key') (strchr (String a r) SP) =
               Ok (first_match (fun tok => value_for key' (boot_entry tok))
                     (tokens_from (strchr (String a r) SP))))
    by (apply H1; reflexivity).
  clear H H0 H1.
  unfold tokens_from. rewrite split_on_unfold.
  fold (tokens_from (strchr (String a r) SP)).
  cbn [first_match]. unfold boot_entry at 1, boot_property, name_value.
  set (tok := before SP (String a r)).
  destruct (strchr tok EQUALS) as [v|] eqn:V; [|exact IH].
  pose proof (strchr_length _ _ _ V) as L.
  destruct (Nat.eqb (strlen tok) 0) eqn:Z; [apply Nat.eqb_eq in Z; unfold strlen in Z; lia|].
  destruct (starts_with "androidboot." (before EQUALS tok)) eqn:P.
  - pose proof (prefix_length _ _ P) as L'. cbn [String.length] in L'.
    replace (Nat.ltb 12 (strlen tok)) with true
      by (symmetry; apply Nat.ltb_lt; unfold strlen; lia).
    cbn [andb].
    destruct (before EQUALS tok) as [|b n] eqn:B; [discriminate P|].
    rewrite P. cbn [value_for]. unfold snprintf2.
    destruct (String.eqb (take (PROP_NAME_MAX - 1) ("ro." ++ advance 12 (String b n))) key');
      [reflexivity|exact IH].
  - cbn [andb]. destruct (before EQUALS tok) as [|b n]; [exact IH|].
    rewrite P. exact IH.
Qed.

(** ** The static resolvers *)

Lemma find_key_kernel_cmdline_result (key : string) (w : world) :
  fst (fst (find_key_kernel_cmdline (Some key) w)) =
    Ok (cmdline_lookup key (proc_cmdline w)) /\
  snd (fst (find_key_kernel_cmdline (Some key) w)) = w.
Proof.
  unfold find_key_kernel_cmdline, cmdline_lookup. cbn [fst snd].
  split; [|reflexivity].
  rewrite cmdline_loop_lookup. unfold tokens_from.
  destruct (proc_cmdline w) as [| |bytes]; try reflexivity.
  rewrite read_cmdline_text. reflexivity.
Qed.

(** C8, as amended.  [find_key_kernel_cmdline] reads 1023 bytes at most,
    drops one trailing line feed, stops at the first NUL, and goes through the
    tokens between spaces; a token without ['='] or with an empty name is
    skipped, a token whose name starts with androidboot. stands for the key
    made of ro. and the rest of the name, of which the first
    [PROP_NAME_MAX - 1] characters are kept; the value of the first token
    whose key is the requested one is returned, NULL when there is none.
    With room for the key, androidboot.serialno=ABC123 console=ttyS0 resolves
    ro.serialno to ABC123 and does not resolve ro.console. *)
Theorem find_key_kernel_cmdline_lookup :
  (forall (key : string) (w : world),
      fst (fst (find_key_kernel_cmdline (Some key) w)) =
        Ok (cmdline_lookup key (proc_cmdline w)) /\
      snd (fst (find_key_kernel_cmdline (Some key) w)) = w) /\
  (forall w : world,
      (12 <= PROP_NAME_MAX)%nat ->
      proc_cmdline w = Contents "androidboot.serialno=ABC123 console=ttyS0" ->
      fst (fst (find_key_kernel_cmdline (Some "ro.serialno") w)) = Ok (Some "ABC123") /\
      fst (fst (find_key_kernel_cmdline (Some "ro.console") w)) = Ok None).
Proof.
  split; [exact find_key_kernel_cmdline_result|].
  intros w H E.
  rewrite !(proj1 (find_key_kernel_cmdline_result _ w)), E. unfold cmdline_lookup.
  {
    set (toks := split_on SP _). vm_compute in toks. subst toks.
    unfold boot_entry. cbn [first_match].
    set (b1 := boot_property "androidboot.serialno=ABC123"). vm_compute in b1. subst b1.
    set (b2 := boot_property "console=ttyS0"). vm_compute in b2. subst b2.
    cbv beta iota. rewrite take_all by (cbn; lia). split; reflexivity. }
Qed.

(** ** Length checks and the null key *)

Lemma strncpy_fits (n : nat) (s : string) :
  (strlen s < n)%nat -> strncpy n s = s.
Proof. intros H. apply take_all. unfold strlen in H. lia. Qed.

(** C6.  [property_set] returns -1 with no event at all when the key has
    [PROP_NAME_MAX] characters or more, or the value [PROP_VALUE_MAX] or
    more; a null value makes the call behave as the empty string does, and
    with a key of valid length that call goes on to create its socket; and
    [property_get] returns -1 with no event, its buffer untouched, when the
    key has [PROP_NAME_MAX] characters or more. *)
Theorem length_checks_before_io (key : string) (w : world) :
  ((PROP_NAME_MAX <= strlen key)%nat ->
   forall value, property_set (Some key) value w = (-1, w, [])) /\
  (forall value, (PROP_VALUE_MAX <= strlen value)%nat ->
   property_set (Some key) (Some value) w = (-1, w, [])) /\
  property_set (Some key) None w = property_set (Some key) (Some "") w /\
  ((strlen key < PROP_NAME_MAX)%nat -> (0 < PROP_VALUE_MAX)%nat ->
   exists evs, snd (property_set (Some key) None w) = EvSocket (os_socket w) :: evs) /\
  ((PROP_NAME_MAX <= strlen key)%nat ->
   forall value default_value,
     property_get (Some key) value default_value w = (Ok (-1, value), w, [])).
Proof.
  split; [|split; [|split; [|split]]].
  - intros H value. unfold property_set.
    apply Nat.leb_le in H. rewrite H. reflexivity.
  - intros value H. unfold property_set.
    destruct (Nat.leb PROP_NAME_MAX (strlen key)); [reflexivity|].
    apply Nat.leb_le in H. rewrite H. reflexivity.
  - reflexivity.
  - intros Hk Hv. unfold property_set.
    replace (Nat.leb PROP_NAME_MAX (strlen key)) with false
      by (symmetry; apply Nat.leb_gt; exact Hk).
    replace (Nat.leb PROP_VALUE_MAX (strlen "")) with false
      by (symmetry; apply Nat.leb_gt; exact Hv).
    unfold bind at 1. unfold send_prop_msg. cbv zeta. unfold bind at 1. unfold socket.
    match goal with
    | |- context [(if ?c then ?a else ?b) w] =>
        destruct ((if c then a else b) w) as [[[err m] w1] ev1]
    end.
    destruct ((if err <? 0 then ret err else ret 0) w1) as [[z w2] ev2].
    cbn. eexists. reflexivity.
  - intros H value default_value. unfold property_get.
    apply Nat.leb_le in H. rewrite H. reflexivity.
Qed.

(** C10.  With a null key and a default shorter than [PROP_VALUE_MAX],
    [property_get_socket] sends nothing and [property_get] returns the length
    of the default with the default in the buffer; the call has no event: no
    socket, no exchange, no access to a static source. *)
Theorem property_get_null_key (value d : string) (w : world) :
  (strlen d < PROP_VALUE_MAX)%nat ->
  property_get_socket None value (Some d) w = ((0, d), w, []) /\
  property_get None value (Some d) w = (Ok (Z.of_nat (strlen d), d), w, []).
Proof.
  intros H.
  assert (G : property_get_socket None value (Some d) w = ((0, d), w, [])).
  { unfold property_get_socket. cbn.
    replace (Nat.leb PROP_VALUE_MAX (strlen d)) with false
      by (symmetry; apply Nat.leb_gt; exact H).
    rewrite (strncpy_fits _ _ H). reflexivity. }
  split; [exact G|].
  unfold property_get, bind. rewrite G. reflexivity.
Qed.

(** ** The socket exchange *)

Lemma sizeof_prop_msg_t_pos : 4 <= sizeof_prop_msg_t.
Proof. unfold sizeof_prop_msg_t. lia. Qed.

Lemma full_request_sent_cons (e : event) (evs : list event) :
  full_request_sent (e :: evs) <->
  (exists s m, e = EvSend s m sizeof_prop_msg_t) \/ full_request_sent evs.
Proof.
  unfold full_request_sent. split.
  - intros (s & m & [H|H]); [left|right]; eauto.
  - intros [(s & m & ->)|(s & m & H)]; exists s, m; [left|right]; auto.
Qed.

Lemma full_request_sent_nil : ~ full_request_sent [].
Proof. intros (s & m & []). Qed.

(** The value of [connect(...) < 0] is 0 or 1, never -1: the loop of
    [TEMP_FAILURE_RETRY] around it makes one attempt, whatever the errno. *)
Lemma connect_attempt (fuel : nat) (s : Z) (w : world) :
  retry fuel (r <- connect s ;; ret (if r <? 0 then 1 else 0)) w =
  (let '(r, w', evs) := connect s w in ((if r <? 0 then 1 else 0), w', evs)).
Proof.
  destruct fuel; cbn [retry]; unfold bind, get_errno, ret;
    destruct (connect s w) as [[r w'] evs];
    destruct (r <? 0); cbn; rewrite ?app_nil_r; reflexivity.
Qed.

(** The loop of [TEMP_FAILURE_RETRY] around [send]: only [send] events, and
    the request has been sent in full exactly when the value is the size of
    an envelope. *)
Lemma send_attempts (fuel : nat) (s : Z) (msg : prop_msg_t) (w : world) :
  forall r w' evs,
    retry fuel (send s msg) w = (r, w', evs) ->
    os_recv w' = os_recv w /\
    recv_results evs = [] /\ closed_fds evs = [] /\ callbacks evs = [] /\
    existsb static_io evs = false /\
    (full_request_sent evs <-> r = sizeof_prop_msg_t).
Proof.
  pose proof sizeof_prop_msg_t_pos as P.
  assert (One : forall r0, (full_request_sent [EvSend s msg r0] <-> r0 = sizeof_prop_msg_t)).
  { intros r0. rewrite full_request_sent_cons. split.
    - intros [(s' & m' & [= _ _ ->])|H]; [reflexivity|destruct (full_request_sent_nil H)].
    - intros ->. left. eauto. }
  revert w. induction fuel as [|n IH]; intros w r w' evs; cbn [retry];
    unfold bind, get_errno, ret;
    destruct (send s msg w) as [[r1 w1] ev1] eqn:S1;
    unfold send in S1; destruct (next_outcome _ (os_send w)) as [o rest];
    injection S1 as <- <- <-; cbn [os_recv errno].
  - destruct ((ret_val o =? -1) && (errno_after o w =? EINTR));
      intros [= <- <- <-]; cbn; repeat split; try apply One; apply One.
  - destruct ((ret_val o =? -1) && (errno_after o w =? EINTR)) eqn:C.
    + destruct (retry n (send s msg) _) as [[r2 w2] ev2] eqn:R.
      intros [= <- <- <-]. apply IH in R. cbn [os_recv] in R.
      destruct R as (R1 & R2 & R3 & R4 & R5 & R6).
      apply andb_true_iff in C. destruct C as [C _]. apply Z.eqb_eq in C.
      cbn [app recv_results closed_fds callbacks flat_map existsb static_io orb].
      unfold recv_results, closed_fds, callbacks in *.
      repeat split; auto.
      * intros H. apply full_request_sent_cons in H.
        destruct H as [(s' & m' & [= _ _ E])|H]; [lia|apply R6; exact H].
      * intros H. apply full_request_sent_cons. right. apply R6. exact H.
    + intros [= <- <- <-]. cbn. repeat split; try apply One; apply One.
Qed.

(** The bound on the repetitions is never what ends the loop around [send]:
    with the fuel [TEMP_FAILURE_RETRY] gives, the loop is left with a value
    other than -1 or an errno other than EINTR. *)
Lemma send_retry_completes (fuel : nat) (s : Z) (msg : prop_msg_t) :
  forall w r w' evs,
    (List.length (os_send w) <= fuel)%nat ->
    retry fuel (send s msg) w = (r, w', evs) ->
    ~ (r = -1 /\ errno w' = EINTR).
Proof.
  induction fuel as [|n IH]; intros w r w' evs Len; cbn [retry];
    unfold bind, get_errno, ret, send;
    destruct (os_send w) as [|o rest] eqn:Sc; cbn [next_outcome List.length] in *;
    cbn [errno ret_val err errno_after].
  - unfold errno_after. cbn. intros [= <- <- <-]. cbn. intros [_ H]. discriminate H.
  - lia.
  - unfold errno_after. cbn. intros [= <- <- <-]. cbn. intros [_ H]. discriminate H.
  - destruct ((ret_val o =? -1) && (errno_after o w =? EINTR)) eqn:C.
    + destruct (retry n _ _) as [[r2 w2] ev2] eqn:R.
      intros [= <- <- <-]. unfold send in IH. eapply IH; [|exact R]. cbn. lia.
    + intros [= <- <- <-]. cbn [errno]. intros [H1 H2].
      rewrite H1, H2 in C. discriminate C.
Qed.

(** The receive loop: [n] complete replies, then the value [r] that ends
    it, either a reception of another size (the [return] inside the loop,
    which closes the socket) or a value that is not positive. *)
Lemma recv_loop_shape (pending : list reception) (s : Z) (propfn : option nat)
    (cookie : Z) :
  forall msg patched x rest evs,
    recv_loop pending s propfn cookie msg patched = (x, rest, evs) ->
    existsb static_io evs = false /\
    ~ full_request_sent evs /\
    exists n r,
      recv_results evs = repeat sizeof_prop_msg_t n ++ [r] /\
      r <> sizeof_prop_msg_t /\
      List.length (callbacks evs) = match propfn with Some _ => n | None => O end /\
      match x with
      | Returned result _ => result = -1 /\ 0 < r /\ closed_fds evs = [s]
      | Fallthrough r' m p =>
          r' = r /\ r <= 0 /\ closed_fds evs = [] /\
          p = (patched || Nat.ltb 0 n)%bool /\ (p = false -> m = msg)
      end.
Proof.
  pose proof sizeof_prop_msg_t_pos as P.
  assert (NoSend : forall e evs, (forall s' m' r', e <> EvSend s' m' r') ->
                     ~ full_request_sent evs -> ~ full_request_sent (e :: evs)).
  { intros e evs E H F. apply full_request_sent_cons in F.
    destruct F as [(s' & m' & F)|F]; [exact (E _ _ _ F)|exact (H F)]. }
  induction pending as [|o pending IH]; intros msg patched x rest evs; cbn [recv_loop].
  - intros [= <- <- <-]. split; [reflexivity|]. split.
    { apply NoSend; [discriminate|apply full_request_sent_nil]. }
    exists O, 0. cbn. destruct propfn; repeat split; try lia;
      rewrite orb_false_r; reflexivity.
  - cbv zeta. destruct (0 <? received o) eqn:Pos.
    + apply Z.ltb_lt in Pos.
      destruct (received o =? sizeof_prop_msg_t) eqn:Full; cbn [negb].
      * apply Z.eqb_eq in Full.
        destruct (recv_loop pending s propfn cookie (envelope o) true)
          as [[x' rest'] evs'] eqn:R.
        intros [= <- <- <-].
        destruct (IH _ _ _ _ _ R) as (St & NS & n & r & L & Ne & Cb & Hx).
        split; [|split].
        { cbn [existsb static_io orb]. rewrite existsb_app, St.
          destruct propfn; reflexivity. }
        { apply NoSend; [discriminate|]. destruct propfn; [|exact NS].
          apply NoSend; [discriminate|exact NS]. }
        exists (S n), r. unfold recv_results, callbacks, closed_fds in *.
        cbn [flat_map app repeat]. rewrite !flat_map_app, L, Full.
        assert (E1 : flat_map (fun e => match e with EvRecv _ r0 => [r0] | _ => [] end)
                       match propfn with
                       | Some fn => [EvCallback fn (msg_name (envelope o))
                                       (msg_value (envelope o)) cookie]
                       | None => []
                       end = []) by (destruct propfn; reflexivity).
        assert (E2 : flat_map (fun e => match e with EvClose fd => [fd] | _ => [] end)
                       match propfn with
                       | Some fn => [EvCallback fn (msg_name (envelope o))
                                       (msg_value (envelope o)) cookie]
                       | None => []
                       end = []) by (destruct propfn; reflexivity).
        rewrite E1, E2. cbn [app].
        repeat split; auto.
        { destruct propfn; cbn; rewrite ?Cb; reflexivity. }
        { destruct x' as [res m|r' m p]; [exact Hx|].
          destruct Hx as (H1 & H2 & H3 & H4 & H5).
          repeat split; auto.
          - rewrite H4. destruct patched; reflexivity.
          - rewrite H4. discriminate. }
      * apply Z.eqb_neq in Full.
        intros [= <- <- <-]. split; [reflexivity|]. split.
        { apply NoSend; [discriminate|].
          apply NoSend; [discriminate|apply full_request_sent_nil]. }
        exists O, (received o). cbn. destruct propfn; repeat split; auto.
    + apply Z.ltb_ge in Pos.
      intros [= <- <- <-]. split; [reflexivity|]. split.
      { apply NoSend; [discriminate|apply full_request_sent_nil]. }
      exists O, (received o). cbn. destruct propfn; repeat split; try lia;
        rewrite orb_false_r; reflexivity.
Qed.

Lemma recv_results_app (a b : list event) :
  recv_results (a ++ b) = recv_results a ++ recv_results b.
Proof. apply flat_map_app. Qed.

Lemma closed_fds_app (a b : list event) :
  closed_fds (a ++ b) = closed_fds a ++ closed_fds b.
Proof. apply flat_map_app. Qed.

Lemma callbacks_app (a b : list event) :
  callbacks (a ++ b) = callbacks a ++ callbacks b.
Proof. apply flat_map_app. Qed.

Lemma full_request_sent_app (a b : list event) :
  full_request_sent (a ++ b) <-> full_request_sent a \/ full_request_sent b.
Proof.
  unfold full_request_sent. split.
  - intros (s & m & H). apply in_app_or in H. destruct H; [left|right]; eauto.
  - intros [(s & m & H)|(s & m & H)]; exists s, m; apply in_or_app; auto.
Qed.

Lemma no_request_sent (e : event) :
  (forall s m r, e <> EvSend s m r) -> ~ full_request_sent [e].
Proof.
  intros E F. apply full_request_sent_cons in F.
  destruct F as [(s & m & F)|F]; [exact (E _ _ _ F)|exact (full_request_sent_nil F)].
Qed.

Ltac prefix_apart :=
  match goal with
  | |- context [EvSocket ?a :: EvConnect ?b ?c :: ?l] =>
      change (EvSocket a :: EvConnect b c :: l) with ([EvSocket a; EvConnect b c] ++ l)
  end.

(** What a call of [send_prop_msg] shows, on each of its ways out. *)
Lemma send_prop_msg_cases (msg : prop_msg_t) (propfn : option nat) (cookie : Z)
    (w : world) :
  forall result msg' w' evs,
    send_prop_msg msg propfn cookie w = (result, msg', w', evs) ->
    existsb static_io evs = false /\
    closed_fds evs = (if os_socket w <? 0 then [] else [os_socket w]) /\
    (result = 0 \/ result = -1) /\
    ((~ full_request_sent evs /\ result = -1 /\
      recv_results evs = [] /\ callbacks evs = []) \/
     (full_request_sent evs /\ (os_socket w <? 0) = false /\
      exists n r,
        recv_results evs = repeat sizeof_prop_msg_t n ++ [r] /\
        r <> sizeof_prop_msg_t /\
        List.length (callbacks evs) = match propfn with Some _ => n | None => O end /\
        (result = 0 <-> r = 0 /\ ((1 <= n)%nat \/ msg_cmd msg = PROP_MSG_SETPROP)))).
Proof.
  intros result msg' w' evs.
  unfold send_prop_msg. cbv zeta. unfold bind at 1. unfold socket.
  destruct (os_socket w <? 0) eqn:S.
  - unfold ret. intros [= <- <- <- <-]. cbn. repeat split; auto.
    left. repeat split; auto. apply no_request_sent. discriminate.
  - unfold bind at 1. unfold TEMP_FAILURE_RETRY at 1. rewrite connect_attempt.
    unfold connect. destruct (next_outcome _ (os_connect w)) as [o rest].
    set (w1 := mk_world _ _ _ _ _ _ _).
    assert (Pre : forall tail,
               ~ full_request_sent tail ->
               ~ full_request_sent
                   ([EvSocket (os_socket w); EvConnect (os_socket w) (ret_val o)] ++ tail)).
    { intros tail T F. apply full_request_sent_cons in F.
      destruct F as [(s' & m' & F)|F]; [discriminate F|].
      apply full_request_sent_cons in F.
      destruct F as [(s' & m' & F)|F]; [discriminate F|exact (T F)]. }
    destruct (ret_val o <? 0) eqn:C; cbn [Z.eqb negb].
    + unfold bind, close, emit, ret. intros [= <- <- <- <-].
      repeat split; auto.
      left. repeat split; auto. cbn [app]. prefix_apart.
      apply Pre. apply no_request_sent. discriminate.
    + unfold bind at 1. unfold TEMP_FAILURE_RETRY.
      destruct (retry _ (send (os_socket w) msg) w1) as [[r w2] ev2] eqn:R.
      apply send_attempts in R. destruct R as (R1 & R2 & R3 & R4 & R5 & R6).
      destruct (r =? sizeof_prop_msg_t) eqn:Full.
      * apply Z.eqb_eq in Full. apply R6 in Full.
        unfold bind at 1. unfold receive.
        destruct (recv_loop (os_recv w2) (os_socket w) propfn cookie msg false)
          as [[x rest'] ev3] eqn:L.
        apply recv_loop_shape in L.
        destruct L as (St & NS & n & r' & L & Ne & Cb & Hx).
        assert (Sent : forall tail,
                   full_request_sent
                     ([EvSocket (os_socket w); EvConnect (os_socket w) (ret_val o)] ++
                      ev2 ++ tail)).
        { intros tail. apply full_request_sent_app. right.
          apply full_request_sent_app. left. exact Full. }
        destruct x as [res m|r0 m p].
        -- destruct Hx as (-> & Pos & Cl).
           unfold ret. intros [= <- <- <- <-].
           prefix_apart. split; [|split; [|split]].
           ++ rewrite !existsb_app, R5, St. reflexivity.
           ++ rewrite !closed_fds_app, R3, Cl. reflexivity.
           ++ auto.
           ++ right. split; [apply Sent|]. split; [reflexivity|].
              exists n, r'. rewrite !recv_results_app, !callbacks_app, R2, R4, L.
              cbn [recv_results callbacks flat_map app]. rewrite !app_nil_r.
              repeat split; auto; try lia; try discriminate.
        -- destruct Hx as (-> & NonPos & Cl & Hp & Hm).
           unfold bind, close, emit, ret. intros [= <- <- <- <-].
           prefix_apart. split; [|split; [|split]].
           ++ rewrite !existsb_app, R5, St. reflexivity.
           ++ rewrite !closed_fds_app, R3, Cl. reflexivity.
           ++ destruct ((0 <=? r') && (p || prop_cmd_eqb (msg_cmd m) PROP_MSG_SETPROP));
                auto.
           ++ right. split; [apply Sent|]. split; [reflexivity|].
              exists n, r'. rewrite !recv_results_app, !callbacks_app, R2, R4, L.
              cbn [recv_results callbacks flat_map app]. rewrite !app_nil_r.
              split; [reflexivity|]. split; [exact Ne|]. split; [exact Cb|].
              split.
              ** intros H. destruct (0 <=? r') eqn:Z;
                   [apply Z.leb_le in Z|cbn [andb] in H; discriminate H].
                 split; [lia|]. cbn [andb] in H. subst p.
                 destruct n as [|n]; [right|left; lia].
                 cbn [Nat.ltb Nat.leb orb] in *. rewrite <- (Hm eq_refl).
                 destruct (msg_cmd m); try reflexivity; discriminate H.
              ** intros [-> H]. cbn [Z.leb andb]. subst p. cbn [orb].
                 destruct H as [H|H].
                 --- destruct n; [lia|reflexivity].
                 --- destruct n; [|reflexivity]. cbn [Nat.ltb Nat.leb].
                     rewrite (Hm eq_refl), H. reflexivity.
      * apply Z.eqb_neq in Full.
        unfold bind, close, emit, ret. intros [= <- <- <- <-].
        prefix_apart. split; [|split; [|split]].
        -- rewrite !existsb_app, R5. reflexivity.
        -- rewrite !closed_fds_app, R3. reflexivity.
        -- auto.
        -- left. rewrite !recv_results_app, !callbacks_app, R2, R4.
           repeat split; auto.
           apply Pre. intros F. apply full_request_sent_app in F.
           destruct F as [F|F]; [apply Full, R6, F|].
           revert F. apply no_request_sent. discriminate.
Qed.

(** After [n] complete replies and a last value [r] of another size, [n]
    replies have been observed, and the connection was closed cleanly exactly
    when [r] is 0. *)
Lemma observed_shape (evs : list event) (n : nat) (r : Z) :
  recv_results evs = repeat sizeof_prop_msg_t n ++ [r] ->
  r <> sizeof_prop_msg_t ->
  replies_observed evs = n /\ (closed_cleanly evs <-> r = 0).
Proof.
  intros L Ne. unfold replies_observed, closed_cleanly, receive_loop_end.
  rewrite L, last_last, filter_app. split.
  - cbn [filter]. replace (sizeof_prop_msg_t =? r) with false
      by (symmetry; apply Z.eqb_neq; congruence).
    rewrite app_nil_r. clear L.
    induction n as [|n IH]; [reflexivity|].
    cbn [repeat filter]. rewrite Z.eqb_refl. cbn [List.length]. rewrite IH. reflexivity.
  - destruct (0 <? r) eqn:P.
    + apply Z.ltb_lt in P. split; [intros (r' & H & _); discriminate H|lia].
    + apply Z.ltb_ge in P. split.
      * intros (r' & [= <-] & H). lia.
      * intros ->. exists 0. split; [reflexivity|lia].
Qed.

(** C2, as amended.  When the request of [property_list] has been sent in
    full and the only [recv] returns 0, the callback is not called and
    [property_list] returns -1: a clean close without a reply counts as
    success for SETPROP only. *)
Theorem property_list_empty_stream (propfn : option nat) (cookie : Z) (w : world)
    (result : Z) (w' : world) (evs : list event) :
  property_list propfn cookie w = (result, w', evs) ->
  full_request_sent evs ->
  recv_results evs = [0] ->
  callbacks evs = [] /\ result = -1.
Proof.
  pose proof sizeof_prop_msg_t_pos as P.
  unfold property_list, bind.
  destruct (send_prop_msg _ propfn cookie w) as [[[err m] w1] ev1] eqn:E.
  assert (T : forall z, (if err <? 0 then ret err else ret 0) w1 =
                        (z, w', evs) -> z = (if err <? 0 then err else 0))
    by (intros z; destruct (err <? 0); intros [= <- _ _]; reflexivity).
  destruct ((if err <? 0 then ret err else ret 0) w1) as [[z w2] ev2] eqn:K.
  assert (Ev : ev2 = []) by (destruct (err <? 0); injection K as _ _ <-; reflexivity).
  assert (Z : z = if err <? 0 then err else 0)
    by (destruct (err <? 0); injection K as <- _ _; reflexivity).
  clear T K. subst ev2 z. rewrite app_nil_r.
  intros [= <- _ <-] F L.
  apply send_prop_msg_cases in E.
  destruct E as (_ & _ & R & [(NF & _)|(_ & _ & n & r & L' & Ne & Cb & Iff)]);
    [destruct (NF F)|].
  rewrite L in L'.
  destruct n as [|n]; cbn [repeat app] in L'.
  - injection L' as <-. split.
    + apply length_zero_iff_nil. rewrite Cb. destruct propfn; reflexivity.
    + destruct R as [R| ->]; [|reflexivity].
      apply Iff in R. destruct R as (_ & [R|R]); [lia|discriminate R].
  - injection L' as L1 L2. destruct n; discriminate L2.
Qed.

(** C5.  Every call of [send_prop_msg] closes the socket it obtained exactly
    once, and closes nothing when it obtained none.  When some [recv] returns
    a positive count that is not the size of an envelope, the result is
    negative, that [recv] is the last one of the call, the receptions before
    it are complete replies, and the callback has been called for those at
    most. *)
Theorem send_prop_msg_malformed_reply (msg : prop_msg_t) (propfn : option nat)
    (cookie : Z) (w : world) (result : Z) (msg' : prop_msg_t) (w' : world)
    (evs : list event) :
  send_prop_msg msg propfn cookie w = (result, msg', w', evs) ->
  closed_fds evs = (if os_socket w <? 0 then [] else [os_socket w]) /\
  (forall r,
      In r (recv_results evs) -> 0 < r -> r <> sizeof_prop_msg_t ->
      result < 0 /\
      closed_fds evs = [os_socket w] /\
      exists n,
        recv_results evs = repeat sizeof_prop_msg_t n ++ [r] /\
        (List.length (callbacks evs) <= n)%nat).
Proof.
  intros E. apply send_prop_msg_cases in E.
  destruct E as (_ & Cl & R & Cases). split; [exact Cl|].
  intros r I Pos Ne.
  destruct Cases as [(_ & _ & L & _)|(_ & S & n & r' & L & Ne' & Cb & Iff)];
    [rewrite L in I; destruct I|].
  rewrite S in Cl. rewrite L in I. apply in_app_or in I.
  destruct I as [I|[<-|[]]]; [apply repeat_spec in I; contradiction|].
  repeat split.
  - destruct R as [R| ->]; [|lia]. apply Iff in R. lia.
  - exact Cl.
  - exists n. split; [exact L|]. rewrite Cb. destruct propfn; lia.
Qed.

(** C7.  With a key and a default of valid lengths, when the GETPROP
    exchange succeeds and leaves an empty value in the envelope,
    [property_get] puts the default in the buffer and returns its length; the
    events of the call are those of the exchange, none of which touches the
    build-properties file or the kernel command line. *)
Theorem property_get_default_on_empty_reply (key value d : string) (w : world)
    (msg' : prop_msg_t) (w' : world) (evs : list event) :
  (strlen key < PROP_NAME_MAX)%nat ->
  (strlen d < PROP_VALUE_MAX)%nat ->
  send_prop_msg (mk_msg PROP_MSG_GETPROP key "") None 0 w = (0, msg', w', evs) ->
  msg_value msg' = "" ->
  property_get (Some key) value (Some d) w = (Ok (Z.of_nat (strlen d), d), w', evs) /\
  existsb static_io evs = false.
Proof.
  intros Hk Hd E V. split.
  - unfold property_get.
    replace (Nat.leb PROP_NAME_MAX (strlen key)) with false
      by (symmetry; apply Nat.leb_gt; exact Hk).
    unfold property_get_socket, zeroed. cbn [msg_cmd msg_value].
    rewrite (strncpy_fits _ _ Hk). unfold bind at 1. unfold bind at 1.
    rewrite E. cbn [Z.ltb Z.compare]. rewrite V. cbn [strlen String.length Nat.eqb].
    replace (Nat.leb PROP_VALUE_MAX (strlen d)) with false
      by (symmetry; apply Nat.leb_gt; exact Hd).
    rewrite (strncpy_fits _ _ Hd). unfold ret. cbn. rewrite !app_nil_r. reflexivity.
  - apply send_prop_msg_cases in E. apply E.
Qed.

(** An interrupted [connect] ends the call: one attempt, the socket
    closed, -1. *)
Lemma connect_interrupted (msg : prop_msg_t) (propfn : option nat) (cookie : Z)
    (w : world) (rest : list outcome) :
  0 <= os_socket w ->
  os_connect w = mk_outcome (-1) EINTR :: rest ->
  send_prop_msg msg propfn cookie w =
  (-1, msg,
   mk_world (os_socket w) rest (os_send w) (os_recv w)
            (build_prop w) (proc_cmdline w) EINTR,
   [EvSocket (os_socket w); EvConnect (os_socket w) (-1); EvClose (os_socket w)]).
Proof.
  intros S C. unfold send_prop_msg. cbv zeta. unfold bind at 1. unfold socket.
  replace (os_socket w <? 0) with false by (symmetry; apply Z.ltb_ge; exact S).
  unfold bind at 1. unfold TEMP_FAILURE_RETRY at 1. rewrite connect_attempt.
  unfold connect. rewrite C. reflexivity.
Qed.

(** When the exchange fails, [property_get] answers from the
    build-properties file, else from the kernel command line, else with the
    default; without a default the buffer keeps what it held. *)
Lemma property_get_fallback (key value : string) (default_value : option string)
    (w : world) (err : Z) (msg' : prop_msg_t) (w1 : world) (ev1 : list event) :
  (strlen key < PROP_NAME_MAX)%nat ->
  send_prop_msg (mk_msg PROP_MSG_GETPROP key "") None 0 w = (err, msg', w1, ev1) ->
  err < 0 ->
  fst (fst (property_get (Some key) value default_value w)) =
  Ok match build_prop_lookup key (build_prop w1) with
     | Some v => (Z.of_nat (strlen v), v)
     | None =>
         match cmdline_lookup key (proc_cmdline w1) with
         | Some v => (Z.of_nat (strlen v), v)
         | None =>
             match default_value with
             | Some d => (Z.of_nat (strlen d), d)
             | None => (0, value)
             end
         end
     end.
Proof.
  intros Hk E Neg. unfold property_get.
  replace (Nat.leb PROP_NAME_MAX (strlen key)) with false
    by (symmetry; apply Nat.leb_gt; exact Hk).
  unfold property_get_socket, zeroed. cbn [msg_cmd msg_value].
  rewrite (strncpy_fits _ _ Hk). unfold bind at 1. unfold bind at 1. rewrite E.
  replace (err <? 0) with true by (symmetry; apply Z.ltb_lt; exact Neg).
  unfold ret at 1. cbv beta iota.
  replace (err =? 0) with false by (symmetry; apply Z.eqb_neq; lia).
  unfold bind at 1.
  assert (F : fst (fst (find_key (Some key) w1)) = Ok (build_prop_lookup key (build_prop w1)) /\
              snd (fst (find_key (Some key) w1)) = w1).
  { unfold find_key, build_prop_lookup.
    destruct (build_prop w1) as [| |bytes]; cbn [fst snd];
      rewrite ?find_key_loop_lookup; split; reflexivity. }
  destruct (find_key (Some key) w1) as [[found w2] ev2]. cbn [fst snd] in F.
  destruct F as [-> ->].
  destruct (build_prop_lookup key (build_prop w1)) as [v|].
  - reflexivity.
  - unfold bind at 1.
    pose proof (find_key_kernel_cmdline_result key w1) as G.
    destruct (find_key_kernel_cmdline (Some key) w1) as [[found' w3] ev3].
    cbn [fst snd] in G. destruct G as [-> ->].
    destruct (cmdline_lookup key (proc_cmdline w1)) as [v|]; [reflexivity|].
    destruct default_value; reflexivity.
Qed.

(** ** Further properties of [property_get] *)

Lemma find_key_run (key : string) (w : world) :
  find_key (Some key) w =
  (Ok (build_prop_lookup key (build_prop w)), w,
   match build_prop w with
   | Absent => [EvFopen build_prop_path]
   | _ => [EvFopen build_prop_path; EvFclose build_prop_path]
   end).
Proof.
  unfold find_key, build_prop_lookup.
  destruct (build_prop w) as [| |bytes]; rewrite ?find_key_loop_lookup; reflexivity.
Qed.

Lemma find_key_kernel_cmdline_run (key : string) (w : world) :
  find_key_kernel_cmdline (Some key) w =
  (Ok (cmdline_lookup key (proc_cmdline w)), w,
   match proc_cmdline w with
   | Absent => [EvOpen cmdline_path]
   | _ => [EvOpen cmdline_path; EvRead cmdline_path; EvCloseFile cmdline_path]
   end).
Proof.
  pose proof (find_key_kernel_cmdline_result key w) as [H _].
  unfold find_key_kernel_cmdline in *. cbn [fst] in H. rewrite H. reflexivity.
Qed.

(** [property_get] after [property_get_socket]: its buffer and length on 0,
    the static sources otherwise, the command line being opened only when the
    build-properties file has no match. *)
Lemma property_get_after_socket (key value : string) (default_value : option string)
    (w : world) (e : Z) (value' : string) (w1 : world) (ev1 : list event) :
  (strlen key < PROP_NAME_MAX)%nat ->
  property_get_socket (Some key) value default_value w = (e, value', w1, ev1) ->
  exists ev2,
    property_get (Some key) value default_value w =
      (Ok (if e =? 0 then (Z.of_nat (strlen value'), value')
           else resolve_static key value' default_value w1), w1, ev1 ++ ev2) /\
    forallb static_io ev2 = true /\
    (e = 0 -> ev2 = []) /\
    (e <> 0 ->
     In (EvFopen build_prop_path) ev2 /\
     (In (EvOpen cmdline_path) ev2 <-> build_prop_lookup key (build_prop w1) = None)).
Proof.
  intros Hk E. unfold property_get.
  replace (Nat.leb PROP_NAME_MAX (strlen key)) with false
    by (symmetry; apply Nat.leb_gt; exact Hk).
  unfold bind at 1. rewrite E.
  destruct (e =? 0) eqn:Z.
  - apply Z.eqb_eq in Z. exists []. unfold ret. repeat split; auto; try contradiction.
  - apply Z.eqb_neq in Z. unfold bind at 1. rewrite find_key_run.
    unfold resolve_static.
    destruct (build_prop_lookup key (build_prop w1)) as [v|] eqn:B.
    + unfold bind, ret. cbn [app].
      eexists. split; [rewrite app_nil_r; reflexivity|].
      split; [destruct (build_prop w1); reflexivity|].
      split; [contradiction|]. intros _.
      split; [destruct (build_prop w1); simpl; auto|].
      split; [|discriminate].
      destruct (build_prop w1); simpl; intros H; intuition discriminate.
    + unfold bind at 1. rewrite find_key_kernel_cmdline_run.
      eexists. split.
      * destruct (cmdline_lookup key (proc_cmdline w1)) as [v|];
          [|destruct default_value]; unfold ret; rewrite app_nil_r; reflexivity.
      * split; [destruct (build_prop w1), (proc_cmdline w1); reflexivity|].
        split; [contradiction|]. intros _.
        split; [destruct (build_prop w1); simpl; auto|].
        split; [reflexivity|]. intros _. apply in_or_app. right.
        destruct (proc_cmdline w1); simpl; auto.
Qed.

(** ** The anatomy of an exchange *)

(** The ways through [send_prop_msg], with the events of each. *)
Lemma send_prop_msg_anatomy (msg : prop_msg_t) (propfn : option nat) (cookie : Z)
    (w : world) (result : Z) (msg' : prop_msg_t) (w' : world) (evs : list event) :
  send_prop_msg msg propfn cookie w = (result, msg', w', evs) ->
  let s := os_socket w in
  (s < 0 /\ evs = [EvSocket s] /\ result = -1 /\ msg' = msg /\ w' = w) \/
  (0 <= s /\
   exists c w1,
     connect s w = (c, w1, [EvConnect s c]) /\
     ((c < 0 /\ evs = [EvSocket s; EvConnect s c; EvClose s] /\
       result = -1 /\ msg' = msg /\ w' = w1) \/
      (0 <= c /\
       exists r w2 sends,
         retry (List.length (os_connect w1) + List.length (os_send w1))
               (send s msg) w1 = (r, w2, sends) /\
         ((r <> sizeof_prop_msg_t /\
           evs = EvSocket s :: EvConnect s c :: sends ++ [EvClose s] /\
           result = -1 /\ msg' = msg /\ w' = w2) \/
          (r = sizeof_prop_msg_t /\
           exists x rest ev3,
             recv_loop (os_recv w2) s propfn cookie msg false = (x, rest, ev3) /\
             w' = mk_world (os_socket w2) (os_connect w2) (os_send w2) rest
                           (build_prop w2) (proc_cmdline w2) (errno w2) /\
             match x with
             | Returned res m =>
                 evs = EvSocket s :: EvConnect s c :: sends ++ ev3 /\
                 result = res /\ msg' = m
             | Fallthrough r0 m p =>
                 evs = EvSocket s :: EvConnect s c :: sends ++ ev3 ++ [EvClose s] /\
                 result = (if (0 <=? r0) &&
                              (p || prop_cmd_eqb (msg_cmd m) PROP_MSG_SETPROP)
                           then 0 else -1) /\
                 msg' = m
             end))))).
Proof.
  cbv zeta. intros H. unfold send_prop_msg in H. cbv zeta in H.
  unfold bind at 1 in H. unfold socket in H.
  destruct (os_socket w <? 0) eqn:S.
  - apply Z.ltb_lt in S. unfold ret in H. injection H as <- <- <- <-. left. auto.
  - apply Z.ltb_ge in S. right. split; [exact S|].
    unfold bind at 1 in H. unfold TEMP_FAILURE_RETRY at 1 in H.
    rewrite connect_attempt in H.
    destruct (connect (os_socket w) w) as [[c w1] ev1] eqn:C.
    assert (Ev : ev1 = [EvConnect (os_socket w) c]).
    { unfold connect in C. destruct (next_outcome _ (os_connect w)).
      injection C as <- _ <-. reflexivity. }
    subst ev1. exists c, w1. split; [reflexivity|].
    destruct (c <? 0) eqn:Cn; cbn [Z.eqb negb] in H.
    + apply Z.ltb_lt in Cn. unfold bind, close, emit, ret in H.
      injection H as <- <- <- <-. left. auto.
    + apply Z.ltb_ge in Cn. right. split; [exact Cn|].
      unfold bind at 1 in H. unfold TEMP_FAILURE_RETRY in H.
      destruct (retry _ (send (os_socket w) msg) w1) as [[r w2] sends] eqn:R.
      exists r, w2, sends. split; [reflexivity|].
      destruct (r =? sizeof_prop_msg_t) eqn:Full.
      * apply Z.eqb_eq in Full. right. split; [exact Full|].
        unfold bind at 1 in H. unfold receive in H.
        destruct (recv_loop (os_recv w2) (os_socket w) propfn cookie msg false)
          as [[x rest] ev3] eqn:L.
        exists x, rest, ev3. split; [reflexivity|].
        destruct x as [res m|r0 m p].
        -- unfold ret in H. injection H as <- <- <- <-.
           rewrite app_nil_r. auto.
        -- unfold bind, close, emit, ret in H. injection H as <- <- <- <-.
           auto.
      * apply Z.eqb_neq in Full. left. unfold bind, close, emit, ret in H.
        injection H as <- <- <- <-. auto.
Qed.

Lemma connect_keeps (s : Z) (w : world) (c : Z) (w1 : world) (ev : list event) :
  connect s w = (c, w1, ev) ->
  os_socket w1 = os_socket w /\ os_send w1 = os_send w /\ os_recv w1 = os_recv w /\
  build_prop w1 = build_prop w /\ proc_cmdline w1 = proc_cmdline w.
Proof.
  unfold connect. destruct (next_outcome _ (os_connect w)).
  intros [= _ <- _]. repeat split.
Qed.

Lemma send_retry_keeps (fuel : nat) (s : Z) (msg : prop_msg_t) :
  forall w r w' evs,
    retry fuel (send s msg) w = (r, w', evs) ->
    os_socket w' = os_socket w /\ os_connect w' = os_connect w /\
    os_recv w' = os_recv w /\
    build_prop w' = build_prop w /\ proc_cmdline w' = proc_cmdline w /\
    Forall (fun e => exists r', e = EvSend s msg r') evs.
Proof.
  induction fuel as [|n IH]; intros w r w' evs; cbn [retry];
    unfold bind, get_errno, ret;
    destruct (send s msg w) as [[r1 w1] ev1] eqn:S1;
    unfold send in S1; destruct (next_outcome _ (os_send w)) as [o rest];
    injection S1 as <- <- <-; cbn [errno].
  - destruct ((ret_val o =? -1) && (errno_after o w =? EINTR));
      intros [= <- <- <-]; cbn; repeat split; repeat constructor; eauto.
  - destruct ((ret_val o =? -1) && (errno_after o w =? EINTR)).
    + destruct (retry n (send s msg) _) as [[r2 w2] ev2] eqn:R.
      intros [= <- <- <-]. apply IH in R. cbn in R.
      destruct R as (R1 & R2 & R3 & R4 & R5 & R6).
      cbn [app]. repeat split; auto. constructor; eauto.
    + intros [= <- <- <-]. cbn. repeat split; repeat constructor; eauto.
Qed.

(** The receive loop goes through the leading complete replies: it calls the
    callback on each, in order, and leaves the last of them in the buffer. *)
Lemma recv_loop_replies (pending : list reception) (s : Z) (propfn : option nat)
    (cookie : Z) :
  forall msg patched x rest evs,
    recv_loop pending s propfn cookie msg patched = (x, rest, evs) ->
    callbacks evs =
      match propfn with
      | Some _ => map reply_pair (leading_replies pending)
      | None => []
      end /\
    replies_observed evs = List.length (leading_replies pending) /\
    match x with
    | Returned _ _ =>
        exists evs', evs = evs' ++ [EvClose s] /\ forallb (on_socket s) evs' = true
    | Fallthrough _ m _ =>
        m = last (map envelope (leading_replies pending)) msg /\
        forallb (on_socket s) evs = true
    end.
Proof.
  pose proof sizeof_prop_msg_t_pos as P.
  assert (R0 : forall r, r <> sizeof_prop_msg_t ->
                 replies_observed [EvRecv s r] = O /\
                 replies_observed [EvRecv s r; EvClose s] = O).
  { intros r Hr. unfold replies_observed. cbn.
    replace (sizeof_prop_msg_t =? r) with false
      by (symmetry; apply Z.eqb_neq; congruence). split; reflexivity. }
  induction pending as [|o pending IH]; intros msg patched x rest evs; cbn [recv_loop].
  - intros [= <- <- <-]. cbn [leading_replies map last List.length].
    split; [destruct propfn; reflexivity|].
    split; [apply R0; lia|]. split; [reflexivity|]. cbn. rewrite Z.eqb_refl. reflexivity.
  - cbv zeta. cbn [leading_replies].
    destruct (received o =? sizeof_prop_msg_t) eqn:Full.
    + apply Z.eqb_eq in Full.
      replace (0 <? received o) with true by (symmetry; apply Z.ltb_lt; lia).
      cbn [negb].
      destruct (recv_loop pending s propfn cookie (envelope o) true)
        as [[x' rest'] evs'] eqn:R.
      intros [= <- <- <-].
      destruct (IH _ _ _ _ _ R) as (Cb & N & Hx).
      split; [|split].
      * change (EvRecv s (received o) :: ?l)
          with ([EvRecv s (received o)] ++ l).
        rewrite !callbacks_app, Cb. destruct propfn; reflexivity.
      * unfold replies_observed in *.
        change (EvRecv s (received o) :: ?l)
          with ([EvRecv s (received o)] ++ l).
        rewrite !recv_results_app.
        replace (recv_results match propfn with
                              | Some fn => [EvCallback fn (msg_name (envelope o))
                                              (msg_value (envelope o)) cookie]
                              | None => []
                              end) with (@nil Z) by (destruct propfn; reflexivity).
        cbn [recv_results flat_map app filter]. rewrite Full, Z.eqb_refl.
        cbn [List.length]. f_equal. exact N.
      * destruct x' as [res m|r' m p].
        -- destruct Hx as (evs0 & -> & F).
           exists (EvRecv s (received o) ::
                   match propfn with
                   | Some fn => [EvCallback fn (msg_name (envelope o))
                                   (msg_value (envelope o)) cookie]
                   | None => []
                   end ++ evs0).
           split; [rewrite app_comm_cons, app_assoc; reflexivity|].
           cbn [forallb on_socket]. rewrite Z.eqb_refl, forallb_app, F.
           destruct propfn; reflexivity.
        -- destruct Hx as (-> & F). clear IH R. split.
           ++ cbn [map].
              assert (G : forall (l : list prop_msg_t) b a d,
                         last (b :: l) a = last (b :: l) d)
                by (intros l; induction l as [|c l IHl]; intros b a d;
                    [reflexivity|exact (IHl c a d)]).
              destruct (map envelope (leading_replies pending)) as [|b l];
                [reflexivity|exact (G l b (envelope o) msg)].
           ++ cbn [forallb on_socket]. rewrite Z.eqb_refl, forallb_app, F.
              destruct propfn; reflexivity.
    + apply Z.eqb_neq in Full.
      destruct (0 <? received o) eqn:Pos; cbn [negb].
      * intros [= <- <- <-]. cbn [map last].
        split; [destruct propfn; reflexivity|].
        split; [apply R0; exact Full|].
        exists [EvRecv s (received o)]. split; [reflexivity|].
        cbn. rewrite Z.eqb_refl. reflexivity.
      * intros [= <- <- <-]. cbn [map last].
        split; [destruct propfn; reflexivity|].
        split; [apply R0; exact Full|]. split; [reflexivity|].
        cbn. rewrite Z.eqb_refl. reflexivity.
Qed.

Lemma sends_on_socket (s : Z) (msg : prop_msg_t) (evs : list event) :
  Forall (fun e => exists r', e = EvSend s msg r') evs ->
  forallb (on_socket s) evs = true.
Proof.
  induction 1 as [|e evs (r' & ->) _ IH]; [reflexivity|].
  cbn. rewrite Z.eqb_refl. exact IH.
Qed.

(** An exchange leaves the static sources alone and, once the request is
    sent in full, goes through the leading complete replies of the service. *)
Lemma exchange_replies (msg : prop_msg_t) (propfn : option nat) (cookie : Z)
    (w : world) (result : Z) (msg' : prop_msg_t) (w' : world) (evs : list event) :
  send_prop_msg msg propfn cookie w = (result, msg', w', evs) ->
  build_prop w' = build_prop w /\ proc_cmdline w' = proc_cmdline w /\
  (full_request_sent evs ->
   callbacks evs =
     match propfn with
     | Some _ => map reply_pair (leading_replies (os_recv w))
     | None => []
     end /\
   replies_observed evs = List.length (leading_replies (os_recv w)) /\
   (result = 0 -> msg' = last (map envelope (leading_replies (os_recv w))) msg)).
Proof.
  intros H. apply send_prop_msg_anatomy in H. cbv zeta in H.
  assert (Pre : forall a b tail,
             full_request_sent (EvSocket a :: EvConnect (os_socket w) b :: tail) ->
             full_request_sent tail).
  { intros a b tail F. apply full_request_sent_cons in F.
    destruct F as [(s' & m' & F)|F]; [discriminate F|].
    apply full_request_sent_cons in F.
    destruct F as [(s' & m' & F)|F]; [discriminate F|exact F]. }
  destruct H as [(_ & -> & _ & _ & ->)|(S & c & w1 & C & H)].
  { split; [reflexivity|]. split; [reflexivity|]. intros F. exfalso.
    revert F. apply no_request_sent. discriminate. }
  apply connect_keeps in C. destruct C as (C1 & C2 & C3 & C4 & C5).
  destruct H as [(_ & -> & _ & _ & ->)|(_ & r & w2 & sends & R & H)].
  { split; [exact C4|]. split; [exact C5|]. intros F. exfalso.
    apply Pre in F. revert F. apply no_request_sent. discriminate. }
  pose proof (send_retry_keeps _ _ _ _ _ _ _ R) as (K1 & K2 & K3 & K4 & K5 & K6).
  pose proof (send_attempts _ _ _ _ _ _ _ R) as (_ & A2 & A3 & A4 & A5 & A6).
  destruct H as [(Ne & -> & _ & _ & ->)|(_ & x & rest & ev3 & L & -> & H)].
  { split; [congruence|]. split; [congruence|].
    intros F. exfalso. apply Pre in F. apply full_request_sent_app in F.
    destruct F as [F|F]; [apply Ne, A6, F|].
    revert F. apply no_request_sent. discriminate. }
  cbn [build_prop proc_cmdline].
  split; [congruence|]. split; [congruence|]. intros _.
  rewrite K3, C3 in L.
  pose proof (recv_loop_replies _ _ _ _ _ _ _ _ _ L) as (Cb & N & Hx).
  assert (Obs : forall tail,
             callbacks tail = [] -> recv_results tail = [] ->
             callbacks (EvSocket (os_socket w) :: EvConnect (os_socket w) c ::
                        sends ++ ev3 ++ tail) = callbacks ev3 /\
             replies_observed (EvSocket (os_socket w) :: EvConnect (os_socket w) c ::
                               sends ++ ev3 ++ tail) = replies_observed ev3).
  { intros tail T1 T2. unfold replies_observed.
    change (EvSocket (os_socket w) :: EvConnect (os_socket w) c :: ?l)
      with ([EvSocket (os_socket w); EvConnect (os_socket w) c] ++ l).
    rewrite !callbacks_app, !recv_results_app, A2, A4, T1, T2.
    cbn [callbacks recv_results flat_map app]. rewrite !app_nil_r. split; reflexivity. }
  destruct x as [res m|r0 m p].
  - destruct H as (-> & -> & ->).
    destruct (Obs [] eq_refl eq_refl) as (O1 & O2). rewrite app_nil_r in O1, O2.
    rewrite O1, O2. split; [exact Cb|]. split; [exact N|].
    intros Z. exfalso.
    pose proof (recv_loop_shape _ _ _ _ _ _ _ _ _ L) as (_ & _ & n & r' & _ & _ & _ & E & _).
    lia.
  - destruct H as (-> & -> & ->).
    destruct (Obs [EvClose (os_socket w)] eq_refl eq_refl) as (O1 & O2).
    rewrite O1, O2. split; [exact Cb|]. split; [exact N|].
    intros _. apply Hx.
Qed.

(** The values [recv] returns are those of the leading complete replies of
    the service and of the reception that follows them. *)
Lemma recv_loop_results (pending : list reception) (s : Z) (propfn : option nat)
    (cookie : Z) :
  forall msg patched x rest evs,
    recv_loop pending s propfn cookie msg patched = (x, rest, evs) ->
    recv_results evs =
      map received (leading_replies pending) ++ [last_reception pending].
Proof.
  pose proof sizeof_prop_msg_t_pos as P.
  induction pending as [|o pending IH]; intros msg patched x rest evs; cbn [recv_loop].
  - intros [= <- <- <-]. reflexivity.
  - cbv zeta. cbn [leading_replies last_reception].
    destruct (received o =? sizeof_prop_msg_t) eqn:Full.
    + apply Z.eqb_eq in Full.
      replace (0 <? received o) with true by (symmetry; apply Z.ltb_lt; lia).
      cbn [negb].
      destruct (recv_loop pending s propfn cookie (envelope o) true)
        as [[x' rest'] evs'] eqn:R.
      intros [= <- <- <-].
      change (EvRecv s (received o) :: ?l) with ([EvRecv s (received o)] ++ l).
      rewrite !recv_results_app, (IH _ _ _ _ _ R).
      destruct propfn; reflexivity.
    + destruct (0 <? received o); cbn [negb]; intros [= <- <- <-]; reflexivity.
Qed.

Lemma exchange_results (msg : prop_msg_t) (propfn : option nat) (cookie : Z)
    (w : world) (result : Z) (msg' : prop_msg_t) (w' : world) (evs : list event) :
  send_prop_msg msg propfn cookie w = (result, msg', w', evs) ->
  full_request_sent evs ->
  recv_results evs =
    map received (leading_replies (os_recv w)) ++ [last_reception (os_recv w)].
Proof.
  intros H F. apply send_prop_msg_anatomy in H. cbv zeta in H.
  assert (Pre : forall a b tail,
             full_request_sent (EvSocket a :: EvConnect (os_socket w) b :: tail) ->
             full_request_sent tail).
  { intros a b tail G. apply full_request_sent_cons in G.
    destruct G as [(s' & m' & G)|G]; [discriminate G|].
    apply full_request_sent_cons in G.
    destruct G as [(s' & m' & G)|G]; [discriminate G|exact G]. }
  destruct H as [(_ & -> & _)|(S & c & w1 & C & H)].
  { exfalso. revert F. apply no_request_sent. discriminate. }
  apply connect_keeps in C. destruct C as (_ & _ & C3 & _).
  destruct H as [(_ & -> & _)|(_ & r & w2 & sends & R & H)].
  { exfalso. apply Pre in F. revert F. apply no_request_sent. discriminate. }
  pose proof (send_retry_keeps _ _ _ _ _ _ _ R) as (_ & _ & K3 & _).
  pose proof (send_attempts _ _ _ _ _ _ _ R) as (_ & A2 & _ & _ & _ & A6).
  destruct H as [(Ne & -> & _)|(_ & x & rest & ev3 & L & _ & H)].
  { exfalso. apply Pre in F. apply full_request_sent_app in F.
    destruct F as [F|F]; [apply Ne, A6, F|].
    revert F. apply no_request_sent. discriminate. }
  rewrite K3, C3 in L. apply recv_loop_results in L.
  destruct x as [res m|r0 m p]; destruct H as (-> & _);
    change (EvSocket (os_socket w) :: EvConnect (os_socket w) c :: ?l)
      with ([EvSocket (os_socket w); EvConnect (os_socket w) c] ++ l);
    rewrite !recv_results_app, A2, L; cbn [recv_results flat_map app];
    rewrite ?app_nil_r; reflexivity.
Qed.

(** C1.  When the request has been sent in full, [send_prop_msg] goes
    through what the service delivers: the values of its [recv] calls are
    those of the complete replies at the head of the stream and of the
    reception that follows them, so the replies observed are those complete
    replies and the connection is closed cleanly exactly when that reception
    is 0.  The call returns 0 or -1, and 0 exactly when the receive loop
    ended with a status that is not negative and either a complete reply was
    observed or the command is SETPROP.  A GETPROP the service closes
    without a reply fails; a SETPROP the service closes without a reply
    succeeds. *)
Theorem send_prop_msg_success (msg : prop_msg_t) (propfn : option nat) (cookie : Z)
    (w : world) (result : Z) (msg' : prop_msg_t) (w' : world) (evs : list event) :
  send_prop_msg msg propfn cookie w = (result, msg', w', evs) ->
  full_request_sent evs ->
  (result = 0 \/ result = -1) /\
  recv_results evs =
    map received (leading_replies (os_recv w)) ++ [last_reception (os_recv w)] /\
  replies_observed evs = List.length (leading_replies (os_recv w)) /\
  (closed_cleanly evs <-> last_reception (os_recv w) = 0) /\
  (result = 0 <->
   closed_cleanly evs /\
   ((1 <= replies_observed evs)%nat \/ msg_cmd msg = PROP_MSG_SETPROP)) /\
  (result = 0 <->
   last_reception (os_recv w) = 0 /\
   (leading_replies (os_recv w) <> [] \/ msg_cmd msg = PROP_MSG_SETPROP)) /\
  (msg_cmd msg = PROP_MSG_GETPROP -> last_reception (os_recv w) = 0 ->
   leading_replies (os_recv w) = [] -> result = -1) /\
  (msg_cmd msg = PROP_MSG_SETPROP -> last_reception (os_recv w) = 0 ->
   leading_replies (os_recv w) = [] -> result = 0).
Proof.
  intros E F.
  pose proof (exchange_results _ _ _ _ _ _ _ _ E F) as Rv.
  pose proof (exchange_replies _ _ _ _ _ _ _ _ E) as (_ & _ & G).
  destruct (G F) as (_ & N & _). clear G.
  apply send_prop_msg_cases in E.
  destruct E as (_ & _ & R & [(NF & _)|(_ & _ & n & r & L & Ne & _ & Iff)]);
    [destruct (NF F)|].
  destruct (observed_shape _ _ _ L Ne) as (Ob & Cl).
  assert (Er : r = last_reception (os_recv w)).
  { rewrite L in Rv. apply app_inj_tail in Rv. apply Rv. }
  assert (Ln : leading_replies (os_recv w) <> [] <-> (1 <= n)%nat).
  { rewrite <- Ob, N. destruct (leading_replies (os_recv w)); cbn; split;
      try congruence; try lia. }
  subst r. rewrite Ob in *.
  split; [exact R|]. split; [exact Rv|]. split; [exact N|]. split; [exact Cl|].
  split; [rewrite Cl; exact Iff|]. split; [rewrite Ln; exact Iff|]. split.
  - intros Gt Z Em. destruct R as [R|R]; [|exact R].
    apply Iff in R. destruct R as (_ & [R|R]); [|congruence].
    apply Ln in R. contradiction.
  - intros St Z Em. apply Iff. split; [exact Z|right; exact St].
Qed.

(** X1.  Every call of [send_prop_msg] that obtains a socket [s] creates it
    once, closes it as its very last action, and in between only connects,
    sends and receives on [s] and calls the callback: no other descriptor is
    used and [s] is never used after its [close].  Without a socket the call
    does nothing else. *)
Theorem send_prop_msg_descriptor_use (msg : prop_msg_t) (propfn : option nat)
    (cookie : Z) (w : world) (result : Z) (msg' : prop_msg_t) (w' : world)
    (evs : list event) :
  send_prop_msg msg propfn cookie w = (result, msg', w', evs) ->
  (os_socket w < 0 /\ evs = [EvSocket (os_socket w)]) \/
  (0 <= os_socket w /\
   exists mid,
     evs = EvSocket (os_socket w) :: mid ++ [EvClose (os_socket w)] /\
     forallb (on_socket (os_socket w)) mid = true).
Proof.
  intros H. apply send_prop_msg_anatomy in H. cbv zeta in H.
  destruct H as [(S & -> & _)|(S & c & w1 & C & H)]; [left; auto|].
  right. split; [exact S|].
  destruct H as [(_ & -> & _)|(_ & r & w2 & sends & R & H)].
  { exists [EvConnect (os_socket w) c]. split; [reflexivity|].
    cbn. rewrite Z.eqb_refl. reflexivity. }
  pose proof (send_retry_keeps _ _ _ _ _ _ _ R) as (_ & _ & _ & _ & _ & K).
  apply sends_on_socket in K.
  destruct H as [(_ & -> & _)|(_ & x & rest & ev3 & L & _ & H)].
  { exists (EvConnect (os_socket w) c :: sends). split; [reflexivity|].
    cbn. rewrite Z.eqb_refl. exact K. }
  apply recv_loop_replies in L. destruct L as (_ & _ & Hx).
  destruct x as [res m|r0 m p].
  - destruct H as (-> & _). destruct Hx as (ev3' & -> & F).
    exists (EvConnect (os_socket w) c :: sends ++ ev3'). split.
    + cbn [app]. rewrite <- app_assoc. reflexivity.
    + cbn. rewrite Z.eqb_refl, forallb_app, K, F. reflexivity.
  - destruct H as (-> & _). destruct Hx as (_ & F).
    exists (EvConnect (os_socket w) c :: sends ++ ev3). split.
    + cbn [app]. rewrite <- app_assoc. reflexivity.
    + cbn. rewrite Z.eqb_refl, forallb_app, K, F. reflexivity.
Qed.

(** X2.  On success [send_prop_msg] leaves in [msg] the last complete reply
    it received, the request itself when there was none; and a request other
    than SETPROP succeeds only after a complete reply. *)
Theorem send_prop_msg_returns_last_reply (msg : prop_msg_t) (propfn : option nat)
    (cookie : Z) (w : world) (msg' : prop_msg_t) (w' : world) (evs : list event) :
  send_prop_msg msg propfn cookie w = (0, msg', w', evs) ->
  msg' = last (map envelope (leading_replies (os_recv w))) msg /\
  (msg_cmd msg <> PROP_MSG_SETPROP -> leading_replies (os_recv w) <> []).
Proof.
  intros H.
  pose proof (send_prop_msg_cases _ _ _ _ _ _ _ _ H) as (_ & _ & _ & Cases).
  destruct Cases as [(_ & Z & _)|(F & _ & n & r & L & Ne & _ & Iff)]; [discriminate Z|].
  pose proof (exchange_replies _ _ _ _ _ _ _ _ H) as (_ & _ & G).
  destruct (G F) as (_ & N & M). split; [exact (M eq_refl)|].
  intros NotSet E. rewrite E in N. cbn in N.
  destruct (observed_shape _ _ _ L Ne) as (N' & _).
  destruct (proj1 Iff eq_refl) as (_ & [K|K]); [lia|contradiction].
Qed.

(** X3.  [property_set] and [property_list] have no fallback: whatever the
    outcome of the exchange, neither opens the build-properties file or the
    kernel command line, and both return 0 or -1. *)
Theorem set_and_list_have_no_fallback (key value : option string)
    (propfn : option nat) (cookie : Z) (w : world) :
  existsb static_io (snd (property_set key value w)) = false /\
  existsb static_io (snd (property_list propfn cookie w)) = false /\
  (fst (fst (property_set key value w)) = 0 \/
   fst (fst (property_set key value w)) = -1) /\
  (fst (fst (property_list propfn cookie w)) = 0 \/
   fst (fst (property_list propfn cookie w)) = -1).
Proof.
  assert (G : forall msg fn,
             existsb static_io
               (snd (bind (send_prop_msg msg fn cookie)
                          (fun x => let '(err, _) := x in
                                    if err <? 0 then ret err else ret 0) w)) = false /\
             (fst (fst (bind (send_prop_msg msg fn cookie)
                          (fun x => let '(err, _) := x in
                                    if err <? 0 then ret err else ret 0) w)) = 0 \/
              fst (fst (bind (send_prop_msg msg fn cookie)
                          (fun x => let '(err, _) := x in
                                    if err <? 0 then ret err else ret 0) w)) = -1)).
  { intros msg fn. unfold bind.
    destruct (send_prop_msg msg fn cookie w) as [[[err m] w1] ev1] eqn:E.
    apply send_prop_msg_cases in E. destruct E as (St & _ & [-> | ->] & _);
      cbn; rewrite app_nil_r; auto. }
  assert (G0 : forall msg,
             existsb static_io
               (snd (bind (send_prop_msg msg None 0)
                          (fun x => let '(err, _) := x in
                                    if err <? 0 then ret err else ret 0) w)) = false /\
             (fst (fst (bind (send_prop_msg msg None 0)
                          (fun x => let '(err, _) := x in
                                    if err <? 0 then ret err else ret 0) w)) = 0 \/
              fst (fst (bind (send_prop_msg msg None 0)
                          (fun x => let '(err, _) := x in
                                    if err <? 0 then ret err else ret 0) w)) = -1)).
  { intros msg. unfold bind.
    destruct (send_prop_msg msg None 0 w) as [[[err m] w1] ev1] eqn:E.
    apply send_prop_msg_cases in E. destruct E as (St & _ & [-> | ->] & _);
      cbn; rewrite app_nil_r; auto. }
  assert (S : existsb static_io (snd (property_set key value w)) = false /\
              (fst (fst (property_set key value w)) = 0 \/
               fst (fst (property_set key value w)) = -1)).
  { unfold property_set. destruct key as [k|]; [|cbn; auto].
    destruct (Nat.leb PROP_NAME_MAX (strlen k)); [cbn; auto|].
    destruct (Nat.leb PROP_VALUE_MAX _); [cbn; auto|]. apply G0. }
  destruct S as (S1 & S2). destruct (G (zeroed PROP_MSG_LISTPROP) propfn) as (L1 & L2).
  repeat split; assumption.
Qed.

Lemma recv_loop_no_send (pending : list reception) (s : Z) (propfn : option nat)
    (cookie : Z) :
  forall msg patched x rest evs,
    recv_loop pending s propfn cookie msg patched = (x, rest, evs) ->
    forall a b c, ~ In (EvSend a b c) evs.
Proof.
  induction pending as [|o pending IH]; intros msg patched x rest evs; cbn [recv_loop].
  - intros [= <- <- <-] a b c [I|[]]. discriminate I.
  - cbv zeta. destruct (0 <? received o).
    + destruct (negb (received o =? sizeof_prop_msg_t)).
      * intros [= <- <- <-] a b c [I|[I|[]]]; discriminate I.
      * destruct (recv_loop pending s propfn cookie (envelope o) true)
          as [[x' rest'] evs'] eqn:R.
        intros [= <- <- <-] a b c [I|I]; [discriminate I|].
        apply in_app_or in I. destruct I as [I|I]; [|exact (IH _ _ _ _ _ R _ _ _ I)].
        destruct propfn; [destruct I as [I|[]]; discriminate I|destruct I].
    + intros [= <- <- <-] a b c [I|[]]. discriminate I.
Qed.

(** Whatever an exchange sends is the request, on the socket of the call. *)
Lemma exchange_sends (msg : prop_msg_t) (propfn : option nat) (cookie : Z)
    (w : world) (result : Z) (msg' : prop_msg_t) (w' : world) (evs : list event) :
  send_prop_msg msg propfn cookie w = (result, msg', w', evs) ->
  forall s m r, In (EvSend s m r) evs -> s = os_socket w /\ m = msg.
Proof.
  intros E s m0 r I. apply send_prop_msg_anatomy in E. cbv zeta in E.
  destruct E as [(_ & -> & _)|(_ & c & w2 & _ & E)].
  { destruct I as [I|[]]. discriminate I. }
  destruct E as [(_ & -> & _)|(_ & r1 & w3 & sends & R & E)].
  { simpl in I. intuition discriminate. }
  pose proof (send_retry_keeps _ _ _ _ _ _ _ R) as (_ & _ & _ & _ & _ & K).
  assert (InSends : In (EvSend s m0 r) sends -> s = os_socket w /\ m0 = msg).
  { intros J. rewrite Forall_forall in K. destruct (K _ J) as (r' & [= -> -> _]).
    split; reflexivity. }
  destruct E as [(_ & -> & _)|(_ & x & rest & ev3 & L & _ & E)].
  { destruct I as [I|[I|I]]; try discriminate I.
    apply in_app_or in I. destruct I as [I|[I|[]]]; [exact (InSends I)|discriminate I]. }
  pose proof (recv_loop_no_send _ _ _ _ _ _ _ _ _ L) as NS.
  destruct x as [res m|r0 m p]; destruct E as (-> & _);
    (destruct I as [I|[I|I]]; try discriminate I);
    apply in_app_or in I; (destruct I as [I|I]; [exact (InSends I)|]).
  - destruct (NS _ _ _ I).
  - apply in_app_or in I. destruct I as [I|[I|[]]]; [destruct (NS _ _ _ I)|discriminate I].
Qed.

(** X4.  With a key and a value of valid lengths, [property_set] succeeds
    exactly when the request was sent in full and the receive loop ended with
    a status that is not negative, with or without a reply from the service;
    and every [send] of the call carries the SETPROP envelope with exactly
    that key and that value. *)
Theorem property_set_result (key value : string) (w : world) (result : Z)
    (w' : world) (evs : list event) :
  (strlen key < PROP_NAME_MAX)%nat ->
  (strlen value < PROP_VALUE_MAX)%nat ->
  property_set (Some key) (Some value) w = (result, w', evs) ->
  (result = 0 <-> full_request_sent evs /\ closed_cleanly evs) /\
  (forall s m r, In (EvSend s m r) evs -> m = mk_msg PROP_MSG_SETPROP key value).
Proof.
  intros Hk Hv. unfold property_set.
  replace (Nat.leb PROP_NAME_MAX (strlen key)) with false
    by (symmetry; apply Nat.leb_gt; exact Hk).
  replace (Nat.leb PROP_VALUE_MAX (strlen value)) with false
    by (symmetry; apply Nat.leb_gt; exact Hv).
  rewrite (strncpy_fits _ _ Hk), (strncpy_fits _ _ Hv). unfold bind.
  destruct (send_prop_msg _ None 0 w) as [[[err m] w1] ev1] eqn:E.
  assert (T : (if err <? 0 then ret err else ret 0) w1 =
              ((if err <? 0 then err else 0), w1, []))
    by (destruct (err <? 0); reflexivity).
  rewrite T. rewrite app_nil_r. intros [= <- <- <-]. split.
  - apply send_prop_msg_cases in E.
    destruct E as (_ & _ & R & [(NF & -> & _)|(F & _ & n & r & L & Ne & _ & Iff)]).
    + cbn. split; [discriminate|]. intros [F _]. destruct (NF F).
    + destruct (observed_shape _ _ _ L Ne) as (_ & Cl). rewrite Cl.
      destruct R as [-> | ->]; cbn.
      * split; [|reflexivity]. intros _. split; [exact F|]. apply Iff. reflexivity.
      * split; [discriminate|]. intros [_ Z]. exfalso.
        assert (K : -1 = 0) by (apply Iff; split; [exact Z|right; reflexivity]).
        discriminate K.
  - intros s m0 r I. exact (proj2 (exchange_sends _ _ _ _ _ _ _ _ E _ _ _ I)).
Qed.

(** X5.  [property_list] calls the callback once for each complete reply at
    the head of what the service sends, in the order received and with the
    name and value of that reply, also when the call then fails; it does not
    call it when the request was not sent in full; and it succeeds exactly
    when the request was sent in full, at least one complete reply came and
    the receive loop ended with a status that is not negative. *)
Theorem property_list_delivery (fn : nat) (cookie : Z) (w : world) (result : Z)
    (w' : world) (evs : list event) :
  property_list (Some fn) cookie w = (result, w', evs) ->
  (full_request_sent evs ->
   callbacks evs = map reply_pair (leading_replies (os_recv w))) /\
  (~ full_request_sent evs -> callbacks evs = []) /\
  (result = 0 <->
   full_request_sent evs /\ closed_cleanly evs /\ leading_replies (os_recv w) <> []).
Proof.
  unfold property_list, bind.
  destruct (send_prop_msg _ (Some fn) cookie w) as [[[err m] w1] ev1] eqn:E.
  assert (T : (if err <? 0 then ret err else ret 0) w1 =
              ((if err <? 0 then err else 0), w1, []))
    by (destruct (err <? 0); reflexivity).
  rewrite T, app_nil_r. intros [= <- <- <-].
  pose proof (exchange_replies _ _ _ _ _ _ _ _ E) as (_ & _ & G).
  apply send_prop_msg_cases in E.
  destruct E as (_ & _ & R & [(NF & -> & _ & Cb)|(F & _ & n & r & L & Ne & _ & Iff)]).
  - split; [intros F; destruct (NF F)|]. split; [intros _; exact Cb|].
    cbn. split; [discriminate|]. intros (F & _). destruct (NF F).
  - destruct (G F) as (Cb & N & _).
    destruct (observed_shape _ _ _ L Ne) as (N' & Cl).
    split; [intros _; exact Cb|]. split; [intros NF; destruct (NF F)|].
    rewrite Cl.
    assert (Len : leading_replies (os_recv w) <> [] <-> (1 <= n)%nat).
    { rewrite <- N', N. destruct (leading_replies (os_recv w)); cbn; split;
        try congruence; try lia. }
    rewrite Len.
    destruct R as [-> | ->]; cbn.
    + split; [|reflexivity]. intros _. destruct (proj1 Iff eq_refl) as (Z & [K|K]).
      * auto.
      * discriminate K.
    + split; [discriminate|]. intros (_ & Z & K). exfalso.
      assert (J : -1 = 0) by (apply Iff; auto). discriminate J.
Qed.

(** X6.  When the GETPROP exchange succeeds and the value it leaves is not
    empty, or no default was given, [property_get] puts that value in the
    buffer and returns its length, whatever the default; nothing but the
    exchange happens.  So a reachable service with an empty value and no
    default gives the empty string and 0. *)
Theorem property_get_live (key value : string) (default_value : option string)
    (w : world) (msg' : prop_msg_t) (w' : world) (evs : list event) :
  (strlen key < PROP_NAME_MAX)%nat ->
  send_prop_msg (mk_msg PROP_MSG_GETPROP key "") None 0 w = (0, msg', w', evs) ->
  (strlen (msg_value msg') < PROP_VALUE_MAX)%nat ->
  default_value = None \/ msg_value msg' <> "" ->
  property_get (Some key) value default_value w =
    (Ok (Z.of_nat (strlen (msg_value msg')), msg_value msg'), w', evs) /\
  existsb static_io evs = false.
Proof.
  intros Hk E Hv D.
  assert (S : property_get_socket (Some key) value default_value w =
              (0, msg_value msg', w', evs)).
  { unfold property_get_socket, zeroed. cbn [msg_cmd msg_value].
    rewrite (strncpy_fits _ _ Hk). unfold bind. rewrite E. cbn [Z.ltb Z.compare].
    rewrite (strncpy_fits _ _ Hv).
    destruct default_value as [d|]; [|unfold ret; rewrite app_nil_r; reflexivity].
    destruct D as [D|D]; [discriminate D|].
    destruct (msg_value msg') as [|a r]; [contradiction|].
    cbn [strlen String.length Nat.eqb]. unfold ret. rewrite app_nil_r. reflexivity. }
  destruct (property_get_after_socket _ _ _ _ _ _ _ _ Hk S) as (ev2 & P & _ & Z & _).
  rewrite (Z eq_refl), app_nil_r in P. cbn [Z.eqb] in P. split; [exact P|].
  apply send_prop_msg_cases in E. apply E.
Qed.

(** X7.  A default of [PROP_VALUE_MAX] characters or more is refused on the
    live path only: when the exchange succeeds with an empty value,
    [property_get] turns to the static sources, and when they have no match
    it copies the whole default and returns its length, which is not below
    [PROP_VALUE_MAX]. *)
Theorem property_get_overlong_default (key value d : string) (w : world)
    (msg' : prop_msg_t) (w' : world) (evs : list event) :
  (strlen key < PROP_NAME_MAX)%nat ->
  (PROP_VALUE_MAX <= strlen d)%nat ->
  send_prop_msg (mk_msg PROP_MSG_GETPROP key "") None 0 w = (0, msg', w', evs) ->
  msg_value msg' = "" ->
  fst (fst (property_get (Some key) value (Some d) w)) =
    Ok (resolve_static key value (Some d) w') /\
  In (EvFopen build_prop_path) (snd (property_get (Some key) value (Some d) w)) /\
  (build_prop_lookup key (build_prop w') = None ->
   cmdline_lookup key (proc_cmdline w') = None ->
   fst (fst (property_get (Some key) value (Some d) w)) = Ok (Z.of_nat (strlen d), d)).
Proof.
  intros Hk Hd E V.
  assert (S : property_get_socket (Some key) value (Some d) w = (-1, value, w', evs)).
  { unfold property_get_socket, zeroed. cbn [msg_cmd msg_value].
    rewrite (strncpy_fits _ _ Hk). unfold bind. rewrite E. cbn [Z.ltb Z.compare].
    rewrite V. cbn [strlen String.length Nat.eqb].
    replace (Nat.leb PROP_VALUE_MAX (strlen d)) with true
      by (symmetry; apply Nat.leb_le; exact Hd).
    unfold ret. rewrite app_nil_r. reflexivity. }
  destruct (property_get_after_socket _ _ _ _ _ _ _ _ Hk S) as (ev2 & P & _ & _ & Z).
  destruct (Z ltac:(discriminate)) as (I & _).
  rewrite P. cbn [fst snd Z.eqb]. split; [reflexivity|].
  split; [apply in_or_app; right; exact I|].
  intros B C. unfold resolve_static. rewrite B, C. reflexivity.
Qed.

(** X8.  When the exchange fails, [property_get] answers with the match of
    the build-properties file, else with the match of the kernel command
    line, else with the default, else with 0 and its buffer untouched; the
    static sources are those the call started with, and the command line is
    opened exactly when the build-properties file has no match. *)
Theorem property_get_resolution_order (key value : string)
    (default_value : option string) (w : world) (err : Z) (msg' : prop_msg_t)
    (w' : world) (evs : list event) :
  (strlen key < PROP_NAME_MAX)%nat ->
  send_prop_msg (mk_msg PROP_MSG_GETPROP key "") None 0 w = (err, msg', w', evs) ->
  err <> 0 ->
  fst (fst (property_get (Some key) value default_value w)) =
    Ok (resolve_static key value default_value w) /\
  (In (EvOpen cmdline_path) (snd (property_get (Some key) value default_value w)) <->
   build_prop_lookup key (build_prop w) = None).
Proof.
  intros Hk E Ne.
  pose proof (send_prop_msg_cases _ _ _ _ _ _ _ _ E) as (St & _ & R & _).
  destruct R as [R|R]; [contradiction|]. subst err.
  pose proof (exchange_replies _ _ _ _ _ _ _ _ E) as (B & C & _).
  assert (S : property_get_socket (Some key) value default_value w = (-1, value, w', evs)).
  { unfold property_get_socket, zeroed. cbn [msg_cmd msg_value].
    rewrite (strncpy_fits _ _ Hk). unfold bind. rewrite E. cbn [Z.ltb Z.compare].
    unfold ret. rewrite app_nil_r. reflexivity. }
  destruct (property_get_after_socket _ _ _ _ _ _ _ _ Hk S) as (ev2 & P & _ & _ & Z).
  destruct (Z ltac:(discriminate)) as (_ & I).
  rewrite P. cbn [fst snd Z.eqb]. unfold resolve_static. rewrite B, C.
  split; [reflexivity|]. rewrite <- B, <- I. split.
  - intros J. apply in_app_or in J. destruct J as [J|J]; [|exact J]. exfalso.
    assert (K : existsb static_io evs = true)
      by (apply existsb_exists; exists (EvOpen cmdline_path); split; [exact J|reflexivity]).
    congruence.
  - intros J. apply in_or_app. right. exact J.
Qed.

Lemma property_get_socket_result (key : option string) (value : string)
    (default_value : option string) (w : world) (e : Z) (value' : string)
    (w1 : world) (ev1 : list event) :
  property_get_socket key value default_value w = (e, value', w1, ev1) ->
  e = 0 \/ (e = -1 /\ value' = value).
Proof.
  unfold property_get_socket. cbv zeta.
  assert (F : forall m w0,
             match default_value with
             | Some d =>
                 if Nat.eqb (strlen (msg_value m)) 0
                 then if Nat.leb PROP_VALUE_MAX (strlen d)
                      then ret (-1, value)
                      else ret (0, strncpy PROP_VALUE_MAX d)
                 else ret (0, strncpy PROP_VALUE_MAX (msg_value m))
             | None => ret (0, strncpy PROP_VALUE_MAX (msg_value m))
             end w0 =
             (match default_value with
              | Some d =>
                  if Nat.eqb (strlen (msg_value m)) 0
                  then if Nat.leb PROP_VALUE_MAX (strlen d)
                       then (-1, value)
                       else (0, strncpy PROP_VALUE_MAX d)
                  else (0, strncpy PROP_VALUE_MAX (msg_value m))
              | None => (0, strncpy PROP_VALUE_MAX (msg_value m))
              end, w0, [])).
  { intros m w0. destruct default_value as [d|]; [|reflexivity].
    destruct (Nat.eqb _ 0); [destruct (Nat.leb _ _)|]; reflexivity. }
  assert (G : forall m x,
             match default_value with
             | Some d =>
                 if Nat.eqb (strlen (msg_value m)) 0
                 then if Nat.leb PROP_VALUE_MAX (strlen d)
                      then (-1, value)
                      else (0, strncpy PROP_VALUE_MAX d)
                 else (0, strncpy PROP_VALUE_MAX (msg_value m))
             | None => (0, strncpy PROP_VALUE_MAX (msg_value m))
             end = x -> fst x = 0 \/ (fst x = -1 /\ snd x = value)).
  { intros m x <-. destruct default_value as [d|]; [|cbn; auto].
    destruct (Nat.eqb _ 0); [destruct (Nat.leb _ _)|]; cbn; auto. }
  destruct key as [k|].
  - unfold bind. destruct (send_prop_msg _ None 0 w) as [[[err m] w2] ev2] eqn:E.
    apply send_prop_msg_cases in E. destruct E as (_ & _ & [-> | ->] & _).
    + cbn [Z.ltb Z.compare]. rewrite F. intros [= T _ _]. exact (G _ _ T).
    + cbn. intros [= <- <- _ _]. right. split; reflexivity.
  - rewrite F. intros [= T _ _]. exact (G (zeroed PROP_MSG_GETPROP) _ T).
Qed.

(** What [property_get_socket] makes of the outcome of the exchange. *)
Lemma property_get_socket_cases (key value : string) (default_value : option string)
    (w : world) (err : Z) (m : prop_msg_t) (w1 : world) (ev1 : list event) :
  (strlen key < PROP_NAME_MAX)%nat ->
  send_prop_msg (mk_msg PROP_MSG_GETPROP key "") None 0 w = (err, m, w1, ev1) ->
  property_get_socket (Some key) value default_value w =
    ((if err <? 0 then (err, value)
      else match default_value with
           | Some d =>
               if Nat.eqb (strlen (msg_value m)) 0
               then if Nat.leb PROP_VALUE_MAX (strlen d) then (-1, value)
                    else (0, strncpy PROP_VALUE_MAX d)
               else (0, strncpy PROP_VALUE_MAX (msg_value m))
           | None => (0, strncpy PROP_VALUE_MAX (msg_value m))
           end), w1, ev1).
Proof.
  intros Hk E. unfold property_get_socket, zeroed. cbn [msg_cmd msg_value].
  rewrite (strncpy_fits _ _ Hk). unfold bind. rewrite E.
  destruct (err <? 0); [|destruct default_value as [d|];
    [destruct (Nat.eqb _ 0); [destruct (Nat.leb _ _)|]|]];
    unfold ret; rewrite app_nil_r; reflexivity.
Qed.

(** X9.  With a key that is not null and replies whose value ends inside
    its field, [property_get] always returns: -1 with its buffer untouched
    when the key has [PROP_NAME_MAX] characters or more; 0 with its buffer
    untouched at the total miss without a default (the exchange failed,
    neither static source has the key, no default was given), and only
    there; in every other case the length of the string it leaves in the
    buffer, which is shorter than [PROP_VALUE_MAX] when it comes from the
    socket path. *)
Theorem property_get_return_value (key value : string)
    (default_value : option string) (w : world) :
  Forall (fun o => (strlen (msg_value (envelope o)) < PROP_VALUE_MAX)%nat)
         (leading_replies (os_recv w)) ->
  exists r buf,
    fst (fst (property_get (Some key) value default_value w)) = Ok (r, buf) /\
    (((PROP_NAME_MAX <= strlen key)%nat /\ r = -1 /\ buf = value) \/
     ((strlen key < PROP_NAME_MAX)%nat /\
      (default_value = None /\
       fst (fst (fst (send_prop_msg (mk_msg PROP_MSG_GETPROP key "") None 0 w))) <> 0 /\
       build_prop_lookup key (build_prop w) = None /\
       cmdline_lookup key (proc_cmdline w) = None) /\
      r = 0 /\ buf = value) \/
     ((strlen key < PROP_NAME_MAX)%nat /\
      ~ (default_value = None /\
         fst (fst (fst (send_prop_msg (mk_msg PROP_MSG_GETPROP key "") None 0 w))) <> 0 /\
         build_prop_lookup key (build_prop w) = None /\
         cmdline_lookup key (proc_cmdline w) = None) /\
      r = Z.of_nat (strlen buf) /\
      (fst (fst (fst (property_get_socket (Some key) value default_value w))) = 0 ->
       (strlen buf < PROP_VALUE_MAX)%nat))).
Proof.
  intros Terminated.
  destruct (Nat.leb PROP_NAME_MAX (strlen key)) eqn:K.
  { exists (-1), value. unfold property_get. rewrite K. apply Nat.leb_le in K.
    split; [reflexivity|]. left. auto. }
  apply Nat.leb_gt in K.
  destruct (send_prop_msg (mk_msg PROP_MSG_GETPROP key "") None 0 w)
    as [[[err m] w1] ev1] eqn:E.
  pose proof (property_get_socket_cases key value default_value _ _ _ _ _ K E) as S.
  pose proof (exchange_replies _ _ _ _ _ _ _ _ E) as (B & C & G).
  pose proof (send_prop_msg_cases _ _ _ _ _ _ _ _ E) as (_ & _ & R & Cases).
  cbn [fst].
  assert (Live : err = 0 ->
                 (strlen (msg_value m) < PROP_VALUE_MAX)%nat).
  { intros ->.
    destruct Cases as [(_ & Z & _)|(F & _ & n & r & L & Ne & _ & Iff)];
      [discriminate Z|].
    destruct (G F) as (_ & N & M). specialize (M eq_refl).
    destruct (observed_shape _ _ _ L Ne) as (Ob & _).
    destruct (proj1 Iff eq_refl) as (_ & [P|P]); [|discriminate P].
    rewrite Forall_forall in Terminated.
    destruct (leading_replies (os_recv w)) as [|o l] eqn:Lr;
      [rewrite <- Ob, N in P; cbn in P; lia|].
    assert (I : forall d o', In (last (o' :: l) d) (o' :: l))
      by (clear; induction l as [|b l IH]; intros d o';
          [left; reflexivity|right; exact (IH d b)]).
    assert (Q : forall d d' o',
               last (map envelope (o' :: l)) d' = envelope (last (o' :: l) d))
      by (clear; induction l as [|b l IH]; intros d d' o';
          [reflexivity|exact (IH d d' b)]).
    rewrite M, (Q o _ o). exact (Terminated _ (I o o)). }
  destruct (err <? 0) eqn:Neg.
  - (* the exchange failed *)
    assert (Er : err = -1) by (apply Z.ltb_lt in Neg; destruct R; lia).
    subst err.
    destruct (property_get_after_socket _ _ _ _ _ _ _ _ K S) as (ev2 & P & _).
    rewrite P, S. cbn [fst Z.eqb]. unfold resolve_static. rewrite B, C.
    destruct (build_prop_lookup key (build_prop w)) as [v|] eqn:Bl.
    { exists (Z.of_nat (strlen v)), v. split; [reflexivity|]. right. right.
      split; [exact K|]. split; [intros (_ & _ & H & _); discriminate H|].
      split; [reflexivity|]. intros H. discriminate H. }
    destruct (cmdline_lookup key (proc_cmdline w)) as [v|] eqn:Cl.
    { exists (Z.of_nat (strlen v)), v. split; [reflexivity|]. right. right.
      split; [exact K|]. split; [intros (_ & _ & _ & H); discriminate H|].
      split; [reflexivity|]. intros H. discriminate H. }
    destruct default_value as [d|].
    { exists (Z.of_nat (strlen d)), d. split; [reflexivity|]. right. right.
      split; [exact K|]. split; [intros (H & _); discriminate H|].
      split; [reflexivity|]. intros H. discriminate H. }
    exists 0, value. split; [reflexivity|]. right. left.
    split; [exact K|]. split; [|split; reflexivity].
    split; [reflexivity|]. split; [discriminate|]. split; reflexivity.
  - (* the exchange succeeded *)
    assert (Er : err = 0) by (apply Z.ltb_ge in Neg; destruct R; lia).
    subst err. specialize (Live eq_refl).
    assert (NotMiss : ~ (default_value = None /\ 0 <> 0 /\
                         build_prop_lookup key (build_prop w) = None /\
                         cmdline_lookup key (proc_cmdline w) = None))
      by (intros (_ & H & _); apply H; reflexivity).
    destruct default_value as [d|];
      [destruct (Nat.eqb (strlen (msg_value m)) 0);
       [destruct (Nat.leb PROP_VALUE_MAX (strlen d)) eqn:Long|]|];
      destruct (property_get_after_socket _ _ _ _ _ _ _ _ K S) as (ev2 & P & _);
      rewrite P, S; cbn [fst Z.eqb].
    + unfold resolve_static. rewrite B, C.
      destruct (build_prop_lookup key (build_prop w)) as [v|];
        [|destruct (cmdline_lookup key (proc_cmdline w)) as [v|]];
        eexists _, _; (split; [reflexivity|]); right; right;
        (split; [exact K|]); (split; [exact NotMiss|]);
        (split; [reflexivity|]); intros H; discriminate H.
    + apply Nat.leb_gt in Long. rewrite (strncpy_fits _ _ Long).
      eexists _, _. split; [reflexivity|]. right. right.
      split; [exact K|]. split; [exact NotMiss|].
      split; [reflexivity|]. intros _. exact Long.
    + rewrite (strncpy_fits _ _ Live).
      eexists _, _. split; [reflexivity|]. right. right.
      split; [exact K|]. split; [exact NotMiss|].
      split; [reflexivity|]. intros _. exact Live.
    + rewrite (strncpy_fits _ _ Live).
      eexists _, _. split; [reflexivity|]. right. right.
      split; [exact K|]. split; [exact NotMiss|].
      split; [reflexivity|]. intros _. exact Live.
Qed.
(** ** Further properties of the static resolvers *)

Lemma strchr_before (c : ascii) (s : string) : strchr (before c s) c = None.
Proof.
  induction s as [|a r IH]; cbn; [reflexivity|].
  destruct (Ascii.eqb a c) eqn:E; cbn; [reflexivity|]. rewrite E. exact IH.
Qed.

Lemma strchr_before_other (c d : ascii) (s : string) :
  strchr s d = None -> strchr (before c s) d = None.
Proof.
  induction s as [|a r IH]; cbn; [reflexivity|].
  destruct (Ascii.eqb a d) eqn:D; [discriminate|]. intros H.
  destruct (Ascii.eqb a c); cbn; [reflexivity|]. rewrite D. exact (IH H).
Qed.

Lemma strchr_rest_other (c d : ascii) (s rest : string) :
  strchr s c = Some rest -> strchr s d = None -> strchr rest d = None.
Proof.
  induction s as [|a r IH]; cbn; [discriminate|].
  destruct (Ascii.eqb a d); [discriminate|].
  destruct (Ascii.eqb a c); [intros [= ->] H; exact H|exact IH].
Qed.

Lemma strchr_skip_other (c d : ascii) (s : string) :
  strchr s d = None -> strchr (skip c s) d = None.
Proof.
  induction s as [|a r IH]; cbn; [reflexivity|].
  destruct (Ascii.eqb a d) eqn:D; [discriminate|]. intros H.
  destruct (Ascii.eqb a c); [exact (IH H)|]. cbn. rewrite D. exact H.
Qed.

Lemma strchr_take_other (n : nat) (d : ascii) (s : string) :
  strchr s d = None -> strchr (take n s) d = None.
Proof.
  revert n. induction s as [|a r IH]; intros [|n]; cbn; try reflexivity.
  destruct (Ascii.eqb a d); [discriminate|]. apply IH.
Qed.

Lemma strchr_advance_other (n : nat) (d : ascii) (s : string) :
  strchr s d = None -> strchr (advance n s) d = None.
Proof.
  revert n. induction s as [|a r IH]; intros [|n]; cbn; try reflexivity.
  - destruct (Ascii.eqb a d); [discriminate|]. intros H; exact H.
  - destruct (Ascii.eqb a d); [discriminate|]. apply IH.
Qed.

Lemma strchr_app (d : ascii) (a b : string) :
  strchr a d = None -> strchr (a ++ b)%string d = strchr b d.
Proof.
  induction a as [|x a IH]; cbn; [reflexivity|].
  destruct (Ascii.eqb x d); [discriminate|]. exact IH.
Qed.

Lemma strchr_chomp_other (d : ascii) (s : string) :
  strchr s d = None -> strchr (chomp s) d = None.
Proof.
  induction s as [|a r IH]; [reflexivity|].
  destruct r as [|b r'].
  - cbn. destruct (Ascii.eqb a LF); [reflexivity|]. cbn.
    destruct (Ascii.eqb a d); [discriminate|reflexivity].
  - change (chomp (String a (String b r'))) with (String a (chomp (String b r'))).
    cbn [strchr]. destruct (Ascii.eqb a d); [discriminate|]. exact IH.
Qed.

Lemma before_length (c : ascii) (s : string) :
  (String.length (before c s) <= String.length s)%nat.
Proof.
  induction s as [|a r IH]; cbn; [lia|]. destruct (Ascii.eqb a c); cbn; lia.
Qed.

Lemma skip_length (c : ascii) (s : string) :
  (String.length (skip c s) <= String.length s)%nat.
Proof.
  induction s as [|a r IH]; cbn; [lia|]. destruct (Ascii.eqb a c); cbn; lia.
Qed.

Lemma take_length (n : nat) (s : string) :
  (String.length (take n s) <= n)%nat /\
  (String.length (take n s) <= String.length s)%nat.
Proof.
  revert n. induction s as [|a r IH]; intros [|n]; cbn; try lia.
  specialize (IH n). lia.
Qed.

Lemma chomp_length (s : string) :
  (String.length (chomp s) <= String.length s)%nat.
Proof.
  induction s as [|a r IH]; [cbn; lia|].
  destruct r as [|b r'].
  - cbn. destruct (Ascii.eqb a LF); cbn; lia.
  - change (chomp (String a (String b r'))) with (String a (chomp (String b r'))).
    cbn [String.length] in *. lia.
Qed.

(** A piece between two delimiters holds no delimiter, is not longer than
    the text, and holds no character the text does not hold. *)
Lemma split_on_pieces (c : ascii) (s : string) :
  forall p,
    In p (split_on c s) ->
    strchr p c = None /\
    (String.length p <= String.length s)%nat /\
    forall d, strchr s d = None -> strchr p d = None.
Proof.
  induction s as [|a r IH]; intros p; cbn [split_on].
  - intros [<-|[]]. repeat split; auto.
  - destruct (Ascii.eqb a c) eqn:E.
    + intros [<-|I]; [repeat split; cbn; auto; lia|].
      destruct (IH p I) as (H1 & H2 & H3). split; [exact H1|].
      split; [cbn; lia|]. intros d. cbn.
      destruct (Ascii.eqb a d); [discriminate|]. apply H3.
    + destruct (split_on c r) as [|t ts] eqn:S.
      * intros [<-|[]]. cbn. rewrite E. split; [reflexivity|]. split; [lia|].
        intros d. destruct (Ascii.eqb a d); [discriminate|reflexivity].
      * intros [<-|I].
        -- destruct (IH t (or_introl eq_refl)) as (H1 & H2 & H3).
           cbn. rewrite E. split; [exact H1|]. split; [lia|].
           intros d. destruct (Ascii.eqb a d); [discriminate|]. apply H3.
        -- destruct (IH p (or_intror I)) as (H1 & H2 & H3).
           split; [exact H1|]. split; [cbn; lia|]. intros d. cbn.
           destruct (Ascii.eqb a d); [discriminate|]. apply H3.
Qed.

(** What [strtok] returns: a token that is not empty and holds no
    delimiter, and a position to resume from that lies behind it. *)
Lemma strtok_token (c : ascii) (p t saved : string) :
  strtok c p = Some (t, saved) ->
  t <> "" /\ strchr t c = None /\
  (String.length t + String.length saved <= String.length p)%nat /\
  (saved <> "" -> (String.length t + 1 + String.length saved <= String.length p)%nat) /\
  forall d, strchr p d = None -> strchr t d = None /\ strchr saved d = None.
Proof.
  unfold strtok. pose proof (skip_length c p) as L.
  pose proof (fun d => strchr_skip_other c d p) as O.
  assert (Hd : match skip c p with
               | EmptyString => True
               | String a _ => Ascii.eqb a c = false
               end).
  { clear. induction p as [|a r IH]; cbn; [exact I|].
    destruct (Ascii.eqb a c) eqn:E; [exact IH|exact E]. }
  destruct (skip c p) as [|a r]; [discriminate|].
  remember (String a r) as q eqn:Q.
  intros [= <- <-]. split.
  { rewrite Q. cbn. rewrite Hd. discriminate. }
  split; [apply strchr_before|].
  pose proof (before_length c q) as B.
  destruct (strchr q c) as [rest|] eqn:R.
  - pose proof (strchr_length _ _ _ R) as Len.
    split; [lia|]. split; [intros _; lia|].
    intros d D. split.
    + apply strchr_before_other. exact (O d D).
    + exact (strchr_rest_other _ _ _ _ R (O d D)).
  - split; [cbn [String.length] in *; lia|]. split; [intros N; destruct (N eq_refl)|].
    intros d D. split; [|reflexivity].
    apply strchr_before_other. exact (O d D).
Qed.

(** An entry of the build-properties file: key and value are not empty,
    hold none of ['='], CR, LF and NUL, and fit the buffer with the ['=']
    between them. *)
Lemma line_entry_shape (buf k v : string) :
  line_entry buf = Some (k, v) ->
  k <> "" /\ v <> "" /\
  (forall c, In c [EQUALS; CR; LF; NUL] -> strchr k c = None /\ strchr v c = None) /\
  (String.length k + 1 + String.length v <= String.length buf)%nat.
Proof.
  rewrite line_entry_strtok.
  set (line := before LF (before CR (cstr buf))).
  assert (Cut : forall c, In c [CR; LF; NUL] -> strchr line c = None).
  { intros c [<-|[<-|[<-|[]]]]; unfold line, cstr.
    - apply strchr_before_other, strchr_before.
    - apply strchr_before.
    - do 2 apply strchr_before_other. apply strchr_before. }
  assert (Len : (String.length line <= String.length buf)%nat).
  { unfold line, cstr.
    pose proof (before_length LF (before CR (before NUL buf))).
    pose proof (before_length CR (before NUL buf)).
    pose proof (before_length NUL buf). lia. }
  destruct (strtok EQUALS line) as [[mkey saved]|] eqn:T1; [|discriminate].
  destruct (strtok EQUALS saved) as [[value rest]|] eqn:T2; [|discriminate].
  intros [= <- <-].
  destruct (strtok_token _ _ _ _ T1) as (K1 & K2 & _ & K4 & K5).
  destruct (strtok_token _ _ _ _ T2) as (V1 & V2 & V3 & _ & V5).
  assert (NE : saved <> "") by (intros ->; discriminate T2).
  specialize (K4 NE).
  split; [exact K1|]. split; [exact V1|]. split; [|lia].
  intros c [<-|I]; [split; assumption|].
  destruct (K5 c (Cut c I)) as (A & B). split; [exact A|].
  exact (proj1 (V5 c B)).
Qed.

Lemma first_match_some {A B : Type} (f : A -> option B) (l : list A) (b : B) :
  first_match f l = Some b -> exists a, In a l /\ f a = Some b.
Proof.
  induction l as [|a l IH]; cbn; [discriminate|].
  destruct (f a) as [b'|] eqn:E.
  - intros [= <-]. exists a. auto.
  - intros H. destruct (IH H) as (a' & I & F). exists a'. auto.
Qed.

Lemma value_for_some (key : string) (entry : option (string * string)) (v : string) :
  value_for key entry = Some v -> entry = Some (key, v).
Proof.
  destruct entry as [[k v']|]; cbn; [|discriminate].
  destruct (String.eqb k key) eqn:E; [|discriminate].
  apply String.eqb_eq in E. intros [= ->]. subst k. reflexivity.
Qed.

Lemma fgets_from_length (room : nat) (f : string) :
  (String.length (fst (fgets_from room f)) <= room)%nat.
Proof.
  revert f. induction room as [|n IH]; intros [|a r]; cbn; try lia.
  destruct (Ascii.eqb a LF); cbn; [lia|].
  specialize (IH r). destruct (fgets_from n r). cbn in *. lia.
Qed.

Lemma fgets_lines_step (f : string) :
  fgets_lines f =
  match fgets 1024 f with
  | Some (buf, f') => buf :: fgets_lines f'
  | None => []
  end.
Proof.
  funelim (fgets_lines f); rewrite e; reflexivity.
Qed.

Lemma fgets_bound (f buf f' : string) :
  fgets 1024 f = Some (buf, f') -> (String.length buf <= 1023)%nat.
Proof.
  destruct f as [|a r]; [discriminate|]. unfold fgets.
  pose proof (fgets_from_length (1024 - 1) (String a r)) as L.
  destruct (fgets_from (1024 - 1) (String a r)) as [b0 r0].
  intros [= <- _]. exact L.
Qed.

Lemma fgets_lines_bound (f : string) :
  forall buf, In buf (fgets_lines f) -> (String.length buf <= 1023)%nat.
Proof.
  funelim (fgets_lines f); intros b.
  - intros [<-|I]; [exact (fgets_bound _ _ _ e)|exact (H _ I)].
  - intros [].
Qed.

(** X10.  A value [find_key] returns is never empty and holds no ['='], CR,
    LF or NUL; the same goes for the key it was found under, so a key that
    is empty or holds one of these is never found; and key and value
    together have 1022 characters at most, the line buffer being the only
    bound on the value. *)
Theorem find_key_value_shape (key : string) (w : world) (v : string) :
  fst (fst (find_key (Some key) w)) = Ok (Some v) ->
  key <> "" /\ v <> "" /\
  (forall c, In c [EQUALS; CR; LF; NUL] -> strchr key c = None /\ strchr v c = None) /\
  (strlen key + strlen v <= 1022)%nat.
Proof.
  rewrite find_key_run. cbn [fst]. intros [= H].
  unfold build_prop_lookup in H. destruct (build_prop w) as [| |bytes]; try discriminate.
  apply first_match_some in H. destruct H as (buf & I & H).
  apply value_for_some in H. apply line_entry_shape in H.
  apply fgets_lines_bound in I. destruct H as (K & V & C & L).
  split; [exact K|]. split; [exact V|]. split; [exact C|]. unfold strlen. lia.
Qed.

Lemma prefix_take_app (n : nat) (a b : string) :
  String.prefix (take n a) (take n (a ++ b)%string) = true.
Proof.
  revert n. induction a as [|x a IH]; intros [|n]; cbn; try reflexivity.
  - destruct b; reflexivity.
  - destruct (Ascii.ascii_dec x x) as [_|N]; [apply IH|destruct (N eq_refl)].
Qed.

(** An entry of the kernel command line: the key is ro. and what follows
    androidboot. in the name, cut to [PROP_NAME_MAX - 1] characters; key and
    value hold neither a space nor a NUL, and the key holds no ['=']. *)
Lemma boot_entry_shape (tok k v : string) :
  boot_entry tok = Some (k, v) ->
  strchr tok SP = None -> strchr tok NUL = None ->
  String.prefix (take (PROP_NAME_MAX - 1) "ro.") k = true /\
  (String.length k <= PROP_NAME_MAX - 1)%nat /\
  strchr k EQUALS = None /\
  (forall c, In c [SP; NUL] -> strchr k c = None /\ strchr v c = None) /\
  (13 + String.length v <= String.length tok)%nat.
Proof.
  unfold boot_entry, boot_property, name_value.
  destruct (strchr tok EQUALS) as [v'|] eqn:V; [|discriminate].
  destruct (before EQUALS tok) as [|b n] eqn:B; [discriminate|].
  remember (String b n) as name eqn:Nm.
  destruct (starts_with "androidboot." name) eqn:P; [|discriminate].
  remember (advance 12 name) as tail eqn:Tl.
  intros E S N.
  assert (E' : take (PROP_NAME_MAX - 1) ("ro." ++ tail) = k /\ v' = v)
    by (injection E as E1 E2; split; [exact E1|exact E2]).
  clear E. destruct E' as (<- & <-).
  pose proof (strchr_length _ _ _ V) as L. rewrite B in L.
  pose proof (prefix_length _ _ P) as L'. cbn [String.length] in L'.
  split; [apply prefix_take_app|].
  split; [apply take_length|].
  assert (Name : forall d, strchr "ro." d = None -> strchr tok d = None \/ d = EQUALS ->
                           strchr (take (PROP_NAME_MAX - 1) ("ro." ++ tail)) d = None).
  { intros d R D. apply strchr_take_other. rewrite (strchr_app _ _ _ R).
    rewrite Tl. apply strchr_advance_other. rewrite <- B. destruct D as [D| ->].
    - apply strchr_before_other. exact D.
    - apply strchr_before. }
  split; [apply Name; [reflexivity|right; reflexivity]|].
  split; [|lia].
  intros c [<-|[<-|[]]]; split.
  - apply Name; [reflexivity|left; exact S].
  - exact (strchr_rest_other _ _ _ _ V S).
  - apply Name; [reflexivity|left; exact N].
  - exact (strchr_rest_other _ _ _ _ V N).
Qed.

(** X11.  A key [find_key_kernel_cmdline] resolves begins with ro. (as far
    as [PROP_NAME_MAX - 1] characters go), has [PROP_NAME_MAX - 1]
    characters at most and holds no ['=']; neither the key nor the value
    holds a space or a NUL; the value, which may be empty and may hold
    ['='], has 1010 characters at most. *)
Theorem find_key_kernel_cmdline_value_shape (key : string) (w : world) (v : string) :
  fst (fst (find_key_kernel_cmdline (Some key) w)) = Ok (Some v) ->
  String.prefix (take (PROP_NAME_MAX - 1) "ro.") key = true /\
  (strlen key <= PROP_NAME_MAX - 1)%nat /\
  strchr key EQUALS = None /\
  (forall c, In c [SP; NUL] -> strchr key c = None /\ strchr v c = None) /\
  (strlen v <= 1010)%nat.
Proof.
  rewrite find_key_kernel_cmdline_run. cbn [fst]. intros [= H].
  unfold cmdline_lookup in H. destruct (proc_cmdline w) as [| |bytes]; try discriminate.
  apply first_match_some in H. destruct H as (tok & I & H).
  apply value_for_some in H.
  destruct (split_on_pieces _ _ _ I) as (S & L & O).
  assert (N : strchr tok NUL = None) by (apply O; unfold cstr; apply strchr_before).
  destruct (boot_entry_shape _ _ _ H S N) as (H1 & H2 & H3 & H4 & H5).
  split; [exact H1|]. split; [exact H2|]. split; [exact H3|]. split; [exact H4|].
  unfold cstr in L. pose proof (before_length NUL (chomp (take 1023 bytes))).
  pose proof (chomp_length (take 1023 bytes)).
  pose proof (take_length 1023 bytes). unfold strlen. lia.
Qed.
(** ** Entries at the head of the static sources *)

Lemma string_app_assoc (a b c : string) :
  ((a ++ b) ++ c)%string = (a ++ (b ++ c))%string.
Proof. induction a as [|x a IH]; cbn; [reflexivity|]. rewrite IH. reflexivity. Qed.

Lemma string_app_nil (a : string) : (a ++ "")%string = a.
Proof. induction a as [|x a IH]; cbn; [reflexivity|]. rewrite IH. reflexivity. Qed.

Lemma string_app_length (a b : string) :
  String.length (a ++ b)%string = (String.length a + String.length b)%nat.
Proof. induction a as [|x a IH]; cbn; [reflexivity|]. rewrite IH. reflexivity. Qed.

Lemma before_app (c : ascii) (a b : string) :
  strchr a c = None -> before c (a ++ b)%string = (a ++ before c b)%string.
Proof.
  induction a as [|x a IH]; cbn; [reflexivity|].
  destruct (Ascii.eqb x c); [discriminate|]. intros H. rewrite (IH H). reflexivity.
Qed.

Lemma before_none (c : ascii) (s : string) : strchr s c = None -> before c s = s.
Proof.
  intros H. rewrite <- (string_app_nil s) at 1. rewrite (before_app _ _ _ H).
  apply string_app_nil.
Qed.

Lemma strchr_app_hit (c : ascii) (a b : string) :
  strchr a c = None -> strchr (a ++ String c b)%string c = Some b.
Proof.
  intros H. rewrite (strchr_app _ _ _ H). cbn. rewrite Ascii.eqb_refl. reflexivity.
Qed.

Lemma split_on_app (c : ascii) (a b : string) :
  strchr a c = None -> split_on c (a ++ String c b)%string = a :: split_on c b.
Proof.
  intros H. rewrite split_on_unfold, (strchr_app_hit _ _ _ H), (before_app _ _ _ H).
  cbn [before]. rewrite Ascii.eqb_refl, string_app_nil. reflexivity.
Qed.

Lemma split_on_single (c : ascii) (s : string) :
  strchr s c = None -> split_on c s = [s].
Proof.
  intros H. rewrite split_on_unfold, H, (before_none _ _ H). reflexivity.
Qed.

Lemma fgets_from_line (a rest : string) :
  forall n,
    strchr a LF = None -> (String.length a < n)%nat ->
    fgets_from n (a ++ String LF rest)%string = ((a ++ LINE_END)%string, rest).
Proof.
  induction a as [|x a IH]; intros [|n]; cbn [String.length]; try lia; intros H L.
  - reflexivity.
  - cbn in H |- *. destruct (Ascii.eqb x LF); [discriminate|].
    rewrite (IH n H) by lia. reflexivity.
Qed.

Lemma prefix_app (a b : string) : String.prefix a (a ++ b)%string = true.
Proof.
  induction a as [|x a IH]; cbn; [destruct b; reflexivity|].
  destruct (Ascii.ascii_dec x x) as [_|N]; [exact IH|destruct (N eq_refl)].
Qed.

Lemma chomp_app (a : string) (c : ascii) (r : string) :
  chomp (a ++ String c r)%string = (a ++ chomp (String c r))%string.
Proof.
  induction a as [|x a IH]; [reflexivity|].
  cbn [append]. rewrite <- IH.
  destruct (a ++ String c r)%string as [|y t] eqn:E; [|reflexivity].
  destruct a; discriminate E.
Qed.

(** The buffer the first [fgets] delivers for a file that begins with the
    line k=v, and the entry it holds. *)
Lemma entry_line (k v eol rest : string) :
  k <> "" -> v <> "" ->
  (forall c, In c [EQUALS; CR; LF; NUL] -> strchr k c = None /\ strchr v c = None) ->
  eol = LINE_END \/ eol = CRLF ->
  (strlen k + strlen v + strlen eol < 1023)%nat ->
  fgets 1024 (k ++ String EQUALS v ++ eol ++ rest)%string =
    Some ((k ++ String EQUALS v ++ eol)%string, rest) /\
  line_entry (k ++ String EQUALS v ++ eol)%string = Some (k, v).
Proof.
  intros K V C E L.
  assert (Cut : forall c tail, In c [CR; LF; NUL] ->
                  strchr (k ++ String EQUALS v ++ tail)%string c = strchr tail c /\
                  before c (k ++ String EQUALS v ++ tail)%string =
                    (k ++ String EQUALS v ++ before c tail)%string).
  { intros c tail I.
    assert (I' : In c [EQUALS; CR; LF; NUL]) by (right; exact I).
    destruct (C c I') as (Ck & Cv).
    assert (Ne : Ascii.eqb EQUALS c = false)
      by (destruct I as [<-|[<-|[<-|[]]]]; reflexivity).
    split.
    - rewrite (strchr_app _ _ _ Ck). cbn [append strchr]. rewrite Ne.
      apply strchr_app. exact Cv.
    - rewrite (before_app _ _ _ Ck). cbn [append before]. rewrite Ne.
      rewrite (before_app _ _ _ Cv). reflexivity. }
  split.
  - assert (S : exists pre, eol = (pre ++ LINE_END)%string /\ strchr pre LF = None /\
                            strlen eol = S (strlen pre)).
    { destruct E as [-> | ->]; [exists ""|exists (String CR "")]; repeat split. }
    destruct S as (pre & -> & P & Len).
    replace (k ++ String EQUALS v ++ (pre ++ LINE_END) ++ rest)%string
      with ((k ++ String EQUALS v ++ pre) ++ String LF rest)%string.
    2:{ unfold LINE_END. rewrite !string_app_assoc. reflexivity. }
    replace (k ++ String EQUALS v ++ pre ++ LINE_END)%string
      with ((k ++ String EQUALS v ++ pre) ++ LINE_END)%string.
    2:{ unfold LINE_END. rewrite !string_app_assoc. reflexivity. }
    assert (N : strchr (k ++ String EQUALS v ++ pre)%string LF = None).
    { rewrite (proj1 (Cut LF pre ltac:(cbn; auto))). exact P. }
    assert (Sz : (String.length (k ++ String EQUALS v ++ pre)%string < 1023)%nat).
    { rewrite string_app_length. cbn [append String.length].
      rewrite string_app_length. unfold strlen in *. lia. }
    pose proof (fgets_from_line _ rest 1023 N Sz) as F.
    unfold fgets. destruct ((k ++ String EQUALS v ++ pre) ++ String LF rest)%string eqn:W.
    + destruct k; [destruct (K eq_refl)|discriminate W].
    + exact (f_equal Some F).
  - unfold line_entry, cstr.
    assert (Ln : before LF (before CR (before NUL (k ++ String EQUALS v ++ eol)%string)) =
                 (k ++ String EQUALS v)%string).
    { rewrite (proj2 (Cut NUL eol ltac:(cbn; auto))).
      rewrite (proj2 (Cut CR _ ltac:(cbn; auto))).
      rewrite (proj2 (Cut LF _ ltac:(cbn; auto))).
      destruct E as [-> | ->]; cbn [before LINE_END CRLF Ascii.eqb];
        cbn; rewrite string_app_nil; reflexivity. }
    rewrite Ln. unfold fields.
    rewrite (split_on_app _ _ _ (proj1 (C EQUALS ltac:(cbn; auto)))).
    rewrite (split_on_single _ _ (proj2 (C EQUALS ltac:(cbn; auto)))).
    cbn [filter].
    replace (String.eqb k "") with false
      by (symmetry; apply String.eqb_neq; exact K).
    replace (String.eqb v "") with false
      by (symmetry; apply String.eqb_neq; exact V).
    reflexivity.
Qed.

(** X12.  A build-properties file that begins with a line k=v, ended by LF
    or CR LF, with k and v not empty and free of ['='], CR, LF and NUL, and
    short enough for the line buffer: [find_key] answers v for the key k,
    and for any other key what it answers on the rest of the file. *)
Theorem find_key_first_line (k v eol rest key : string) (w w' : world) :
  k <> "" -> v <> "" ->
  (forall c, In c [EQUALS; CR; LF; NUL] -> strchr k c = None /\ strchr v c = None) ->
  eol = LINE_END \/ eol = CRLF ->
  (strlen k + strlen v + strlen eol < 1023)%nat ->
  build_prop w = Contents (k ++ String EQUALS v ++ eol ++ rest) ->
  build_prop w' = Contents rest ->
  fst (fst (find_key (Some key) w)) =
    if String.eqb k key then Ok (Some v) else fst (fst (find_key (Some key) w')).
Proof.
  intros K V C E L B B'.
  destruct (entry_line k v eol rest K V C E L) as (F & Le).
  rewrite !find_key_run. cbn [fst]. rewrite B, B'. unfold build_prop_lookup.
  rewrite (fgets_lines_step (k ++ String EQUALS v ++ eol ++ rest)), F.
  cbn [first_match]. rewrite Le. cbn [value_for].
  destruct (String.eqb k key); reflexivity.
Qed.

(** The first token of a command line that begins with a boot parameter,
    and the entry it holds. *)
Lemma boot_token (n v rest : string) :
  (forall c, In c [SP; EQUALS; NUL] -> strchr n c = None) ->
  (forall c, In c [SP; NUL] -> strchr v c = None) ->
  split_on SP (cstr (chomp ("androidboot." ++ n ++ String EQUALS v ++ String SP rest))) =
    ("androidboot." ++ n ++ String EQUALS v)%string :: split_on SP (cstr (chomp rest)) /\
  boot_entry ("androidboot." ++ n ++ String EQUALS v) =
    Some (take (PROP_NAME_MAX - 1) ("ro." ++ n), v).
Proof.
  intros N V.
  set (name := ("androidboot." ++ n)%string).
  assert (Nm : forall c, In c [SP; EQUALS; NUL] -> strchr name c = None).
  { intros c I. unfold name. rewrite strchr_app; [exact (N c I)|].
    destruct I as [<-|[<-|[<-|[]]]]; reflexivity. }
  assert (Tk : forall c, In c [SP; NUL] -> strchr (name ++ String EQUALS v)%string c = None).
  { intros c I. rewrite strchr_app by (apply Nm; cbn in *; intuition).
    cbn [strchr]. replace (Ascii.eqb EQUALS c) with false
      by (destruct I as [<-|[<-|[]]]; reflexivity).
    exact (V c I). }
  replace ("androidboot." ++ n ++ String EQUALS v ++ String SP rest)%string
    with ((name ++ String EQUALS v) ++ String SP rest)%string
    by (unfold name; rewrite !string_app_assoc; reflexivity).
  replace ("androidboot." ++ n ++ String EQUALS v)%string
    with (name ++ String EQUALS v)%string
    by (unfold name; rewrite !string_app_assoc; reflexivity).
  split.
  - rewrite chomp_app.
    replace (chomp (String SP rest)) with (String SP (chomp rest))
      by (destruct rest; reflexivity).
    unfold cstr. rewrite (before_app _ _ _ (Tk NUL ltac:(cbn; auto))).
    cbn [before]. change (Ascii.eqb SP NUL) with false. cbv iota.
    apply split_on_app. apply Tk. cbn. auto.
  - unfold boot_entry, boot_property, name_value.
    rewrite (strchr_app_hit _ _ _ (Nm EQUALS ltac:(cbn; auto))).
    rewrite (before_app _ _ _ (Nm EQUALS ltac:(cbn; auto))).
    cbn [before]. rewrite Ascii.eqb_refl, string_app_nil.
    assert (P : starts_with "androidboot." name = true) by apply prefix_app.
    assert (A : advance 12 name = n) by reflexivity.
    clearbody name. destruct name as [|x t]; [discriminate P|].
    rewrite P, A. reflexivity.
Qed.

(** X13.  A kernel command line of 1023 bytes at most that begins with a
    token androidboot.n=v followed by a space, n free of space, ['='] and
    NUL and v free of space and NUL: [find_key_kernel_cmdline] answers v for
    the key made of ro. and n cut to [PROP_NAME_MAX - 1] characters, and for
    any other key what it answers on the rest of the line.  n and v may be
    empty. *)
Theorem find_key_kernel_cmdline_first_token (n v rest key : string) (w w' : world) :
  (forall c, In c [SP; EQUALS; NUL] -> strchr n c = None) ->
  (forall c, In c [SP; NUL] -> strchr v c = None) ->
  (strlen n + strlen v + strlen rest + 14 <= 1023)%nat ->
  proc_cmdline w = Contents ("androidboot." ++ n ++ String EQUALS v ++ String SP rest) ->
  proc_cmdline w' = Contents rest ->
  fst (fst (find_key_kernel_cmdline (Some key) w)) =
    if String.eqb (take (PROP_NAME_MAX - 1) ("ro." ++ n)) key then Ok (Some v)
    else fst (fst (find_key_kernel_cmdline (Some key) w')).
Proof.
  intros N V L C C'.
  destruct (boot_token n v rest N V) as (T & B).
  rewrite !find_key_kernel_cmdline_run. cbn [fst]. rewrite C, C'. unfold cmdline_lookup.
  rewrite (take_all 1023 rest) by (unfold strlen in L; lia).
  rewrite take_all.
  2:{ rewrite !string_app_length. cbn [String.length]. unfold strlen in L. lia. }
  rewrite T. cbn [first_match]. rewrite B. cbn [value_for].
  destruct (String.eqb _ key); reflexivity.
Qed.

(** ** A null key *)

Lemma find_key_loop_null (f : string) :
  find_key_loop None f =
  if existsb (fun buf => match line_entry buf with Some _ => true | None => false end)
             (fgets_lines f)
  then Segfault else Ok None.
Proof.
  funelim (fgets_lines f); rewrite find_key_loop_equation_1, (inspect_eq _ _ e).
  - rewrite find_key_loop_clause_1_equation_1. cbv zeta.
    rewrite !cut_at. cbn [existsb]. rewrite line_entry_strtok.
    destruct (strtok EQUALS (before LF (before CR (cstr buf)))) as [[mkey saved]|];
      [|apply H].
    destruct (strtok EQUALS saved) as [[v rest]|]; [reflexivity|apply H].
  - rewrite find_key_loop_clause_1_equation_2. reflexivity.
Qed.

Lemma cmdline_loop_null (ptr : option string) :
  cmdline_loop None ptr =
  if existsb (fun tok => match boot_entry tok with Some _ => true | None => false end)
             (tokens_from ptr)
  then Segfault else Ok None.
Proof.
  remember (@None string) as k eqn:K.
  funelim (cmdline_loop k ptr); try reflexivity.
  clear Heqcall.
  assert (IH : cmdline_loop None (strchr (String a r) SP) =
               if existsb (fun tok => match boot_entry tok with
                                      | Some _ => true
                                      | None => false
                                      end)
                          (tokens_from (strchr (String a r) SP))
               then Segfault else Ok None)
    by (apply H1; reflexivity).
  clear H H0 H1.
  unfold tokens_from. rewrite split_on_unfold.
  fold (tokens_from (strchr (String a r) SP)).
  cbn [existsb]. unfold boot_entry at 1, boot_property, name_value.
  set (tok := before SP (String a r)).
  destruct (strchr tok EQUALS) as [v|] eqn:V; [|exact IH].
  pose proof (strchr_length _ _ _ V) as L.
  destruct (Nat.eqb (strlen tok) 0) eqn:Z; [apply Nat.eqb_eq in Z; unfold strlen in Z; lia|].
  destruct (starts_with "androidboot." (before EQUALS tok)) eqn:P.
  - pose proof (prefix_length _ _ P) as L'. cbn [String.length] in L'.
    replace (Nat.ltb 12 (strlen tok)) with true
      by (symmetry; apply Nat.ltb_lt; unfold strlen; lia).
    cbn [andb].
    destruct (before EQUALS tok) as [|b n] eqn:B; [discriminate P|].
    rewrite P. reflexivity.
  - cbn [andb]. destruct (before EQUALS tok) as [|b n]; [exact IH|].
    rewrite P. exact IH.
Qed.

Lemma find_key_null_run (w : world) :
  exists evs,
    find_key None w = ((if has_entry (build_prop w) then Segfault else Ok None), w, evs) /\
    forallb static_io evs = true.
Proof.
  unfold find_key, has_entry. destruct (build_prop w) as [| |bytes].
  - eexists. split; reflexivity.
  - rewrite find_key_loop_null, fgets_lines_step. cbn [fgets existsb].
    eexists. split; reflexivity.
  - rewrite find_key_loop_null.
    destruct (existsb _ (fgets_lines bytes)); eexists; split; reflexivity.
Qed.

Lemma find_key_kernel_cmdline_null_run (w : world) :
  exists evs,
    find_key_kernel_cmdline None w =
      ((if has_boot_entry (proc_cmdline w) then Segfault else Ok None), w, evs) /\
    forallb static_io evs = true.
Proof.
  unfold find_key_kernel_cmdline, has_boot_entry. rewrite cmdline_loop_null.
  unfold tokens_from. destruct (proc_cmdline w) as [| |line].
  - eexists. split; reflexivity.
  - eexists. split; reflexivity.
  - rewrite read_cmdline_text. eexists. split; reflexivity.
Qed.

(** X14.  [property_get] with a null key and a default of [PROP_VALUE_MAX]
    characters or more goes to the static sources without an exchange, and
    there compares the null key: the call dereferences a null pointer
    exactly when the build-properties file holds an entry or the kernel
    command line holds a boot parameter, and returns the whole default
    otherwise. *)
Theorem null_key_crash_on_static_entry (value d : string) (w : world) :
  (PROP_VALUE_MAX <= strlen d)%nat ->
  fst (fst (property_get None value (Some d) w)) =
    (if has_entry (build_prop w) || has_boot_entry (proc_cmdline w) then Segfault
     else Ok (Z.of_nat (strlen d), d)) /\
  forallb static_io (snd (property_get None value (Some d) w)) = true.
Proof.
  intros Hd.
  assert (S : property_get_socket None value (Some d) w = (-1, value, w, [])).
  { unfold property_get_socket, zeroed. cbn [msg_value].
    change (Nat.eqb (strlen "") 0) with true. cbv iota.
    replace (Nat.leb PROP_VALUE_MAX (strlen d)) with true
      by (symmetry; apply Nat.leb_le; exact Hd).
    reflexivity. }
  destruct (find_key_null_run w) as (ev1 & F & S1).
  destruct (find_key_kernel_cmdline_null_run w) as (ev2 & G & S2).
  unfold property_get, bind. rewrite S. cbv beta iota zeta.
  change (-1 =? 0) with false. cbv beta iota zeta.
  rewrite F. cbv beta iota zeta. destruct (has_entry (build_prop w)); cbn [orb].
  - unfold ret. cbv beta iota zeta. cbn [fst snd].
    rewrite ?app_nil_r, ?forallb_app, ?S1. split; reflexivity.
  - rewrite G. cbv beta iota zeta. destruct (has_boot_entry (proc_cmdline w)); cbn [orb].
    + unfold ret. cbv beta iota zeta. cbn [fst snd].
      rewrite ?app_nil_r, ?forallb_app, ?S1, ?S2. split; reflexivity.
    + unfold ret. cbv beta iota zeta. cbn [fst snd].
      rewrite ?app_nil_r, ?forallb_app, ?S1, ?S2. split; reflexivity.
Qed.

(** ** Interrupted and incomplete sends *)

(** The loop around [send] does not depend on the errno it starts with. *)
Lemma retry_send_errno (fuel : nat) (s : Z) (msg : prop_msg_t) :
  forall sk cn sd rc bp pc e1 e2,
  exists r sd' e1' e2' evs,
    retry fuel (send s msg) (mk_world sk cn sd rc bp pc e1) =
      (r, mk_world sk cn sd' rc bp pc e1', evs) /\
    retry fuel (send s msg) (mk_world sk cn sd rc bp pc e2) =
      (r, mk_world sk cn sd' rc bp pc e2', evs).
Proof.
  induction fuel as [|n IH]; intros sk cn sd rc bp pc e1 e2;
    cbn [retry]; unfold bind, get_errno, ret;
    destruct (send s msg (mk_world sk cn sd rc bp pc e1)) as [[r1 w1] ev1] eqn:S1;
    destruct (send s msg (mk_world sk cn sd rc bp pc e2)) as [[r2 w2] ev2] eqn:S2;
    unfold send in S1, S2;
    cbn [os_send os_socket os_connect os_recv build_prop proc_cmdline errno] in S1, S2;
    destruct (next_outcome (mk_outcome (-1) EPIPE) sd) as [o rest];
    injection S1 as <- <- <-; injection S2 as <- <- <-;
    unfold errno_after; cbn [errno];
    destruct (ret_val o =? -1) eqn:A;
    try (apply Z.eqb_eq in A; rewrite A; change (-1 <? 0) with true; cbv iota);
    cbn [andb].
  - destruct (err o =? EINTR); do 5 eexists; split; reflexivity.
  - do 5 eexists; split; reflexivity.
  - destruct (err o =? EINTR).
    + destruct (IH sk cn rest rc bp pc (err o) (err o)) as (r & sd' & e1' & _ & evs & E & _).
      rewrite E. do 5 eexists; split; reflexivity.
    + do 5 eexists; split; reflexivity.
  - do 5 eexists; split; reflexivity.
Qed.

(** [k] interrupted sends are gone through, one attempt each. *)
Lemma retry_send_interrupted (s : Z) (msg : prop_msg_t) (k : nat) :
  forall fuel sk cn sd rc bp pc e,
  exists r sd' e1' e2' evs,
    retry (k + fuel) (send s msg)
          (mk_world sk cn (repeat interrupted k ++ sd) rc bp pc e) =
      (r, mk_world sk cn sd' rc bp pc e1', repeat (EvSend s msg (-1)) k ++ evs) /\
    retry fuel (send s msg) (mk_world sk cn sd rc bp pc e) =
      (r, mk_world sk cn sd' rc bp pc e2', evs).
Proof.
  induction k as [|k IH]; intros fuel sk cn sd rc bp pc e.
  - exact (retry_send_errno fuel s msg sk cn sd rc bp pc e e).
  - cbn [repeat app Nat.add retry]. unfold bind, get_errno.
    destruct (send s msg (mk_world sk cn (interrupted :: repeat interrupted k ++ sd)
                                   rc bp pc e)) as [[r1 w1] ev1] eqn:S1.
    unfold send in S1. cbn in S1. injection S1 as <- <- <-. cbn [errno].
    change ((-1 =? -1) && (EINTR =? EINTR)) with true. cbv iota.
    destruct (IH fuel sk cn sd rc bp pc EINTR) as (r & sd' & e1' & e2' & evs & E1 & E2).
    destruct (retry_send_errno fuel s msg sk cn sd rc bp pc EINTR e)
      as (r' & sd'' & e3 & e4 & evs' & F1 & F2).
    rewrite F1 in E2. injection E2 as -> -> _ ->.
    rewrite E1. exists r, sd', e1', e4, evs. split; [reflexivity|exact F2].
Qed.

(** X15.  An interrupted [send] is retried: when the socket is there and
    the connect succeeds, [k] sends that fail with EINTR in front of the
    others change neither the result nor the envelope of the exchange; they
    show as [k] more attempts to send on the same socket, after which the
    exchange goes on as it would without them. *)
Theorem interrupted_send_is_retried (msg : prop_msg_t) (propfn : option nat)
    (cookie : Z) (w : world) (k : nat) :
  0 <= os_socket w ->
  0 <= fst (fst (connect (os_socket w) w)) ->
  fst (fst (send_prop_msg msg propfn cookie
              (with_send (repeat interrupted k ++ os_send w) w))) =
    fst (fst (send_prop_msg msg propfn cookie w)) /\
  exists c tail,
    snd (send_prop_msg msg propfn cookie w) =
      EvSocket (os_socket w) :: EvConnect (os_socket w) c :: tail /\
    snd (send_prop_msg msg propfn cookie
           (with_send (repeat interrupted k ++ os_send w) w)) =
      EvSocket (os_socket w) :: EvConnect (os_socket w) c ::
        repeat (EvSend (os_socket w) msg (-1)) k ++ tail.
Proof.
  destruct w as [sk cn sd rc bp pc e]. unfold with_send.
  cbn [os_socket os_connect os_send os_recv build_prop proc_cmdline errno].
  intros Hs Hc.
  destruct cn as [|c0 cs]; [cbn in Hc; lia|].
  unfold connect in Hc. cbn in Hc.
  destruct (send_prop_msg msg propfn cookie (mk_world sk (c0 :: cs) sd rc bp pc e))
    as [[[res m] w'] evs] eqn:Run.
  destruct (send_prop_msg msg propfn cookie
              (mk_world sk (c0 :: cs) (repeat interrupted k ++ sd) rc bp pc e))
    as [[[resk mk] wk'] evsk] eqn:Runk.
  apply send_prop_msg_anatomy in Run. apply send_prop_msg_anatomy in Runk.
  cbv zeta in Run, Runk. cbn [os_socket] in Run, Runk.
  destruct Run as [(S & _)|(_ & c & w1 & C & Run)]; [lia|].
  destruct Runk as [(S & _)|(_ & ck & w1k & Ck & Runk)]; [lia|].
  unfold connect in C, Ck. cbn in C, Ck.
  injection C as <- <-. injection Ck as <- <-.
  destruct Run as [(S & _)|(_ & r & w2 & sends & R & Run)]; [lia|].
  destruct Runk as [(S & _)|(_ & rk & w2k & sendsk & Rk & Runk)]; [lia|].
  cbn [os_connect os_send] in R, Rk.
  replace (List.length cs + List.length (repeat interrupted k ++ sd))%nat
    with (k + (List.length cs + List.length sd))%nat in Rk
    by (rewrite length_app, repeat_length; lia).
  destruct (retry_send_interrupted sk msg k (List.length cs + List.length sd)%nat
              sk cs sd rc bp pc (errno_after c0 (mk_world sk (c0 :: cs) sd rc bp pc e)))
    as (r0 & sd' & e1' & e2' & evs0 & E1 & E2).
  unfold errno_after in *. cbn [errno] in *.
  rewrite E1 in Rk. rewrite E2 in R.
  injection R as <- <- <-. injection Rk as <- <- <-.
  cbn [fst snd]. 
  destruct Run as [(Ne & -> & -> & -> & _)|(Eq & x & rest & ev3 & L & _ & Run)];
    destruct Runk as [(Nek & -> & -> & -> & _)|(Eqk & xk & restk & ev3k & Lk & _ & Runk)];
    try contradiction.
  - split; [reflexivity|]. exists (ret_val c0), (evs0 ++ [EvClose sk]).
    split; [reflexivity|]. rewrite <- app_assoc. reflexivity.
  - cbn [os_recv] in L, Lk. rewrite L in Lk. injection Lk as <- <- <-.
    destruct x as [res' m'|r' m' p].
    + destruct Run as (-> & -> & ->). destruct Runk as (-> & -> & ->).
      split; [reflexivity|]. exists (ret_val c0), (evs0 ++ ev3).
      split; [reflexivity|]. rewrite <- app_assoc. reflexivity.
    + destruct Run as (-> & -> & ->). destruct Runk as (-> & -> & ->).
      split; [reflexivity|]. exists (ret_val c0), (evs0 ++ ev3 ++ [EvClose sk]).
      split; [reflexivity|]. rewrite <- app_assoc. reflexivity.
Qed.

(** X16.  A request that was not sent in full (no socket, no connection, or
    a [send] that returned another count) fails: the result is -1, nothing
    is received, the callback is not called, no reply of the service is
    consumed and the caller's envelope is as it was. *)
Theorem send_prop_msg_unsent (msg : prop_msg_t) (propfn : option nat) (cookie : Z)
    (w : world) (result : Z) (msg' : prop_msg_t) (w' : world) (evs : list event) :
  send_prop_msg msg propfn cookie w = (result, msg', w', evs) ->
  ~ full_request_sent evs ->
  result = -1 /\ msg' = msg /\ os_recv w' = os_recv w /\
  recv_results evs = [] /\ callbacks evs = [].
Proof.
  intros H NF.
  pose proof (send_prop_msg_cases _ _ _ _ _ _ _ _ H) as (_ & _ & _ & Cases).
  destruct Cases as [(_ & Res & Rv & Cb)|(F & _)]; [|destruct (NF F)].
  split; [exact Res|]. 
  assert (K : msg' = msg /\ os_recv w' = os_recv w);
    [|destruct K as (K1 & K2); repeat split; assumption].
  apply send_prop_msg_anatomy in H. cbv zeta in H.
  destruct H as [(_ & _ & _ & -> & ->)|(_ & c & w1 & C & H)]; [split; reflexivity|].
  apply connect_keeps in C. destruct C as (_ & _ & C & _).
  destruct H as [(_ & _ & _ & -> & ->)|(_ & r & w2 & sends & R & H)]; [split; auto|].
  pose proof (send_attempts _ _ _ _ _ _ _ R) as (Rc & _ & _ & _ & _ & Full).
  destruct H as [(_ & _ & _ & -> & ->)|(Eq & x & rest & ev3 & L & _ & H)].
  { split; [reflexivity|]. congruence. }
  exfalso. apply NF.
  assert (FS : full_request_sent sends) by (apply Full; exact Eq).
  destruct FS as (s' & m' & I). exists s', m'.
  destruct x as [res m|r0 m p]; destruct H as (-> & _);
    right; right; apply in_or_app; left; exact I.
Qed.

Lemma property_get_socket_exchange (key value : string) (default_value : option string)
    (w : world) (e : Z) (value' : string) (w1 : world) (ev1 : list event) :
  (strlen key < PROP_NAME_MAX)%nat ->
  property_get_socket (Some key) value default_value w = (e, value', w1, ev1) ->
  exists err m,
    send_prop_msg (mk_msg PROP_MSG_GETPROP key "") None 0 w = (err, m, w1, ev1).
Proof.
  intros Hk. unfold property_get_socket, zeroed. cbn [msg_cmd msg_value].
  rewrite (strncpy_fits _ _ Hk). unfold bind.
  destruct (send_prop_msg _ None 0 w) as [[[err m] w2] ev2] eqn:E.
  intros H. exists err, m.
  assert (K : w2 = w1 /\ ev2 = ev1); [|destruct K as (-> & ->); reflexivity].
  destruct (err <? 0); [|destruct default_value as [d|];
    [destruct (Nat.eqb _ 0); [destruct (Nat.leb _ _)|]|]];
    unfold ret in H; rewrite app_nil_r in H; injection H as _ _ <- <-;
    split; reflexivity.
Qed.

(** X17.  What goes over the socket: every [send] of [property_get] is on
    the socket of the call and carries the GETPROP envelope with the key and
    an empty value, every [send] of [property_list] the zeroed LISTPROP
    envelope; the static fallback sends nothing. *)
Theorem requests_on_the_wire (key value : string) (default_value : option string)
    (propfn : option nat) (cookie : Z) (w : world) :
  (strlen key < PROP_NAME_MAX)%nat ->
  (forall s m r,
     In (EvSend s m r) (snd (property_get (Some key) value default_value w)) ->
     s = os_socket w /\ m = mk_msg PROP_MSG_GETPROP key "") /\
  (forall s m r,
     In (EvSend s m r) (snd (property_list propfn cookie w)) ->
     s = os_socket w /\ m = zeroed PROP_MSG_LISTPROP).
Proof.
  intros Hk. split.
  - destruct (property_get_socket (Some key) value default_value w)
      as [[[e value'] w1] ev1] eqn:S.
    destruct (property_get_after_socket _ _ _ _ _ _ _ _ Hk S) as (ev2 & P & St & _).
    destruct (property_get_socket_exchange _ _ _ _ _ _ _ _ Hk S) as (err & m0 & E).
    rewrite P. cbn [snd]. intros s m r I. apply in_app_or in I.
    destruct I as [I|I]; [exact (exchange_sends _ _ _ _ _ _ _ _ E _ _ _ I)|].
    rewrite forallb_forall in St. specialize (St _ I). discriminate St.
  - unfold property_list, bind.
    destruct (send_prop_msg _ propfn cookie w) as [[[err m0] w1] ev1] eqn:E.
    assert (T : (if err <? 0 then ret err else ret 0) w1 =
                ((if err <? 0 then err else 0), w1, []))
      by (destruct (err <? 0); reflexivity).
    rewrite T, app_nil_r. cbn [snd]. intros s m r I.
    exact (exchange_sends _ _ _ _ _ _ _ _ E _ _ _ I).
Qed.

Lemma fgets_from_full (p rest : string) :
  forall n,
    strchr p LF = None -> String.length p = n ->
    fgets_from n (p ++ rest)%string = (p, rest).
Proof.
  induction p as [|x p IH]; intros [|n]; cbn [String.length]; try lia; intros H L.
  - destruct rest; reflexivity.
  - cbn in H |- *. destruct (Ascii.eqb x LF); [discriminate|].
    rewrite (IH n H) by lia. reflexivity.
Qed.

(** X18.  A line of more than 1023 bytes is read in pieces: when the file
    begins with 1023 bytes that hold neither a line feed nor an ['='],
    [find_key] answers what it answers on the bytes behind them, which it
    takes for the beginning of a line. *)
Theorem find_key_long_line (p rest key : string) (w w' : world) :
  strlen p = 1023%nat ->
  strchr p LF = None -> strchr p EQUALS = None ->
  build_prop w = Contents (p ++ rest) ->
  build_prop w' = Contents rest ->
  fst (fst (find_key (Some key) w)) = fst (fst (find_key (Some key) w')).
Proof.
  intros L N E B B'.
  rewrite !find_key_run. cbn [fst]. rewrite B, B'. unfold build_prop_lookup.
  rewrite (fgets_lines_step (p ++ rest)).
  assert (F : fgets 1024 (p ++ rest) = Some (p, rest)).
  { unfold fgets. destruct (p ++ rest)%string eqn:W.
    - destruct p; [discriminate L|discriminate W].
    - rewrite <- W. exact (f_equal Some (fgets_from_full p rest (1024 - 1) N L)). }
  rewrite F. cbn [first_match].
  assert (Le : line_entry p = None).
  { unfold line_entry, fields.
    rewrite split_on_single by (do 3 apply strchr_before_other; exact E).
    cbn [filter]. destruct (negb _); reflexivity. }
  rewrite Le. reflexivity.
Qed.

(** ** The build-properties file read line by line *)

Lemma absent_none (c : ascii) (s : string) : absent c s = true -> strchr s c = None.
Proof. unfold absent. destruct (strchr s c); [discriminate|reflexivity]. Qed.

Lemma before_app_hit (c : ascii) (a b r : string) :
  strchr a c = Some r -> before c (a ++ b)%string = before c a.
Proof.
  induction a as [|x a IH]; cbn; [discriminate|].
  destruct (Ascii.eqb x c); [reflexivity|]. intros H. rewrite (IH H). reflexivity.
Qed.

Lemma line_split (s r : string) :
  strchr s LF = Some r -> s = (before LF s ++ String LF r)%string.
Proof.
  induction s as [|x s IH]; cbn; [discriminate|].
  destruct (Ascii.eqb x LF) eqn:E.
  - intros [= ->]. apply Ascii.eqb_eq in E. subst x. reflexivity.
  - intros H. cbn. rewrite <- (IH H). reflexivity.
Qed.

(** Cutting at the first carriage return strips the trailing ones when there
    is no other. *)
Lemma before_strip_crlf (l : string) :
  strchr l LF = None -> strchr (strip_crlf l) CR = None ->
  before CR l = strip_crlf l.
Proof.
  induction l as [|a r IH]; [reflexivity|].
  cbn [strchr strip_crlf before].
  destruct (Ascii.eqb a LF) eqn:L; [discriminate|]. intros NoLF.
  destruct (strip_crlf r) as [|b t] eqn:S.
  - destruct (Ascii.eqb a CR) eqn:C; cbn [orb]; [reflexivity|].
    intros _. rewrite (IH NoLF eq_refl). reflexivity.
  - cbn [strchr]. destruct (Ascii.eqb a CR); [discriminate|].
    intros H. rewrite (IH NoLF H). reflexivity.
Qed.

Lemma strchr_before_cases (c d : ascii) (s : string) :
  strchr (before d s) c = None \/
  exists rest, strchr s c = Some rest /\ strchr (before d s) c = Some (before d rest).
Proof.
  induction s as [|x s IH]; cbn; [left; reflexivity|].
  destruct (Ascii.eqb x d); [left; reflexivity|]. cbn.
  destruct (Ascii.eqb x c); [right; eexists; split; reflexivity|exact IH].
Qed.

(** What is left of a plain line once the buffer is cut: the line without
    its trailing carriage returns. *)
Lemma cut_plain (l tail : string) :
  tail = "" \/ tail = LINE_END ->
  strchr l LF = None -> strchr l NUL = None -> strchr (strip_crlf l) CR = None ->
  before LF (before CR (cstr (l ++ tail))) = strip_crlf l.
Proof.
  intros T NoLF NoNUL Tr. unfold cstr.
  rewrite (before_app _ _ _ NoNUL).
  replace (before NUL tail) with tail by (destruct T as [-> | ->]; reflexivity).
  rewrite <- (before_strip_crlf l NoLF Tr).
  destruct (strchr l CR) as [r|] eqn:C.
  - rewrite (before_app_hit _ _ tail _ C).
    apply before_none. apply strchr_before_other. exact NoLF.
  - rewrite (before_app _ _ _ C).
    replace (before CR tail) with tail by (destruct T as [-> | ->]; reflexivity).
    rewrite (before_app _ _ _ NoLF).
    replace (before LF tail) with "" by (destruct T as [-> | ->]; reflexivity).
    rewrite string_app_nil. symmetry. apply before_none. exact C.
Qed.

(** With one ['='] at most, the first two tokens of [strtok] are the name
    and the value on the two sides of it. *)
Lemma fields_entry (c : string) :
  match strchr c EQUALS with
  | Some rest => absent EQUALS rest
  | None => true
  end = true ->
  match fields c with
  | k :: v :: _ => Some (k, v)
  | _ => None
  end = name_value_nonempty c.
Proof.
  unfold fields, name_value_nonempty, name_value. rewrite split_on_unfold.
  destruct (strchr c EQUALS) as [v|] eqn:V.
  - intros A. apply absent_none in A. rewrite (split_on_single _ _ A).
    cbn [filter].
    destruct (before EQUALS c) as [|a n]; destruct v as [|b v']; reflexivity.
  - intros _. cbn [filter]. destruct (negb _); reflexivity.
Qed.

Lemma plain_line_entry (l tail : string) :
  tail = "" \/ tail = LINE_END ->
  plain_line l = true -> strchr l LF = None ->
  line_entry (l ++ tail) = name_value_nonempty (strip_crlf l).
Proof.
  intros T P NoLF. unfold plain_line in P.
  apply andb_true_iff in P. destruct P as (P & One).
  apply andb_true_iff in P. destruct P as (P & Tr).
  apply andb_true_iff in P. destruct P as (_ & NoNUL).
  apply absent_none in NoNUL. apply absent_none in Tr.
  unfold line_entry. rewrite (cut_plain l tail T NoLF NoNUL Tr).
  apply fields_entry. rewrite <- (before_strip_crlf l NoLF Tr).
  destruct (strchr_before_cases EQUALS CR l) as [-> |(rest & E & ->)]; [reflexivity|].
  rewrite E in One. apply absent_none in One. unfold absent.
  rewrite (strchr_before_other _ _ _ One). reflexivity.
Qed.

Lemma fgets_from_short (s : string) :
  forall n,
    strchr s LF = None -> (String.length s <= n)%nat -> fgets_from n s = (s, "").
Proof.
  induction s as [|x s IH]; intros [|n]; cbn [String.length]; try lia; intros H L;
    try reflexivity.
  cbn in H |- *. destruct (Ascii.eqb x LF); [discriminate|].
  rewrite (IH n H) by lia. reflexivity.
Qed.

(** On a file of plain lines the buffers of [fgets] are the lines, and the
    entry of each is the one the specification reads. *)
Lemma plain_lines_lookup (key : string) (n : nat) :
  forall bytes,
    (String.length bytes <= n)%nat ->
    forallb plain_line (split_on LF bytes) = true ->
    first_match (fun buf => value_for key (line_entry buf)) (fgets_lines bytes) =
    first_match (fun line => value_for key (name_value_nonempty (strip_crlf line)))
                (split_on LF bytes).
Proof.
  induction n as [|n IH]; intros bytes Len Plain.
  { destruct bytes; [|cbn in Len; lia]. rewrite fgets_lines_step. reflexivity. }
  destruct (string_dec bytes "") as [->|NonEmpty];
    [rewrite fgets_lines_step; reflexivity|].
  rewrite split_on_unfold in Plain |- *.
  cbn [forallb] in Plain. apply andb_true_iff in Plain. destruct Plain as (P & Rest).
  assert (NoLF : strchr (before LF bytes) LF = None) by apply strchr_before.
  assert (Sz : (String.length (before LF bytes) < 1023)%nat).
  { unfold plain_line in P. apply andb_true_iff in P. destruct P as (P & _).
    apply andb_true_iff in P. destruct P as (P & _).
    apply andb_true_iff in P. destruct P as (P & _).
    apply Nat.ltb_lt in P. exact P. }
  rewrite fgets_lines_step. cbn [first_match].
  destruct (strchr bytes LF) as [rest|] eqn:S.
  - pose proof (line_split _ _ S) as Sp.
    pose proof (strchr_length _ _ _ S) as L.
    assert (F : fgets 1024 bytes = Some ((before LF bytes ++ LINE_END)%string, rest)).
    { rewrite Sp at 1. unfold fgets.
      destruct (before LF bytes ++ String LF rest)%string eqn:W.
      - destruct (before LF bytes); discriminate W.
      - rewrite <- W.
        exact (f_equal Some (fgets_from_line _ rest (1024 - 1) NoLF Sz)). }
    rewrite F. cbn [first_match].
    rewrite (plain_line_entry _ LINE_END (or_intror eq_refl) P NoLF).
    destruct (value_for key _); [reflexivity|].
    apply IH; [lia|exact Rest].
  - assert (B : before LF bytes = bytes) by (apply before_none; exact S).
    rewrite B in *.
    assert (F : fgets 1024 bytes = Some (bytes, "")).
    { unfold fgets. destruct bytes as [|x t] eqn:W; [destruct (NonEmpty eq_refl)|].
      rewrite <- W in *.
      exact (f_equal Some (fgets_from_short bytes (1024 - 1) S ltac:(lia))). }
    rewrite F. cbn [first_match]. rewrite (fgets_lines_step ""). cbn [fgets first_match].
    rewrite <- (string_app_nil bytes) at 1.
    rewrite (plain_line_entry _ "" (or_introl eq_refl) P S). reflexivity.
Qed.

(** C4, as amended.  On a build-properties file whose lines fit the line
    buffer, hold no NUL, hold carriage returns at their end only and have one
    ['='] at most, [find_key] reads the file line by line, strips the
    trailing CR and LF, splits each line on its first ['='] and returns the
    value of the first line whose key is the requested one; a line without
    ['='], with an empty name or with an empty value is skipped; NULL is
    returned when the file cannot be opened or read or no line matches. *)
Theorem find_key_lookup (key : string) (w : world) :
  plain_file (build_prop w) = true ->
  fst (fst (find_key (Some key) w)) =
    Ok (read_build_properties_amended key (build_prop w)) /\
  snd (fst (find_key (Some key) w)) = w.
Proof.
  intros P. rewrite find_key_run. cbn [fst snd]. split; [|reflexivity].
  unfold build_prop_lookup, read_build_properties_amended, plain_file in *.
  destruct (build_prop w) as [| |bytes]; try reflexivity.
  rewrite (plain_lines_lookup key (String.length bytes) bytes (le_n _) P). reflexivity.
Qed.
End Properties.

(** ** The claims on concrete runs *)

(** C1 on three runs: a SETPROP the service closes without a reply succeeds,
    a GETPROP it closes without a reply fails, a GETPROP it answers
    succeeds. *)
Lemma send_prop_msg_success_witness :
  (let '(result, _, _, evs) := send_prop_msg 32 92 set_msg None 0 w_empty_stream in
   full_request_sent 32 92 evs /\ closed_cleanly evs /\
   replies_observed 32 92 evs = O /\ result = 0) /\
  (let '(result, _, _, evs) := send_prop_msg 32 92 get_msg None 0 w_empty_stream in
   full_request_sent 32 92 evs /\ closed_cleanly evs /\
   replies_observed 32 92 evs = O /\ result = -1) /\
  (let '(result, _, _, evs) := send_prop_msg 32 92 get_msg None 0 w_live in
   full_request_sent 32 92 evs /\ closed_cleanly evs /\
   replies_observed 32 92 evs = 1%nat /\ result = 0).
Proof.
  split; [|split].
  - pose proof (send_prop_msg_success 32 92 set_msg None 0 w_empty_stream) as T.
    destruct (send_prop_msg 32 92 set_msg None 0 w_empty_stream)
      as [[[result msg'] w'] evs] eqn:E.
    vm_compute in E. injection E as <- <- <- <-.
    assert (F : full_request_sent 32 92
                  [EvSocket 3; EvConnect 3 0; EvSend 3 set_msg 128; EvRecv 3 0; EvClose 3])
      by (exists 3, set_msg; simpl; tauto).
    destruct (T _ _ _ _ eq_refl F) as (_ & _ & Ob & Cl & _ & _ & _ & St).
    split; [exact F|]. split; [exact (proj2 Cl eq_refl)|]. split; [exact Ob|].
    exact (St eq_refl eq_refl eq_refl).
  - pose proof (send_prop_msg_success 32 92 get_msg None 0 w_empty_stream) as T.
    destruct (send_prop_msg 32 92 get_msg None 0 w_empty_stream)
      as [[[result msg'] w'] evs] eqn:E.
    vm_compute in E. injection E as <- <- <- <-.
    assert (F : full_request_sent 32 92
                  [EvSocket 3; EvConnect 3 0; EvSend 3 get_msg 128; EvRecv 3 0; EvClose 3])
      by (exists 3, get_msg; simpl; tauto).
    destruct (T _ _ _ _ eq_refl F) as (_ & _ & Ob & Cl & _ & _ & Gt & _).
    split; [exact F|]. split; [exact (proj2 Cl eq_refl)|]. split; [exact Ob|].
    exact (Gt eq_refl eq_refl eq_refl).
  - pose proof (send_prop_msg_success 32 92 get_msg None 0 w_live) as T.
    destruct (send_prop_msg 32 92 get_msg None 0 w_live)
      as [[[result msg'] w'] evs] eqn:E.
    vm_compute in E. injection E as <- <- <- <-.
    assert (F : full_request_sent 32 92
                  [EvSocket 3; EvConnect 3 0; EvSend 3 get_msg 128;
                   EvRecv 3 128; EvRecv 3 0; EvClose 3])
      by (exists 3, get_msg; simpl; tauto).
    destruct (T _ _ _ _ eq_refl F) as (_ & _ & Ob & Cl & _ & Iff & _ & _).
    split; [exact F|]. split; [exact (proj2 Cl eq_refl)|]. split; [exact Ob|].
    apply (proj2 Iff). split; [reflexivity|]. left. discriminate.
Defined.

(** C2 as stated fails: the request is sent in full, the service closes
    without a reply, the callback is not called, and [property_list] returns
    -1, not 0. *)
Lemma property_list_empty_stream_is_failure :
  let '(result, _, evs) := property_list 32 92 (Some 1%nat) 0 w_empty_stream in
  full_request_sent 32 92 evs /\ recv_results evs = [0] /\ callbacks evs = [] /\
  result = -1 /\ result <> 0.
Proof.
  vm_compute. repeat split; try discriminate.
  exists 3, list_msg. simpl. tauto.
Qed.

(** C2, as amended, on the same run. *)
Lemma property_list_empty_stream_witness :
  let '(result, _, evs) := property_list 32 92 (Some 1%nat) 0 w_empty_stream in
  full_request_sent 32 92 evs /\ recv_results evs = [0] /\
  callbacks evs = [] /\ result = -1.
Proof.
  pose proof (property_list_empty_stream 32 92 (Some 1%nat) 0 w_empty_stream) as T.
  destruct (property_list 32 92 (Some 1%nat) 0 w_empty_stream)
    as [[result w'] evs] eqn:E.
  vm_compute in E. injection E as <- <- <-.
  assert (F : full_request_sent 32 92
                [EvSocket 3; EvConnect 3 0; EvSend 3 list_msg 128; EvRecv 3 0; EvClose 3])
    by (exists 3, list_msg; simpl; tauto).
  split; [exact F|]. split; [reflexivity|]. exact (T _ _ _ eq_refl F eq_refl).
Defined.

(** C5 on a stream whose second reception has 12 bytes: the callback has
    been called for the first reply only, the third reception is never read,
    the socket is closed once. *)
Lemma send_prop_msg_malformed_reply_witness :
  let '(result, _, w', evs) := send_prop_msg 32 92 list_msg (Some 1%nat) 7 w_malformed in
  In 12 (recv_results evs) /\
  result < 0 /\
  closed_fds evs = [3] /\
  (exists n,
      recv_results evs = repeat (sizeof_prop_msg_t 32 92) n ++ [12] /\
      (List.length (callbacks evs) <= n)%nat) /\
  os_recv w' = [full_reply "c" "3"].
Proof.
  pose proof (send_prop_msg_malformed_reply 32 92 list_msg (Some 1%nat) 7 w_malformed) as T.
  destruct (send_prop_msg 32 92 list_msg (Some 1%nat) 7 w_malformed)
    as [[[result msg'] w'] evs] eqn:E.
  vm_compute in E. injection E as <- <- <- <-.
  assert (I : In 12 (recv_results
                       [EvSocket 3; EvConnect 3 0; EvSend 3 list_msg 128; EvRecv 3 128;
                        EvCallback 1 "a" "1" 7; EvRecv 3 12; EvClose 3]))
    by (simpl; tauto).
  split; [exact I|].
  destruct (T _ _ _ _ eq_refl) as (_ & M).
  destruct (M 12 I ltac:(lia) ltac:(vm_compute; discriminate)) as (R & C & S).
  split; [exact R|]. split; [exact C|]. split; [exact S|]. reflexivity.
Defined.

(** C6 on a key of 32 characters and a value of 92. *)
Lemma length_checks_before_io_witness :
  (32 <= strlen key32)%nat /\
  property_set 32 92 (Some key32) (Some "1") w_empty_stream = (-1, w_empty_stream, []) /\
  property_set 32 92 (Some "ro.x") (Some (key32 ++ key32 ++ key32)%string) w_empty_stream =
    (-1, w_empty_stream, []) /\
  property_set 32 92 (Some "ro.x") None w_empty_stream =
    property_set 32 92 (Some "ro.x") (Some "") w_empty_stream /\
  (exists evs,
      snd (property_set 32 92 (Some "ro.x") None w_empty_stream) = EvSocket 3 :: evs) /\
  fst (fst (property_set 32 92 (Some "ro.x") None w_empty_stream)) = 0 /\
  property_get 32 92 (Some key32) "stale" None w_empty_stream =
    (Ok (-1, "stale"), w_empty_stream, []).
Proof.
  assert (K : (32 <= strlen key32)%nat) by (vm_compute; lia).
  assert (V : (92 <= strlen (key32 ++ key32 ++ key32)%string)%nat) by (vm_compute; lia).
  split; [exact K|].
  destruct (length_checks_before_io 32 92 key32 w_empty_stream) as (A & _ & _ & _ & D).
  destruct (length_checks_before_io 32 92 "ro.x" w_empty_stream) as (_ & B & C & S & _).
  split; [exact (A K (Some "1"))|].
  split; [exact (B _ V)|].
  split; [exact C|].
  split; [exact (S ltac:(vm_compute; lia) ltac:(lia))|].
  split; [reflexivity|exact (D K "stale" None)].
Defined.

(** C7 on a service that answers an empty value. *)
Lemma property_get_default_on_empty_reply_witness :
  let '(result, msg', w', evs) := send_prop_msg 32 92 get_msg None 0 w_empty_value in
  result = 0 /\ msg_value msg' = "" /\
  property_get 32 92 (Some "ro.x") "stale" (Some "dflt") w_empty_value =
    (Ok (4, "dflt"), w', evs) /\
  existsb static_io evs = false.
Proof.
  pose proof (property_get_default_on_empty_reply 32 92 "ro.x" "stale" "dflt" w_empty_value) as T.
  fold get_msg in T.
  destruct (send_prop_msg 32 92 get_msg None 0 w_empty_value)
    as [[[result msg'] w'] evs] eqn:E.
  vm_compute in E. injection E as <- <- <- <-.
  split; [reflexivity|]. split; [reflexivity|].
  eapply T; [vm_compute; lia|vm_compute; lia|reflexivity|reflexivity].
Defined.

(** C8 on the command line of the specification. *)
Lemma find_key_kernel_cmdline_lookup_witness :
  (12 <= 32)%nat /\
  fst (fst (find_key_kernel_cmdline 32 (Some "ro.serialno")
              (w_cmdline "androidboot.serialno=ABC123 console=ttyS0"))) =
    Ok (Some "ABC123") /\
  fst (fst (find_key_kernel_cmdline 32 (Some "ro.console")
              (w_cmdline "androidboot.serialno=ABC123 console=ttyS0"))) =
    Ok None.
Proof.
  split; [lia|].
  apply (proj2 (find_key_kernel_cmdline_lookup 32)
           (w_cmdline "androidboot.serialno=ABC123 console=ttyS0"));
    [lia|reflexivity].
Defined.

(** C10 on a default of four characters. *)
Lemma property_get_null_key_witness :
  (strlen "dflt" < 92)%nat /\
  property_get_socket 32 92 None "stale" (Some "dflt") w_empty_stream =
    ((0, "dflt"), w_empty_stream, []) /\
  property_get 32 92 None "stale" (Some "dflt") w_empty_stream =
    (Ok (4, "dflt"), w_empty_stream, []).
Proof.
  assert (H : (strlen "dflt" < 92)%nat) by (vm_compute; lia).
  split; [exact H|].
  exact (property_get_null_key 32 92 "stale" "dflt" w_empty_stream H).
Defined.

(** C3 at a total miss without a default: the call returns 0 and the buffer
    still holds what it held before; the last branch of [property_get] clears
    its local pointer, not the first byte of the buffer. *)
Theorem property_get_total_miss_keeps_buffer :
  property_get 32 92 (Some "ro.missing") "stale" None w_unreachable =
  (Ok (0, "stale"), w_unreachable,
   [EvSocket (-1); EvFopen build_prop_path;
    EvOpen cmdline_path; EvRead cmdline_path; EvCloseFile cmdline_path]).
Proof. vm_compute. reflexivity. Qed.

(** C4 as stated fails.  The line k= gives no value at all, where the claim
    has the empty value; a line is read through a buffer of 1023 bytes, so of
    a longer line the value found is cut; the line is cut at its first
    carriage return and at its first NUL, wherever they are; and of the line
    k=a=b the value found for k is a, not a=b. *)
Lemma find_key_departs_from_the_lines :
  fst (fst (find_key (Some "k") (w_build_prop ("k=" ++ LINE_END)))) = Ok None /\
  read_build_properties_spec "k" (Contents ("k=" ++ LINE_END)) = Some "" /\
  fst (fst (find_key (Some "k") (w_build_prop ("k=" ++ filler 1030 ++ LINE_END)))) =
    Ok (Some (filler 1021)) /\
  read_build_properties_spec "k" (Contents ("k=" ++ filler 1030 ++ LINE_END)) =
    Some (filler 1030) /\
  fst (fst (find_key (Some "k") (w_build_prop ("k=a" ++ String CR "b" ++ LINE_END)))) =
    Ok (Some "a") /\
  read_build_properties_spec "k" (Contents ("k=a" ++ String CR "b" ++ LINE_END)) =
    Some ("a" ++ String CR "b")%string /\
  fst (fst (find_key (Some "k") (w_build_prop ("k=a" ++ String NUL "b" ++ LINE_END)))) =
    Ok (Some "a") /\
  read_build_properties_spec "k" (Contents ("k=a" ++ String NUL "b" ++ LINE_END)) =
    Some ("a" ++ String NUL "b")%string /\
  fst (fst (find_key (Some "k") (w_build_prop ("k=a=b" ++ LINE_END)))) = Ok (Some "a") /\
  read_build_properties_spec "k" (Contents ("k=a=b" ++ LINE_END)) = Some "a=b".
Proof. vm_compute. repeat split; reflexivity. Qed.

(** C4, as amended, on the file of the specification and on a line with an
    empty value. *)
Lemma find_key_lookup_witness :
  plain_file (Contents ("ro.foo=bar" ++ CRLF ++ "malformed_line")) = true /\
  fst (fst (find_key (Some "ro.foo")
              (w_build_prop ("ro.foo=bar" ++ CRLF ++ "malformed_line")))) =
    Ok (Some "bar") /\
  fst (fst (find_key (Some "nonexistent")
              (w_build_prop ("ro.foo=bar" ++ CRLF ++ "malformed_line")))) = Ok None /\
  plain_file (Contents ("k=" ++ LINE_END)) = true /\
  fst (fst (find_key (Some "k") (w_build_prop ("k=" ++ LINE_END)))) = Ok None.
Proof.
  assert (P : plain_file (build_prop (w_build_prop ("ro.foo=bar" ++ CRLF ++ "malformed_line")))
              = true) by (vm_compute; reflexivity).
  assert (Q : plain_file (build_prop (w_build_prop ("k=" ++ LINE_END))) = true)
    by (vm_compute; reflexivity).
  split; [exact P|]. split.
  { exact (proj1 (find_key_lookup "ro.foo"
                    (w_build_prop ("ro.foo=bar" ++ CRLF ++ "malformed_line")) P)). }
  split.
  { exact (proj1 (find_key_lookup "nonexistent"
                    (w_build_prop ("ro.foo=bar" ++ CRLF ++ "malformed_line")) P)). }
  split; [exact Q|].
  exact (proj1 (find_key_lookup "k" (w_build_prop ("k=" ++ LINE_END)) Q)).
Defined.

(** C8 as stated fails: a boot parameter whose name gives a key of more than
    31 characters answers the request for the first 31 of them. *)
Lemma find_key_kernel_cmdline_cuts_candidate :
  (strlen key31 < 32)%nat /\
  fst (fst (find_key_kernel_cmdline 32 (Some key31) (w_cmdline long_token))) =
    Ok (Some "v") /\
  read_kernel_cmdline_spec key31 (Contents long_token) = None.
Proof. split; [vm_compute; lia|]. vm_compute. split; reflexivity. Qed.

(** C9 at a [connect] interrupted by a signal: [send_prop_msg] makes one
    attempt and returns -1, and [property_get] answers from the
    build-properties file although the service would have answered; an
    interrupted [send] is repeated and the service answers. *)
Theorem interrupted_connect_is_not_retried :
  fst (fst (fst (send_prop_msg 32 92 get_msg None 0 w_connect_interrupted))) = -1 /\
  snd (send_prop_msg 32 92 get_msg None 0 w_connect_interrupted) =
    [EvSocket 3; EvConnect 3 (-1); EvClose 3] /\
  fst (fst (property_get 32 92 (Some "ro.x") "" None w_connect_interrupted)) =
    Ok (6, "static") /\
  fst (fst (property_get 32 92 (Some "ro.x") "" None w_send_interrupted)) =
    Ok (4, "live").
Proof. vm_compute. repeat split; reflexivity. Qed.

(** ** Further properties on concrete runs *)

(** X1 on the stream with a malformed second reception. *)
Lemma send_prop_msg_descriptor_use_witness :
  let '(_, _, _, evs) := send_prop_msg 32 92 list_msg (Some 1%nat) 0 w_malformed in
  exists mid,
    evs = EvSocket 3 :: mid ++ [EvClose 3] /\ forallb (on_socket 3) mid = true.
Proof.
  pose proof (send_prop_msg_descriptor_use 32 92 list_msg (Some 1%nat) 0 w_malformed) as T.
  destruct (send_prop_msg 32 92 list_msg (Some 1%nat) 0 w_malformed)
    as [[[result msg'] w'] evs] eqn:E.
  vm_compute in E. injection E as <- <- <- <-.
  destruct (T _ _ _ _ eq_refl) as [(S & _)|(_ & H)]; [discriminate S|exact H].
Defined.

(** X2 on a stream of two replies: the envelope left is the second. *)
Lemma send_prop_msg_returns_last_reply_witness :
  let '(result, msg', _, _) := send_prop_msg 32 92 list_msg None 0 w_two_replies in
  result = 0 /\
  msg' = last (map envelope (leading_replies 32 92 (os_recv w_two_replies))) list_msg /\
  msg' = mk_msg PROP_MSG_GETPROP "ro.b" "2" /\
  leading_replies 32 92 (os_recv w_two_replies) <> [].
Proof.
  pose proof (send_prop_msg_returns_last_reply 32 92 list_msg None 0 w_two_replies) as T.
  destruct (send_prop_msg 32 92 list_msg None 0 w_two_replies)
    as [[[result msg'] w'] evs] eqn:E.
  vm_compute in E. injection E as <- <- <- <-.
  destruct (T _ _ _ eq_refl) as (A & B).
  split; [reflexivity|]. split; [exact A|]. split; [reflexivity|].
  apply B. discriminate.
Defined.

(** X4 on a SETPROP that is closed without a reply. *)
Lemma property_set_result_witness :
  (strlen "ro.x" < 32)%nat /\ (strlen "1" < 92)%nat /\
  let '(result, _, evs) := property_set 32 92 (Some "ro.x") (Some "1") w_empty_stream in
  result = 0 /\
  (result = 0 <-> full_request_sent 32 92 evs /\ closed_cleanly evs) /\
  (forall s m r, In (EvSend s m r) evs -> m = set_msg).
Proof.
  assert (K : (strlen "ro.x" < 32)%nat) by (vm_compute; lia).
  assert (V : (strlen "1" < 92)%nat) by (vm_compute; lia).
  split; [exact K|]. split; [exact V|].
  pose proof (property_set_result 32 92 "ro.x" "1" w_empty_stream) as T.
  destruct (property_set 32 92 (Some "ro.x") (Some "1") w_empty_stream)
    as [[result w'] evs] eqn:E.
  vm_compute in E. injection E as <- <- <-.
  split; [reflexivity|]. exact (T _ _ _ K V eq_refl).
Defined.

(** X5 on the stream with a malformed second reception: the first property
    is delivered and the call fails. *)
Lemma property_list_delivery_witness :
  let '(result, _, evs) := property_list 32 92 (Some 1%nat) 0 w_malformed in
  result = -1 /\ callbacks evs = [("a", "1")] /\
  (full_request_sent 32 92 evs ->
   callbacks evs = map reply_pair (leading_replies 32 92 (os_recv w_malformed))) /\
  (~ full_request_sent 32 92 evs -> callbacks evs = []) /\
  (result = 0 <->
   full_request_sent 32 92 evs /\ closed_cleanly evs /\
   leading_replies 32 92 (os_recv w_malformed) <> []).
Proof.
  pose proof (property_list_delivery 32 92 1%nat 0 w_malformed) as T.
  destruct (property_list 32 92 (Some 1%nat) 0 w_malformed) as [[result w'] evs] eqn:E.
  vm_compute in E. injection E as <- <- <-.
  split; [reflexivity|]. split; [reflexivity|]. exact (T _ _ _ eq_refl).
Defined.

(** X6 on a service that answers: the live value wins over the file. *)
Lemma property_get_live_witness :
  (strlen "ro.x" < 32)%nat /\
  let '(result, msg', w', evs) := send_prop_msg 32 92 get_msg None 0 w_live in
  result = 0 /\ msg_value msg' = "live" /\
  property_get 32 92 (Some "ro.x") "stale" (Some "dflt") w_live =
    (Ok (4, "live"), w', evs) /\
  existsb static_io evs = false.
Proof.
  assert (K : (strlen "ro.x" < 32)%nat) by (vm_compute; lia).
  split; [exact K|].
  pose proof (property_get_live 32 92 "ro.x" "stale" (Some "dflt") w_live) as T.
  fold get_msg in T.
  destruct (send_prop_msg 32 92 get_msg None 0 w_live) as [[[result msg'] w'] evs] eqn:E.
  vm_compute in E. injection E as <- <- <- <-.
  split; [reflexivity|]. split; [reflexivity|].
  refine (T _ _ _ K eq_refl _ _); [vm_compute; lia|right; discriminate].
Defined.

(** X7 on a service that answers an empty value, with a default of 92
    characters: the default comes back whole, by way of the static sources. *)
Lemma property_get_overlong_default_witness :
  (strlen "ro.x" < 32)%nat /\ (92 <= strlen long_default)%nat /\
  fst (fst (property_get 32 92 (Some "ro.x") "stale" (Some long_default) w_empty_value)) =
    Ok (92, long_default) /\
  In (EvFopen build_prop_path)
     (snd (property_get 32 92 (Some "ro.x") "stale" (Some long_default) w_empty_value)).
Proof.
  assert (K : (strlen "ro.x" < 32)%nat) by (vm_compute; lia).
  assert (D : (92 <= strlen long_default)%nat) by (vm_compute; lia).
  split; [exact K|]. split; [exact D|].
  pose proof (property_get_overlong_default 32 92 "ro.x" "stale" long_default
                w_empty_value) as T.
  fold get_msg in T.
  destruct (send_prop_msg 32 92 get_msg None 0 w_empty_value)
    as [[[result msg'] w'] evs] eqn:E.
  vm_compute in E. injection E as <- <- <- <-.
  destruct (T _ _ _ K D eq_refl eq_refl) as (_ & I & M).
  split; [exact (M eq_refl eq_refl)|exact I].
Defined.

(** X8 without a service: the build-properties file answers, and the
    command line is not opened. *)
Lemma property_get_resolution_order_witness :
  (strlen "ro.x" < 32)%nat /\
  fst (fst (send_prop_msg 32 92 get_msg None 0 w_static)) = (-1, get_msg) /\
  fst (fst (property_get 32 92 (Some "ro.x") "stale" (Some "dflt") w_static)) =
    Ok (resolve_static 32 "ro.x" "stale" (Some "dflt") w_static) /\
  resolve_static 32 "ro.x" "stale" (Some "dflt") w_static = (6, "static") /\
  (In (EvOpen cmdline_path)
      (snd (property_get 32 92 (Some "ro.x") "stale" (Some "dflt") w_static)) <->
   build_prop_lookup "ro.x" (build_prop w_static) = None).
Proof.
  assert (K : (strlen "ro.x" < 32)%nat) by (vm_compute; lia).
  split; [exact K|].
  pose proof (property_get_resolution_order 32 92 "ro.x" "stale" (Some "dflt")
                w_static) as T.
  fold get_msg in T.
  destruct (send_prop_msg 32 92 get_msg None 0 w_static)
    as [[[result msg'] w'] evs] eqn:E.
  vm_compute in E. injection E as <- <- <- <-.
  split; [reflexivity|].
  destruct (T _ _ _ _ K eq_refl ltac:(discriminate)) as (A & B).
  split; [exact A|]. split; [vm_compute; reflexivity|exact B].
Defined.

(** X10 on the second line of a build-properties file. *)
Lemma find_key_value_shape_witness :
  fst (fst (find_key (Some "ro.x") w_static)) = Ok (Some "static") /\
  "ro.x" <> "" /\ "static" <> "" /\
  (forall c, In c [EQUALS; CR; LF; NUL] ->
             strchr "ro.x" c = None /\ strchr "static" c = None) /\
  (strlen "ro.x" + strlen "static" <= 1022)%nat.
Proof.
  assert (F : fst (fst (find_key (Some "ro.x") w_static)) = Ok (Some "static"))
    by (vm_compute; reflexivity).
  split; [exact F|]. exact (find_key_value_shape "ro.x" w_static "static" F).
Defined.

(** X11 on the command line of the specification. *)
Lemma find_key_kernel_cmdline_value_shape_witness :
  fst (fst (find_key_kernel_cmdline 32 (Some "ro.serialno") w_static)) =
    Ok (Some "ABC123") /\
  String.prefix (take (32 - 1) "ro.") "ro.serialno" = true /\
  (strlen "ro.serialno" <= 32 - 1)%nat /\
  strchr "ro.serialno" EQUALS = None /\
  (forall c, In c [SP; NUL] ->
             strchr "ro.serialno" c = None /\ strchr "ABC123" c = None) /\
  (strlen "ABC123" <= 1010)%nat.
Proof.
  assert (F : fst (fst (find_key_kernel_cmdline 32 (Some "ro.serialno") w_static)) =
              Ok (Some "ABC123")) by (vm_compute; reflexivity).
  split; [exact F|].
  exact (find_key_kernel_cmdline_value_shape 32 "ro.serialno" w_static "ABC123" F).
Defined.

(** X12 on a file of two lines: the first line does not have the key, so
    the answer is that of the second. *)
Lemma find_key_first_line_witness :
  (strlen "ro.a" + strlen "1" + strlen LINE_END < 1023)%nat /\
  build_prop w_static =
    Contents ("ro.a" ++ String EQUALS "1" ++ LINE_END ++ "ro.x=static" ++ LINE_END) /\
  fst (fst (find_key (Some "ro.x") w_static)) =
    fst (fst (find_key (Some "ro.x") (w_build_prop ("ro.x=static" ++ LINE_END)))) /\
  fst (fst (find_key (Some "ro.a") w_static)) = Ok (Some "1").
Proof.
  assert (L : (strlen "ro.a" + strlen "1" + strlen LINE_END < 1023)%nat)
    by (vm_compute; lia).
  assert (C : forall c, In c [EQUALS; CR; LF; NUL] ->
                        strchr "ro.a" c = None /\ strchr "1" c = None)
    by (intros c [<-|[<-|[<-|[<-|[]]]]]; split; reflexivity).
  assert (K : "ro.a" <> "") by discriminate.
  assert (V : "1" <> "") by discriminate.
  split; [exact L|]. split; [reflexivity|]. split.
  - exact (find_key_first_line "ro.a" "1" LINE_END ("ro.x=static" ++ LINE_END) "ro.x"
             w_static (w_build_prop ("ro.x=static" ++ LINE_END))
             K V C (or_introl eq_refl) L eq_refl eq_refl).
  - exact (find_key_first_line "ro.a" "1" LINE_END ("ro.x=static" ++ LINE_END) "ro.a"
             w_static (w_build_prop ("ro.x=static" ++ LINE_END))
             K V C (or_introl eq_refl) L eq_refl eq_refl).
Defined.

(** X13 on the command line of the specification. *)
Lemma find_key_kernel_cmdline_first_token_witness :
  (strlen "serialno" + strlen "ABC123" + strlen "console=ttyS0" + 14 <= 1023)%nat /\
  fst (fst (find_key_kernel_cmdline 32 (Some "ro.serialno")
              (w_cmdline "androidboot.serialno=ABC123 console=ttyS0"))) =
    Ok (Some "ABC123") /\
  fst (fst (find_key_kernel_cmdline 32 (Some "ro.console")
              (w_cmdline "androidboot.serialno=ABC123 console=ttyS0"))) =
    fst (fst (find_key_kernel_cmdline 32 (Some "ro.console") (w_cmdline "console=ttyS0"))).
Proof.
  assert (L : (strlen "serialno" + strlen "ABC123" + strlen "console=ttyS0" + 14
               <= 1023)%nat) by (vm_compute; lia).
  assert (N : forall c, In c [SP; EQUALS; NUL] -> strchr "serialno" c = None)
    by (intros c [<-|[<-|[<-|[]]]]; reflexivity).
  assert (V : forall c, In c [SP; NUL] -> strchr "ABC123" c = None)
    by (intros c [<-|[<-|[]]]; reflexivity).
  split; [exact L|]. split.
  - exact (find_key_kernel_cmdline_first_token 32 "serialno" "ABC123" "console=ttyS0"
             "ro.serialno" (w_cmdline "androidboot.serialno=ABC123 console=ttyS0")
             (w_cmdline "console=ttyS0") N V L eq_refl eq_refl).
  - exact (find_key_kernel_cmdline_first_token 32 "serialno" "ABC123" "console=ttyS0"
             "ro.console" (w_cmdline "androidboot.serialno=ABC123 console=ttyS0")
             (w_cmdline "console=ttyS0") N V L eq_refl eq_refl).
Defined.

(** X14 with a build-properties file that holds entries: the null key is
    compared and the call does not return. *)
Lemma null_key_crash_on_static_entry_witness :
  (92 <= strlen long_default)%nat /\
  has_entry (build_prop w_static) = true /\
  fst (fst (property_get 32 92 None "stale" (Some long_default) w_static)) = Segfault /\
  fst (fst (property_get 32 92 None "stale" (Some long_default) w_unreachable)) =
    Ok (92, long_default).
Proof.
  assert (D : (92 <= strlen long_default)%nat) by (vm_compute; lia).
  split; [exact D|]. split; [vm_compute; reflexivity|]. split.
  - exact (proj1 (null_key_crash_on_static_entry 32 92 "stale" long_default w_static D)).
  - exact (proj1 (null_key_crash_on_static_entry 32 92 "stale" long_default
                    w_unreachable D)).
Defined.

(** X15 on one interrupted [send]: the exchange gives the live value as it
    does without the interruption. *)
Lemma interrupted_send_is_retried_witness :
  0 <= os_socket w_live /\
  0 <= fst (fst (connect (os_socket w_live) w_live)) /\
  with_send (repeat interrupted 1 ++ os_send w_live) w_live = w_send_interrupted /\
  fst (fst (send_prop_msg 32 92 get_msg None 0 w_send_interrupted)) =
    fst (fst (send_prop_msg 32 92 get_msg None 0 w_live)) /\
  exists c tail,
    snd (send_prop_msg 32 92 get_msg None 0 w_live) =
      EvSocket 3 :: EvConnect 3 c :: tail /\
    snd (send_prop_msg 32 92 get_msg None 0 w_send_interrupted) =
      EvSocket 3 :: EvConnect 3 c :: repeat (EvSend 3 get_msg (-1)) 1 ++ tail.
Proof.
  assert (S : 0 <= os_socket w_live) by (vm_compute; discriminate).
  assert (C : 0 <= fst (fst (connect (os_socket w_live) w_live)))
    by (vm_compute; discriminate).
  split; [exact S|]. split; [exact C|]. split; [reflexivity|].
  exact (interrupted_send_is_retried 32 92 get_msg None 0 w_live 1 S C).
Defined.

(** X16 on a short write. *)
Lemma send_prop_msg_unsent_witness :
  let '(result, msg', w', evs) := send_prop_msg 32 92 get_msg None 0 w_short_write in
  ~ full_request_sent 32 92 evs /\
  result = -1 /\ msg' = get_msg /\ os_recv w' = os_recv w_short_write /\
  recv_results evs = [] /\ callbacks evs = [].
Proof.
  pose proof (send_prop_msg_unsent 32 92 get_msg None 0 w_short_write) as T.
  destruct (send_prop_msg 32 92 get_msg None 0 w_short_write)
    as [[[result msg'] w'] evs] eqn:E.
  vm_compute in E. injection E as <- <- <- <-.
  assert (NF : ~ full_request_sent 32 92
                   [EvSocket 3; EvConnect 3 0; EvSend 3 get_msg 64; EvClose 3]).
  { intros (s & m & I). simpl in I.
    destruct I as [I|[I|[I|[I|[]]]]]; discriminate I. }
  split; [exact NF|]. exact (T _ _ _ _ eq_refl NF).
Defined.

(** X17 on a GETPROP for ro.x. *)
Lemma requests_on_the_wire_witness :
  (strlen "ro.x" < 32)%nat /\
  In (EvSend 3 get_msg 128)
     (snd (property_get 32 92 (Some "ro.x") "stale" None w_live)) /\
  (forall s m r,
     In (EvSend s m r) (snd (property_get 32 92 (Some "ro.x") "stale" None w_live)) ->
     s = os_socket w_live /\ m = mk_msg PROP_MSG_GETPROP "ro.x" "") /\
  (forall s m r,
     In (EvSend s m r) (snd (property_list 32 92 (Some 1%nat) 0 w_live)) ->
     s = os_socket w_live /\ m = zeroed PROP_MSG_LISTPROP).
Proof.
  assert (K : (strlen "ro.x" < 32)%nat) by (vm_compute; lia).
  split; [exact K|]. split; [vm_compute; tauto|].
  exact (requests_on_the_wire 32 92 "ro.x" "stale" None (Some 1%nat) 0 w_live K).
Defined.

(** X18 on a comment of 1023 characters followed by ro.x=late on the same
    line: the key is found. *)
Lemma find_key_long_line_witness :
  strlen (filler 1023) = 1023%nat /\
  strchr (filler 1023) LF = None /\ strchr (filler 1023) EQUALS = None /\
  fst (fst (find_key (Some "ro.x")
              (w_build_prop (filler 1023 ++ "ro.x=late" ++ LINE_END)))) =
    fst (fst (find_key (Some "ro.x") (w_build_prop ("ro.x=late" ++ LINE_END)))) /\
  fst (fst (find_key (Some "ro.x") (w_build_prop ("ro.x=late" ++ LINE_END)))) =
    Ok (Some "late").
Proof.
  assert (L : strlen (filler 1023) = 1023%nat) by (vm_compute; reflexivity).
  assert (N : strchr (filler 1023) LF = None) by (vm_compute; reflexivity).
  assert (E : strchr (filler 1023) EQUALS = None) by (vm_compute; reflexivity).
  split; [exact L|]. split; [exact N|]. split; [exact E|]. split.
  - exact (find_key_long_line (filler 1023) ("ro.x=late" ++ LINE_END) "ro.x"
             (w_build_prop (filler 1023 ++ "ro.x=late" ++ LINE_END))
             (w_build_prop ("ro.x=late" ++ LINE_END)) L N E eq_refl eq_refl).
  - vm_compute. reflexivity.
Defined.

(** X9 on a service that answers: the length of the live value. *)
Lemma property_get_return_value_witness :
  Forall (fun o => (strlen (msg_value (envelope o)) < 92)%nat)
         (leading_replies 32 92 (os_recv w_live)) /\
  fst (fst (property_get 32 92 (Some "ro.x") "stale" None w_live)) = Ok (4, "live") /\
  exists r buf,
    fst (fst (property_get 32 92 (Some "ro.x") "stale" None w_live)) = Ok (r, buf) /\
    (((32 <= strlen "ro.x")%nat /\ r = -1 /\ buf = "stale") \/
     ((strlen "ro.x" < 32)%nat /\
      (@None string = None /\
       fst (fst (fst (send_prop_msg 32 92 (mk_msg PROP_MSG_GETPROP "ro.x" "") None 0
                        w_live))) <> 0 /\
       build_prop_lookup "ro.x" (build_prop w_live) = None /\
       cmdline_lookup 32 "ro.x" (proc_cmdline w_live) = None) /\
      r = 0 /\ buf = "stale") \/
     ((strlen "ro.x" < 32)%nat /\
      ~ (@None string = None /\
         fst (fst (fst (send_prop_msg 32 92 (mk_msg PROP_MSG_GETPROP "ro.x" "") None 0
                          w_live))) <> 0 /\
         build_prop_lookup "ro.x" (build_prop w_live) = None /\
         cmdline_lookup 32 "ro.x" (proc_cmdline w_live) = None) /\
      r = Z.of_nat (strlen buf) /\
      (fst (fst (fst (property_get_socket 32 92 (Some "ro.x") "stale" None w_live))) = 0 ->
       (strlen buf < 92)%nat))).
Proof.
  assert (T : Forall (fun o => (strlen (msg_value (envelope o)) < 92)%nat)
                     (leading_replies 32 92 (os_recv w_live))).
  { vm_compute. constructor; [|constructor]. repeat constructor. }
  split; [exact T|]. split; [vm_compute; reflexivity|].
  exact (property_get_return_value 32 92 "ro.x" "stale" None w_live T).
Defined.
